(** * GuildQuest: a shallow embedding of [mainold.py]

    The development follows the layout of the Python module: the time
    model, the access-control resolver on campaigns, inventory-change
    application, the timeline query with its display formatting, and the
    JSON-shaped persistence codec with [load].

    Conventions.
    - Python [int] is unbounded, so integers are [Z]; [//] and [%] with a
      positive divisor are [Z.div] and [Z.modulo] (both floor).
    - Python [dict]s keep insertion order and have unique keys; they are
      association lists read by first match and written by [dict_set].
    - A raised exception is the [Raise] branch of [res]; in-place mutation
      is explicit state passing, and a function that can raise after it
      has mutated returns the state it leaves behind. *)

From Stdlib Require Import ZArith List Bool String Ascii Lia.
From Stdlib Require Import Permutation Sorted DecimalString.
From Stdlib Require Import DecimalPos DecimalZ.
Import ListNotations.

Local Open Scope string_scope.
Local Open Scope list_scope.
Local Open Scope Z_scope.

(** ** Exceptions and fallible results *)

(** The exception classes the modelled code can raise.  [IllTyped] is not
    a Python exception: the records below carry the types of the dataclass
    annotations, and a decoder that meets a JSON value of another type
    where Python would store it unchanged stops with [IllTyped]. *)
Inductive exn : Type :=
| ValueError
| KeyError
| TypeError
| AttributeError
| JSONDecodeError
| IllTyped.

Inductive res (A : Type) : Type :=
| Ok (a : A)
| Raise (e : exn).
Arguments Ok {A} a.
Arguments Raise {A} e.

Definition bind {A B : Type} (r : res A) (k : A -> res B) : res B :=
  match r with
  | Ok a => k a
  | Raise e => Raise e
  end.

Notation "'do' x <- r ; k" := (bind r (fun x => k))
  (at level 10, x name, r at level 100, k at level 200).

Fixpoint mapM {A B : Type} (f : A -> res B) (l : list A) : res (list B) :=
  match l with
  | [] => Ok []
  | a :: l' => do b <- f a; do bs <- mapM f l'; Ok (b :: bs)
  end.

(** ** Enums *)

Inductive Visibility : Type := PUBLIC | PRIVATE.
Inductive PermissionLevel : Type := VIEW_ONLY | COLLABORATIVE.
Inductive TimeDisplayPreference : Type := WORLD | LOCAL | BOTH.
Inductive TimeRangeType : Type := DAY | WEEK | MONTH | YEAR.

Definition PermissionLevel_eqb (a b : PermissionLevel) : bool :=
  match a, b with
  | VIEW_ONLY, VIEW_ONLY | COLLABORATIVE, COLLABORATIVE => true
  | _, _ => false
  end.


(** Python truthiness of a [str]: the empty string is falsy. *)
Definition truthy (s : string) : bool := negb (s =? "")%string.

(** ** Dictionaries *)

(** A Python [dict] with [str] keys, in insertion order. *)
Definition dict (V : Type) : Type := list (string * V).

(** [d.get(k)]. *)
Fixpoint dict_get {V : Type} (k : string) (d : dict V) : option V :=
  match d with
  | [] => None
  | (k', v) :: d' => if (k' =? k)%string then Some v else dict_get k d'
  end.

(** [k in d]. *)
Definition dict_has {V : Type} (k : string) (d : dict V) : bool :=
  match dict_get k d with Some _ => true | None => false end.

(** [d[k] = v]: replaces the value of an existing key where it stands,
    appends a new key. *)
Fixpoint dict_set {V : Type} (k : string) (v : V) (d : dict V) : dict V :=
  match d with
  | [] => [(k, v)]
  | (k', v') :: d' =>
      if (k' =? k)%string then (k', v) :: d' else (k', v') :: dict_set k v d'
  end.

(** [del d[k]] for a key the dict has; a dict has each key once. *)
Fixpoint dict_del {V : Type} (k : string) (d : dict V) : dict V :=
  match d with
  | [] => []
  | (k', v) :: d' =>
      if (k' =? k)%string then d' else (k', v) :: dict_del k d'
  end.

(** ** Lists *)

(** [x in l] for a list of [str]. *)
Fixpoint str_in (x : string) (l : list string) : bool :=
  match l with
  | [] => false
  | y :: l' => (y =? x)%string || str_in x l'
  end.

(** [l.remove(x)] for a list of [str]: drops the first [x]; [None] is the
    [ValueError] of a list without [x]. *)
Fixpoint str_remove (x : string) (l : list string) : option (list string) :=
  match l with
  | [] => None
  | y :: l' =>
      if (y =? x)%string then Some l'
      else option_map (cons y) (str_remove x l')
  end.

(** [l[i]]: a negative index counts from the end; [None] is the
    [IndexError] of an index out of range. *)
Definition py_index {A : Type} (l : list A) (i : Z) : option A :=
  let n := Z.of_nat (List.length l) in
  if (0 <=? i) && (i <? n) then nth_error l (Z.to_nat i)
  else if (- n <=? i) && (i <? 0) then nth_error l (Z.to_nat (i + n))
  else None.

(** [_pick_from_list(title, items)], given the number [_safe_int] returns
    for the prompt (it is not asked for when [items] is empty).  The outer
    [None] is an [IndexError]; the inner one is the [None] the function
    returns for no items and for the choice 0. *)
Definition _pick_from_list (items : list (string * string)) (choice : Z)
  : option (option string) :=
  match items with
  | [] => Some None
  | _ =>
      if choice =? 0 then Some None
      else option_map (fun it => Some (fst it)) (py_index items (choice - 1))
  end.

(** [a or b] on strings. *)
Definition str_or (a b : string) : string := if truthy a then a else b.

(** ** Time model *)

Module WorldClockTime.

Record t : Type := mk { day : Z; hour : Z; minute : Z }.

(** The bounds [__post_init__] enforces. *)
Definition valid (w : t) : Prop :=
  0 <= day w /\ 0 <= hour w <= 23 /\ 0 <= minute w <= 59.

(** [__post_init__] raises [ValueError] on the first violated bound. *)
Definition __post_init__ (self : t) : res unit :=
  if day self <? 0 then Raise ValueError
  else if negb ((0 <=? hour self) && (hour self <=? 23)) then Raise ValueError
  else if negb ((0 <=? minute self) && (minute self <=? 59)) then Raise ValueError
  else Ok tt.

(** [WorldClockTime(day, hour, minute)]: the generated [__init__] of the
    frozen dataclass stores the three fields and calls [__post_init__]. *)
Definition construct (d h m : Z) : res t :=
  do _ <- __post_init__ (mk d h m); Ok (mk d h m).

Definition to_minutes (w : t) : Z :=
  day w * 24 * 60 + hour w * 60 + minute w.

Definition plus_minutes (w : t) (delta : Z) : res t :=
  let total := to_minutes w + delta in
  if total <? 0 then Raise ValueError
  else
    let d := total / (24 * 60) in
    let rem := total mod (24 * 60) in
    let h := rem / 60 in
    let m := rem mod 60 in
    construct d h m.

(** [f"{n}"] for an [int]. *)
Definition dec (n : Z) : string := NilZero.string_of_int (Z.to_int n).

(** [f"{n:02d}"]: decimal, zero-padded to width two (a sign counts towards
    the width, as in Python). *)
Definition dec02 (n : Z) : string :=
  if (0 <=? n) && (n <? 10) then ("0" ++ dec n)%string else dec n.

(** [__str__]: [f"Day {day} {hour:02d}:{minute:02d}"]. *)
Definition to_str (w : t) : string :=
  ("Day " ++ dec (day w) ++ " " ++ dec02 (hour w) ++ ":" ++ dec02 (minute w))%string.

End WorldClockTime.

(** ** Realm and settings *)

Module RealmTimeRule.

(** [day_length_multiplier] is a Python [float] that is only stored; it is
    kept as the bit pattern of the IEEE double. *)
Record t : Type := mk { offset_minutes : Z; day_length_multiplier : Z }.

(** The double 1.0. *)
Definition one : Z := 0x3FF0000000000000.

Definition to_local (r : t) (world_time : WorldClockTime.t) : res WorldClockTime.t :=
  WorldClockTime.plus_minutes world_time (offset_minutes r).

End RealmTimeRule.

Module Realm.

Record t : Type := mk {
  realm_id : string;
  name : string;
  description : string;
  map_id : Z;
  x_coord : Z;
  y_coord : Z;
  time_rule : RealmTimeRule.t
}.

End Realm.

Module Settings.

Record t : Type := mk {
  current_realm_id : string;
  theme : string;
  time_display : TimeDisplayPreference
}.

End Settings.

(** ** Characters and inventories *)

Module InventoryItem.

Record t : Type := mk {
  name : string;
  description : string;
  type : string;
  rarity : Z
}.

(** The dataclass [__eq__]: field by field. *)
Definition eqb (a b : t) : bool :=
  (name a =? name b)%string && (description a =? description b)%string
  && (type a =? type b)%string && (rarity a =? rarity b).

End InventoryItem.

(** [l.remove(x)]: drops the first element equal to [x]; [ValueError] when
    there is none. *)
Fixpoint list_remove (x : InventoryItem.t) (l : list InventoryItem.t)
  : res (list InventoryItem.t) :=
  match l with
  | [] => Raise ValueError
  | y :: l' =>
      if InventoryItem.eqb y x then Ok l'
      else do r <- list_remove x l'; Ok (y :: r)
  end.

Module Character.

Record t : Type := mk {
  char_id : string;
  name : string;
  class_name : string;
  level : Z;
  inventory : list InventoryItem.t
}.

Definition set_inventory (c : t) (inv : list InventoryItem.t) : t :=
  mk (char_id c) (name c) (class_name c) (level c) inv.

Definition add_item (c : t) (item : InventoryItem.t) : t :=
  set_inventory c (inventory c ++ [item]).

(** The loop of [remove_item_by_name] over the snapshot [list(self.inventory)]:
    [inv] is the live inventory, [removed] the counter. *)
Fixpoint remove_loop (snapshot : list InventoryItem.t) (item_name : string)
    (qty : Z) (inv : list InventoryItem.t) (removed : Z)
  : res (list InventoryItem.t * Z) :=
  match snapshot with
  | [] => Ok (inv, removed)
  | it :: rest =>
      if qty <=? removed then Ok (inv, removed)
      else if (InventoryItem.name it =? item_name)%string then
        do inv' <- list_remove it inv;
        remove_loop rest item_name qty inv' (removed + 1)
      else remove_loop rest item_name qty inv removed
  end.

(** Returns the mutated character and the number of items removed. *)
Definition remove_item_by_name (c : t) (item_name : string) (qty : Z)
  : res (t * Z) :=
  do r <- remove_loop (inventory c) item_name qty (inventory c) 0;
  Ok (set_inventory c (fst r), snd r).

End Character.

Module InventoryChange.

Record t : Type := mk {
  item : InventoryItem.t;
  delta_qty : Z;
  target_char_id : option string
}.

End InventoryChange.

(** ** Sharing *)

Module Share.

Record t : Type := mk { shared_with_user : string; permission : PermissionLevel }.

(** The loop shared by both [share_with] methods: the first share of
    [username] gets the new level, and a share is appended when the loop
    finds none. *)
Fixpoint upsert (username : string) (p : PermissionLevel) (l : list t) : list t :=
  match l with
  | [] => [mk username p]
  | s :: l' =>
      if (shared_with_user s =? username)%string
      then mk (shared_with_user s) p :: l'
      else s :: upsert username p l'
  end.

(** [[s for s in shares if s.shared_with_user != username]]. *)
Definition without (username : string) (l : list t) : list t :=
  filter (fun s => negb (shared_with_user s =? username)%string) l.

(** [for s in shares: if s.shared_with_user == username: return s.permission]. *)
Fixpoint lookup (username : string) (l : list t) : option PermissionLevel :=
  match l with
  | [] => None
  | s :: l' =>
      if (shared_with_user s =? username)%string then Some (permission s)
      else lookup username l'
  end.

End Share.

(** ** Quest events, campaigns, users *)

Module QuestEvent.

Record t : Type := mk {
  event_id : string;
  name : string;
  start_time : WorldClockTime.t;
  end_time : option WorldClockTime.t;
  realm_id : string;
  participant_char_ids : list string;
  shares : list Share.t;
  inventory_changes : list InventoryChange.t
}.

Definition set_shares (e : t) (l : list Share.t) : t :=
  mk (event_id e) (name e) (start_time e) (end_time e) (realm_id e)
     (participant_char_ids e) l (inventory_changes e).

Definition set_participants (e : t) (l : list string) : t :=
  mk (event_id e) (name e) (start_time e) (end_time e) (realm_id e)
     l (shares e) (inventory_changes e).

Definition share_with (e : t) (username : string) (p : PermissionLevel) : t :=
  set_shares e (Share.upsert username p (shares e)).

Definition unshare_with (e : t) (username : string) : t :=
  set_shares e (Share.without username (shares e)).

Definition get_permission (e : t) (username owner_username : string)
  : option PermissionLevel :=
  if (username =? owner_username)%string then Some COLLABORATIVE
  else Share.lookup username (shares e).

End QuestEvent.

Module Campaign.

Record t : Type := mk {
  campaign_id : string;
  owner_username : string;
  name : string;
  visibility : Visibility;
  archived : bool;
  quest_event_ids : list string;
  shares : list Share.t
}.

Definition set_shares (c : t) (l : list Share.t) : t :=
  mk (campaign_id c) (owner_username c) (name c) (visibility c) (archived c)
     (quest_event_ids c) l.

Definition share_with (c : t) (username : string) (p : PermissionLevel) : t :=
  if (username =? owner_username c)%string then c
  else set_shares c (Share.upsert username p (shares c)).

Definition unshare_with (c : t) (username : string) : t :=
  set_shares c (Share.without username (shares c)).

Definition get_permission (c : t) (username : string) : option PermissionLevel :=
  if (username =? owner_username c)%string then Some COLLABORATIVE
  else match visibility c with
       | PUBLIC => Some VIEW_ONLY
       | PRIVATE => Share.lookup username (shares c)
       end.

Definition can_view (c : t) (username : string) : bool :=
  match get_permission c username with Some _ => true | None => false end.

Definition can_edit (c : t) (username : string) : bool :=
  match get_permission c username with
  | Some p => PermissionLevel_eqb p COLLABORATIVE
  | None => false
  end.

Definition set_quest_event_ids (c : t) (l : list string) : t :=
  mk (campaign_id c) (owner_username c) (name c) (visibility c) (archived c)
     l (shares c).

End Campaign.

Module User.

Record t : Type := mk {
  username : string;
  settings : Settings.t;
  campaign_ids : list string;
  character_ids : list string
}.

Definition set_campaign_ids (u : t) (l : list string) : t :=
  mk (username u) (settings u) l (character_ids u).

Definition set_character_ids (u : t) (l : list string) : t :=
  mk (username u) (settings u) (campaign_ids u) l.

End User.

(** ** JSON values *)

(** What [json.load] returns and [json.dump] accepts: [None], [bool],
    [int], [float] (as the bit pattern of the double), [str], [list], and
    [dict] with [str] keys. *)
Set Warnings "-register-all".
Inductive json : Type :=
| JNull
| JBool (b : bool)
| JInt (z : Z)
| JFloat (bits : Z)
| JStr (s : string)
| JList (l : list json)
| JDict (kv : list (string * json)).

Module Json.

(** [j.get(k, default)]; only a [dict] has the method. *)
Definition get (j : json) (k : string) (default : json) : res json :=
  match j with
  | JDict kv => Ok (match dict_get k kv with Some v => v | None => default end)
  | _ => Raise AttributeError
  end.

(** [j[k]] with a [str] key. *)
Definition subscript (j : json) (k : string) : res json :=
  match j with
  | JDict kv =>
      match dict_get k kv with Some v => Ok v | None => Raise KeyError end
  | _ => Raise TypeError
  end.

(** [j.items()]. *)
Definition items (j : json) : res (list (string * json)) :=
  match j with
  | JDict kv => Ok kv
  | _ => Raise AttributeError
  end.

(** [for x in j]: a list yields its elements, a dict its keys, a string
    its characters. *)
Definition iter (j : json) : res (list json) :=
  match j with
  | JList l => Ok l
  | JDict kv => Ok (map (fun p => JStr (fst p)) kv)
  | JStr s => Ok (map (fun c => JStr (String c EmptyString)) (list_ascii_of_string s))
  | _ => Raise TypeError
  end.

(** Python truthiness. *)
Definition truthy_json (j : json) : bool :=
  match j with
  | JNull => false
  | JBool b => b
  | JInt z => negb (z =? 0)
  | JFloat bits => negb ((bits =? 0) || (bits =? 0x8000000000000000))
  | JStr s => truthy s
  | JList l => match l with [] => false | _ => true end
  | JDict kv => match kv with [] => false | _ => true end
  end.

(** Leaves read at the type of the dataclass annotation. *)
Definition as_str (j : json) : res string :=
  match j with JStr s => Ok s | _ => Raise IllTyped end.

Definition as_int (j : json) : res Z :=
  match j with JInt z => Ok z | _ => Raise IllTyped end.

Definition as_float (j : json) : res Z :=
  match j with JFloat bits => Ok bits | _ => Raise IllTyped end.

Definition as_opt_str (j : json) : res (option string) :=
  match j with
  | JNull => Ok None
  | JStr s => Ok (Some s)
  | _ => Raise IllTyped
  end.

Definition as_str_list (j : json) : res (list string) :=
  match j with JList l => mapM as_str l | _ => Raise IllTyped end.

Definition as_int_dict (j : json) : res (dict Z) :=
  match j with
  | JDict kv => mapM (fun p => do z <- as_int (snd p); Ok (fst p, z)) kv
  | _ => Raise IllTyped
  end.

(** [int(j)] on the values the annotation allows. *)
Definition to_int (j : json) : res Z :=
  match j with
  | JInt z => Ok z
  | JBool b => Ok (Z.b2z b)
  | JNull | JList _ | JDict _ => Raise TypeError
  | JFloat _ | JStr _ => Raise IllTyped
  end.

Definition of_opt_str (o : option string) : json :=
  match o with Some s => JStr s | None => JNull end.

Definition of_str_list (l : list string) : json := JList (map JStr l).

End Json.

(** ** Enum tags *)

(** [member.value]; also what [json.dump] writes for a member of a
    [(str, Enum)] class. *)
Definition Visibility_value (v : Visibility) : string :=
  match v with PUBLIC => "PUBLIC" | PRIVATE => "PRIVATE" end.

Definition PermissionLevel_value (p : PermissionLevel) : string :=
  match p with VIEW_ONLY => "VIEW_ONLY" | COLLABORATIVE => "COLLABORATIVE" end.

Definition TimeDisplayPreference_value (d : TimeDisplayPreference) : string :=
  match d with WORLD => "WORLD" | LOCAL => "LOCAL" | BOTH => "BOTH" end.

(** [str(member)] for [class PermissionLevel(str, Enum)]: [Enum.__str__]
    gives the class name, a dot and the member name. *)
Definition PermissionLevel_str (p : PermissionLevel) : string :=
  match p with
  | VIEW_ONLY => "PermissionLevel.VIEW_ONLY"
  | COLLABORATIVE => "PermissionLevel.COLLABORATIVE"
  end.

(** [Visibility(x)], [PermissionLevel(x)], [TimeDisplayPreference(x)]:
    lookup by value, [ValueError] for anything that is no member's value. *)
Definition Visibility_of (j : json) : res Visibility :=
  match j with
  | JStr s =>
      if (s =? "PUBLIC")%string then Ok PUBLIC
      else if (s =? "PRIVATE")%string then Ok PRIVATE
      else Raise ValueError
  | _ => Raise ValueError
  end.

Definition PermissionLevel_of (j : json) : res PermissionLevel :=
  match j with
  | JStr s =>
      if (s =? "VIEW_ONLY")%string then Ok VIEW_ONLY
      else if (s =? "COLLABORATIVE")%string then Ok COLLABORATIVE
      else Raise ValueError
  | _ => Raise ValueError
  end.

Definition TimeDisplayPreference_of (j : json) : res TimeDisplayPreference :=
  match j with
  | JStr s =>
      if (s =? "WORLD")%string then Ok WORLD
      else if (s =? "LOCAL")%string then Ok LOCAL
      else if (s =? "BOTH")%string then Ok BOTH
      else Raise ValueError
  | _ => Raise ValueError
  end.

(** ** The application store *)

Module GuildQuestApp.

Record t : Type := mk {
  users : dict User.t;
  realms : dict Realm.t;
  campaigns : dict Campaign.t;
  events : dict QuestEvent.t;
  characters : dict Character.t;
  _id_counters : dict Z;
  current_user : option string
}.

Definition set_characters (self : t) (cs : dict Character.t) : t :=
  mk (users self) (realms self) (campaigns self) (events self) cs
     (_id_counters self) (current_user self).

(** *** Inventory changes *)

(** [for _ in range(n): ch.add_item(item)]. *)
Fixpoint add_items (ch : Character.t) (item : InventoryItem.t) (n : nat)
  : Character.t :=
  match n with
  | O => ch
  | S n' => add_items (Character.add_item ch item) item n'
  end.

(** [if chg.target_char_id: targets = [chg.target_char_id]
     else: targets = list(e.participant_char_ids)]: the test is Python
    truthiness, so an empty id counts as none. *)
Definition targets_of (e : QuestEvent.t) (chg : InventoryChange.t) : list string :=
  match InventoryChange.target_char_id chg with
  | Some cid => if truthy cid then [cid] else QuestEvent.participant_char_ids e
  | None => QuestEvent.participant_char_ids e
  end.

(** The body of [for cid in targets]; the character found under [cid] is
    mutated in place, which is a write back under the same key. *)
Definition apply_to_target (chg : InventoryChange.t) (cs : dict Character.t)
    (cid : string) : res (dict Character.t) :=
  match dict_get cid cs with
  | None => Ok cs
  | Some ch =>
      let d := InventoryChange.delta_qty chg in
      if 0 <? d then
        Ok (dict_set cid (add_items ch (InventoryChange.item chg) (Z.to_nat d)) cs)
      else if d <? 0 then
        do r <- Character.remove_item_by_name ch
                  (InventoryItem.name (InventoryChange.item chg)) (- d);
        Ok (dict_set cid (fst r) cs)
      else Ok cs
  end.

Fixpoint apply_to_targets (chg : InventoryChange.t) (cs : dict Character.t)
    (targets : list string) : res (dict Character.t) :=
  match targets with
  | [] => Ok cs
  | cid :: rest =>
      do cs' <- apply_to_target chg cs cid; apply_to_targets chg cs' rest
  end.

Fixpoint apply_changes (e : QuestEvent.t) (cs : dict Character.t)
    (chgs : list InventoryChange.t) : res (dict Character.t) :=
  match chgs with
  | [] => Ok cs
  | chg :: rest =>
      do cs' <- apply_to_targets chg cs (targets_of e chg);
      apply_changes e cs' rest
  end.

Definition _apply_event_inventory_changes (self : t) (e : QuestEvent.t) : res t :=
  do cs <- apply_changes e (characters self) (QuestEvent.inventory_changes e);
  Ok (set_characters self cs).

(** *** Timeline *)

Definition start_key (e : QuestEvent.t) : Z :=
  WorldClockTime.to_minutes (QuestEvent.start_time e).

(** [list.sort(key=...)] is stable; a stable sort has one possible result,
    computed here by insertion. *)
Fixpoint insert_by_key (e : QuestEvent.t) (l : list QuestEvent.t)
  : list QuestEvent.t :=
  match l with
  | [] => [e]
  | x :: l' =>
      if start_key e <=? start_key x then e :: x :: l'
      else x :: insert_by_key e l'
  end.

Fixpoint sort_by_key (l : list QuestEvent.t) : list QuestEvent.t :=
  match l with
  | [] => []
  | e :: l' => insert_by_key e (sort_by_key l')
  end.

(** The window [(start, end)] of the [if]/[elif] chain. *)
Definition range_window (range_type : TimeRangeType) (anchor : WorldClockTime.t)
  : Z * Z :=
  let start_day_minutes := WorldClockTime.day anchor * 24 * 60 in
  match range_type with
  | DAY => (start_day_minutes, start_day_minutes + 24 * 60)
  | WEEK => (start_day_minutes, start_day_minutes + 7 * 24 * 60)
  | MONTH => (start_day_minutes, start_day_minutes + 30 * 24 * 60)
  | YEAR => (start_day_minutes, start_day_minutes + 365 * 24 * 60)
  end.

(** The collecting loop over [camp.quest_event_ids]. *)
Fixpoint collect (self : t) (lo hi : Z) (eids : list string) : list QuestEvent.t :=
  match eids with
  | [] => []
  | eid :: rest =>
      match dict_get eid (events self) with
      | None => collect self lo hi rest
      | Some e =>
          let m := start_key e in
          if (lo <=? m) && (m <? hi) then e :: collect self lo hi rest
          else collect self lo hi rest
      end
  end.

Definition _get_campaign_events_by_range (self : t) (camp : Campaign.t)
    (range_type : TimeRangeType) (anchor : WorldClockTime.t) : list QuestEvent.t :=
  let w := range_window range_type anchor in
  sort_by_key (collect self (fst w) (snd w) (Campaign.quest_event_ids camp)).

(** The body of the [for e in events] loop of [view_timeline], up to the
    line it prints. *)
Definition realm_name_of (self : t) (e : QuestEvent.t) : string :=
  match dict_get (QuestEvent.realm_id e) (realms self) with
  | Some realm => Realm.name realm
  | None => QuestEvent.realm_id e
  end.

Definition world_str (e : QuestEvent.t) : string :=
  WorldClockTime.to_str (QuestEvent.start_time e).

Definition local_str (self : t) (e : QuestEvent.t) : res string :=
  match dict_get (QuestEvent.realm_id e) (realms self) with
  | Some realm =>
      do l <- RealmTimeRule.to_local (Realm.time_rule realm) (QuestEvent.start_time e);
      Ok (WorldClockTime.to_str l)
  | None => Ok (world_str e)
  end.

Definition timeline_line (self : t) (user : User.t) (e : QuestEvent.t)
  : res string :=
  let realm_name := realm_name_of self e in
  do local <- local_str self e;
  let t :=
    match Settings.time_display (User.settings user) with
    | WORLD => world_str e
    | LOCAL => (local ++ " (" ++ realm_name ++ ")")%string
    | BOTH => (world_str e ++ " | " ++ local ++ " (" ++ realm_name ++ ")")%string
    end in
  Ok ("- " ++ QuestEvent.event_id e ++ ": " ++ QuestEvent.name e ++ " @ " ++ t)%string.

(** The lines the loop prints, in order; the first exception ends it. *)
Definition timeline_lines (self : t) (user : User.t) (evs : list QuestEvent.t)
  : res (list string) :=
  mapM (timeline_line self user) evs.

(** *** Serialization helpers *)

(** [asdict] of the small dataclasses. *)
Definition time_asdict (w : WorldClockTime.t) : json :=
  JDict [("day", JInt (WorldClockTime.day w));
         ("hour", JInt (WorldClockTime.hour w));
         ("minute", JInt (WorldClockTime.minute w))].

Definition item_asdict (it : InventoryItem.t) : json :=
  JDict [("name", JStr (InventoryItem.name it));
         ("description", JStr (InventoryItem.description it));
         ("type", JStr (InventoryItem.type it));
         ("rarity", JInt (InventoryItem.rarity it))].

(** A share after [s["permission"] = str(s["permission"])]. *)
Definition share_to_dict (s : Share.t) : json :=
  JDict [("shared_with_user", JStr (Share.shared_with_user s));
         ("permission", JStr (PermissionLevel_str (Share.permission s)))].

Definition _realm_to_dict (r : Realm.t) : json :=
  JDict [("realm_id", JStr (Realm.realm_id r));
         ("name", JStr (Realm.name r));
         ("description", JStr (Realm.description r));
         ("map_id", JInt (Realm.map_id r));
         ("x_coord", JInt (Realm.x_coord r));
         ("y_coord", JInt (Realm.y_coord r));
         ("time_rule",
          JDict [("offset_minutes",
                  JInt (RealmTimeRule.offset_minutes (Realm.time_rule r)));
                 ("day_length_multiplier",
                  JFloat (RealmTimeRule.day_length_multiplier (Realm.time_rule r)))])].

(** In each decoder the reads that can raise in Python come first, in the
    order of the source; the leaves are read at their annotated types
    after them, so a decoder stops with [IllTyped] only where Python
    would have returned. *)
Definition _dict_to_realm (d : json) : res Realm.t :=
  do tr <- Json.get d "time_rule" (JDict []);
  do om <- Json.get tr "offset_minutes" (JInt 0);
  do dm <- Json.get tr "day_length_multiplier" (JFloat RealmTimeRule.one);
  do rid <- Json.subscript d "realm_id";
  do nm <- Json.subscript d "name";
  do ds <- Json.get d "description" (JStr "");
  do mp <- Json.get d "map_id" (JInt 0);
  do x <- Json.get d "x_coord" (JInt 0);
  do y <- Json.get d "y_coord" (JInt 0);
  do om <- Json.as_int om;
  do dm <- Json.as_float dm;
  let rule := RealmTimeRule.mk om dm in
  do rid <- Json.as_str rid;
  do nm <- Json.as_str nm;
  do ds <- Json.as_str ds;
  do mp <- Json.as_int mp;
  do x <- Json.as_int x;
  do y <- Json.as_int y;
  Ok (Realm.mk rid nm ds mp x y rule).

(** [asdict(c)], then [visibility] overwritten by its value and every
    share's permission by its [str]. *)
Definition _campaign_to_dict (c : Campaign.t) : json :=
  JDict [("campaign_id", JStr (Campaign.campaign_id c));
         ("owner_username", JStr (Campaign.owner_username c));
         ("name", JStr (Campaign.name c));
         ("visibility", JStr (Visibility_value (Campaign.visibility c)));
         ("archived", JBool (Campaign.archived c));
         ("quest_event_ids", Json.of_str_list (Campaign.quest_event_ids c));
         ("shares", JList (map share_to_dict (Campaign.shares c)))].

(** One element of the [shares] comprehension of both decoders. *)
Definition dict_to_share (s : json) : res Share.t :=
  do u <- Json.subscript s "shared_with_user";
  do p <- Json.subscript s "permission";
  do p <- PermissionLevel_of p;
  do u <- Json.as_str u;
  Ok (Share.mk u p).

Definition _dict_to_campaign (d : json) : res Campaign.t :=
  do sh <- Json.get d "shares" (JList []);
  do sh <- Json.iter sh;
  do shares <- mapM dict_to_share sh;
  do cid <- Json.subscript d "campaign_id";
  do own <- Json.subscript d "owner_username";
  do nm <- Json.subscript d "name";
  do vis <- Json.get d "visibility" (JStr "PRIVATE");
  do vis <- Visibility_of vis;
  do ar <- Json.get d "archived" (JBool false);
  do qs <- Json.get d "quest_event_ids" (JList []);
  do cid <- Json.as_str cid;
  do own <- Json.as_str own;
  do nm <- Json.as_str nm;
  do qs <- Json.as_str_list qs;
  Ok (Campaign.mk cid own nm vis (Json.truthy_json ar) qs shares).

Definition change_to_dict (chg : InventoryChange.t) : json :=
  JDict [("item", item_asdict (InventoryChange.item chg));
         ("delta_qty", JInt (InventoryChange.delta_qty chg));
         ("target_char_id", Json.of_opt_str (InventoryChange.target_char_id chg))].

Definition _event_to_dict (e : QuestEvent.t) : json :=
  JDict [("event_id", JStr (QuestEvent.event_id e));
         ("name", JStr (QuestEvent.name e));
         ("start_time", time_asdict (QuestEvent.start_time e));
         ("end_time",
          match QuestEvent.end_time e with
          | Some w => time_asdict w
          | None => JNull
          end);
         ("realm_id", JStr (QuestEvent.realm_id e));
         ("participant_char_ids", Json.of_str_list (QuestEvent.participant_char_ids e));
         ("shares", JList (map share_to_dict (QuestEvent.shares e)));
         ("inventory_changes", JList (map change_to_dict (QuestEvent.inventory_changes e)))].

(** [WorldClockTime(st["day"], st["hour"], st["minute"])]. *)
Definition dict_to_time (st : json) : res WorldClockTime.t :=
  do d <- Json.subscript st "day";
  do h <- Json.subscript st "hour";
  do m <- Json.subscript st "minute";
  do d <- Json.as_int d;
  do h <- Json.as_int h;
  do m <- Json.as_int m;
  WorldClockTime.construct d h m.

(** [InventoryItem] called with [itemd] unpacked as keyword arguments:
    [name] is required, the other three fields
    have defaults, any other keyword is a [TypeError]. *)
Definition item_field (k : string) : bool :=
  ((k =? "name") || (k =? "description") || (k =? "type") || (k =? "rarity"))%string.

Definition dict_to_item (itemd : json) : res InventoryItem.t :=
  match itemd with
  | JDict kv =>
      if negb (forallb (fun p => item_field (fst p)) kv) then Raise TypeError
      else
        match dict_get "name" kv with
        | None => Raise TypeError
        | Some nm =>
            do nm <- Json.as_str nm;
            do ds <- Json.get itemd "description" (JStr "");
            do ds <- Json.as_str ds;
            do tp <- Json.get itemd "type" (JStr "misc");
            do tp <- Json.as_str tp;
            do ra <- Json.get itemd "rarity" (JInt 0);
            do ra <- Json.as_int ra;
            Ok (InventoryItem.mk nm ds tp ra)
        end
  | _ => Raise TypeError
  end.

Definition dict_to_change (chg : json) : res InventoryChange.t :=
  do itemd <- Json.subscript chg "item";
  do item <- dict_to_item itemd;
  do dq <- Json.subscript chg "delta_qty";
  do dq <- Json.to_int dq;
  do tg <- Json.get chg "target_char_id" JNull;
  do tg <- Json.as_opt_str tg;
  Ok (InventoryChange.mk item dq tg).

Definition _dict_to_event (d : json) : res QuestEvent.t :=
  do st <- Json.subscript d "start_time";
  do et <- Json.get d "end_time" JNull;
  do start_time <- dict_to_time st;
  do end_time <-
    (if Json.truthy_json et then do w <- dict_to_time et; Ok (Some w)
     else Ok None);
  do sh <- Json.get d "shares" (JList []);
  do sh <- Json.iter sh;
  do shares <- mapM dict_to_share sh;
  do ic <- Json.get d "inventory_changes" (JList []);
  do ic <- Json.iter ic;
  do inv_changes <- mapM dict_to_change ic;
  do eid <- Json.subscript d "event_id";
  do nm <- Json.subscript d "name";
  do rid <- Json.subscript d "realm_id";
  do ps <- Json.get d "participant_char_ids" (JList []);
  do eid <- Json.as_str eid;
  do nm <- Json.as_str nm;
  do rid <- Json.as_str rid;
  do ps <- Json.as_str_list ps;
  Ok (QuestEvent.mk eid nm start_time end_time rid ps shares inv_changes).

Definition _character_to_dict (c : Character.t) : json :=
  JDict [("char_id", JStr (Character.char_id c));
         ("name", JStr (Character.name c));
         ("class_name", JStr (Character.class_name c));
         ("level", JInt (Character.level c));
         ("inventory", JList (map item_asdict (Character.inventory c)))].

Definition _dict_to_character (d : json) : res Character.t :=
  do iv <- Json.get d "inventory" (JList []);
  do iv <- Json.iter iv;
  do inv <- mapM dict_to_item iv;
  do cid <- Json.subscript d "char_id";
  do nm <- Json.subscript d "name";
  do cl <- Json.subscript d "class_name";
  do lv <- Json.get d "level" (JInt 1);
  do lv <- Json.to_int lv;
  do cid <- Json.as_str cid;
  do nm <- Json.as_str nm;
  do cl <- Json.as_str cl;
  Ok (Character.mk cid nm cl lv inv).

(** [asdict(user)] as [json.dump] writes it: the [time_display] member
    goes out as its value. *)
Definition user_asdict (u : User.t) : json :=
  JDict [("username", JStr (User.username u));
         ("settings",
          JDict [("current_realm_id",
                  JStr (Settings.current_realm_id (User.settings u)));
                 ("theme", JStr (Settings.theme (User.settings u)));
                 ("time_display",
                  JStr (TimeDisplayPreference_value
                          (Settings.time_display (User.settings u))))]);
         ("campaign_ids", Json.of_str_list (User.campaign_ids u));
         ("character_ids", Json.of_str_list (User.character_ids u))].

(** The body of the [users] loop of [load]. *)
Definition dict_to_user (username : string) (ud : json) : res User.t :=
  do st <- Json.subscript ud "settings";
  do cr <- Json.subscript st "current_realm_id";
  do st <- Json.subscript ud "settings";
  do th <- Json.get st "theme" (JStr "classic");
  do st <- Json.subscript ud "settings";
  do td <- Json.get st "time_display" (JStr "WORLD");
  do td <- TimeDisplayPreference_of td;
  do cs <- Json.get ud "campaign_ids" (JList []);
  do chs <- Json.get ud "character_ids" (JList []);
  do cr <- Json.as_str cr;
  do th <- Json.as_str th;
  let settings := Settings.mk cr th td in
  do cs <- Json.as_str_list cs;
  do chs <- Json.as_str_list chs;
  Ok (User.mk username settings cs chs).

(** *** Persistence *)

(** A dict comprehension [{k: f(d) for k, d in items}]: values are
    computed in order and the first exception ends it. *)
Fixpoint dict_comp {V : Type} (f : json -> res V) (items : list (string * json))
    (acc : dict V) : res (dict V) :=
  match items with
  | [] => Ok acc
  | (k, d) :: rest => do v <- f d; dict_comp f rest (dict_set k v acc)
  end.

Definition dict_to_json {V : Type} (f : V -> json) (d : dict V) : json :=
  JDict (map (fun p => (fst p, f (snd p))) d).

(** The [payload] that [save] hands to [json.dump]. *)
Definition save_payload (self : t) : json :=
  JDict [("id_counters", dict_to_json JInt (_id_counters self));
         ("current_user", Json.of_opt_str (current_user self));
         ("users", dict_to_json user_asdict (users self));
         ("realms", dict_to_json _realm_to_dict (realms self));
         ("campaigns", dict_to_json _campaign_to_dict (campaigns self));
         ("events", dict_to_json _event_to_dict (events self));
         ("characters", dict_to_json _character_to_dict (characters self))].

(** What [open] and [json.load] make of the path: no such file, a file
    whose text is not a JSON document, or the parsed document. *)
Inductive file_read : Type :=
| NoSuchFile
| NotJson
| Parsed (payload : json).

(** How [load] ends: it returns after loading, it returns after reporting
    that there is no file, or an exception leaves it. *)
Inductive load_outcome : Type :=
| Loaded
| NotFound
| Raised (e : exn).

Definition set_id_counters (self : t) (c : dict Z) : t :=
  mk (users self) (realms self) (campaigns self) (events self)
     (characters self) c (current_user self).

Definition set_current_user (self : t) (u : option string) : t :=
  mk (users self) (realms self) (campaigns self) (events self)
     (characters self) (_id_counters self) u.

Definition set_users (self : t) (us : dict User.t) : t :=
  mk us (realms self) (campaigns self) (events self)
     (characters self) (_id_counters self) (current_user self).

Definition set_realms (self : t) (rs : dict Realm.t) : t :=
  mk (users self) rs (campaigns self) (events self)
     (characters self) (_id_counters self) (current_user self).

Definition set_campaigns (self : t) (cs : dict Campaign.t) : t :=
  mk (users self) (realms self) cs (events self)
     (characters self) (_id_counters self) (current_user self).

Definition set_events (self : t) (es : dict QuestEvent.t) : t :=
  mk (users self) (realms self) (campaigns self) es
     (characters self) (_id_counters self) (current_user self).

(** One statement of [load] that can raise: [self] is the store as the
    statements before it left it. *)
Definition stage {A : Type} (self : t) (r : res A)
    (k : A -> t * load_outcome) : t * load_outcome :=
  match r with
  | Ok a => k a
  | Raise e => (self, Raised e)
  end.

(** [payload.get("id_counters", self._id_counters)]. *)
Definition counters_of (self : t) (payload : json) : res (dict Z) :=
  match payload with
  | JDict kv =>
      match dict_get "id_counters" kv with
      | Some j => Json.as_int_dict j
      | None => Ok (_id_counters self)
      end
  | _ => Raise AttributeError
  end.

(** The [users] loop: each user is stored as soon as it is built. *)
Fixpoint load_users (items : list (string * json)) (us : dict User.t)
  : dict User.t * option exn :=
  match items with
  | [] => (us, None)
  | (username, ud) :: rest =>
      match dict_to_user username ud with
      | Ok u => load_users rest (dict_set username u us)
      | Raise e => (us, Some e)
      end
  end.

(** [payload.get(key, {}).items()] fed to a dict comprehension. *)
Definition load_section {V : Type} (payload : json) (key : string)
    (f : json -> res V) : res (dict V) :=
  do sec <- Json.get payload key (JDict []);
  do its <- Json.items sec;
  dict_comp f its [].

(** [if self.current_user and self.current_user not in self.users:
       self.current_user = None]. *)
Definition reset_dangling_user (self : t) : t :=
  match current_user self with
  | Some u =>
      if truthy u && negb (dict_has u (users self))
      then set_current_user self None
      else self
  | None => self
  end.



(** [load] on the typed store.  Where the document holds a value of a type
    the annotations exclude, Python stores it and goes on; the typed store
    cannot hold it, and the model stops there with [Raised IllTyped],
    which stands for no Python exception. *)
Definition load (self : t) (f : file_read) : t * load_outcome :=
  match f with
  | NoSuchFile => (self, NotFound)
  | NotJson => (self, Raised JSONDecodeError)
  | Parsed payload =>
      stage self (counters_of self payload) (fun ctr =>
      let s1 := set_id_counters self ctr in
      stage s1 (do cu <- Json.get payload "current_user" JNull; Json.as_opt_str cu)
        (fun cu =>
      let s2 := set_users (set_current_user s1 cu) [] in
      stage s2 (do sec <- Json.get payload "users" (JDict []); Json.items sec)
        (fun uitems =>
      match load_users uitems [] with
      | (us, Some e) => (set_users s2 us, Raised e)
      | (us, None) =>
          let s3 := set_users s2 us in
          stage s3 (load_section payload "realms" _dict_to_realm) (fun rs =>
          let s4 := set_realms s3 rs in
          stage s4 (load_section payload "campaigns" _dict_to_campaign) (fun cs =>
          let s5 := set_campaigns s4 cs in
          stage s5 (load_section payload "events" _dict_to_event) (fun es =>
          let s6 := set_events s5 es in
          stage s6 (load_section payload "characters" _dict_to_character) (fun chs =>
          let s7 := set_characters s6 chs in
          (reset_dangling_user s7, Loaded)))))
      end)))
  end.



(** *** Identifiers, users and sessions

    The interactive methods take what they read from the terminal as
    arguments: a string argument is the value of [input(...).strip()], an
    integer one the value [_safe_int] returns, a [choice] the number typed
    at a [_pick_from_list] menu.  What they print is left out. *)

(** [_new_id(kind, prefix)]: the store with the counter advanced, and the
    identifier. *)
Definition _new_id (self : t) (kind prefix : string) : t * string :=
  let n := match dict_get kind (_id_counters self) with
           | Some n => n
           | None => 1
           end in
  (set_id_counters self (dict_set kind (n + 1) (_id_counters self)),
   (prefix ++ WorldClockTime.dec n)%string).

Definition ensure_default_realm (self : t) : t :=
  match realms self with
  | _ :: _ => self
  | [] =>
      let (s, rid) := _new_id self "realm" "R" in
      set_realms s
        (dict_set rid
           (Realm.mk rid "Earth" "Default realm" 1 0 0
                     (RealmTimeRule.mk 0 RealmTimeRule.one))
           (realms s))
  end.

(** [None] is the [StopIteration] of [next(iter(self.realms.keys()))] on an
    empty dict. *)
Definition create_user (self : t) (username : string) : option t :=
  if negb (truthy username) then Some self
  else if dict_has username (users self) then Some self
  else
    let s := ensure_default_realm self in
    match realms s with
    | [] => None
    | (default_realm_id, _) :: _ =>
        let settings := Settings.mk default_realm_id "classic" WORLD in
        Some (set_current_user
                (set_users s (dict_set username (User.mk username settings [] [])
                                       (users s)))
                (Some username))
    end.

(** [None] is an [IndexError] out of [_pick_from_list]. *)
Definition login (self : t) (choice : Z) : option t :=
  match users self with
  | [] => Some self
  | _ =>
      let items := map (fun p => (fst p, fst p)) (users self) in
      match _pick_from_list items choice with
      | None => None
      | Some None => Some self
      | Some (Some chosen) =>
          if truthy chosen then Some (set_current_user self (Some chosen))
          else Some self
      end
  end.

Definition require_login (self : t) : option User.t :=
  match current_user self with
  | None => None
  | Some u => if truthy u then dict_get u (users self) else None
  end.

(** The store after the logged-in user's object was mutated: the object is
    the one [self.users] holds under [current_user]. *)
Definition update_current_user (self : t) (u : User.t) : t :=
  match current_user self with
  | Some k => set_users self (dict_set k u (users self))
  | None => self
  end.

Definition create_realm (self : t) (name desc : string) (map_id x y offset : Z) : t :=
  let (s, rid) := _new_id self "realm" "R" in
  set_realms s
    (dict_set rid
       (Realm.mk rid (str_or name ("Realm" ++ rid)%string) desc map_id x y
                 (RealmTimeRule.mk offset RealmTimeRule.one))
       (realms s)).

Definition create_character (self : t) (name cls : string) (level : Z) : t :=
  match require_login self with
  | None => self
  | Some user =>
      let (s, cid) := _new_id self "char" "C" in
      let ch := Character.mk cid (str_or name cid) (str_or cls "Adventurer") level [] in
      let s := set_characters s (dict_set cid ch (characters s)) in
      update_current_user s
        (User.set_character_ids user (User.character_ids user ++ [cid]))
  end.

Definition create_campaign (self : t) (name : string) : t :=
  match require_login self with
  | None => self
  | Some user =>
      let (s, cid) := _new_id self "campaign" "P" in
      let camp := Campaign.mk cid (User.username user) (str_or name cid)
                              PRIVATE false [] [] in
      let s := set_campaigns s (dict_set cid camp (campaigns s)) in
      update_current_user s
        (User.set_campaign_ids user (User.campaign_ids user ++ [cid]))
  end.

(** *** Campaign listings and sharing *)

(** The [visible] list of [list_visible_campaigns], which is also the ids
    offered by [_pick_campaign_i_can_view]. *)
Definition visible_campaigns (self : t) (username : string)
  : list (string * Campaign.t) :=
  filter (fun p => Campaign.can_view (snd p) username) (campaigns self).

(** The ids offered by [_pick_campaign_i_can_edit]. *)
Definition editable_campaigns (self : t) (username : string)
  : list (string * Campaign.t) :=
  filter (fun p => Campaign.can_edit (snd p) username) (campaigns self).

(** [PermissionLevel[p]] behind [p in PermissionLevel.__members__]: lookup
    by member name. *)
Definition PermissionLevel_member (p : string) : option PermissionLevel :=
  if (p =? "VIEW_ONLY")%string then Some VIEW_ONLY
  else if (p =? "COLLABORATIVE")%string then Some COLLABORATIVE
  else None.

(** [_share_campaign]: [p] is the permission typed, stripped and
    upper-cased.  Returns the campaign object after the call. *)
Definition _share_campaign (self : t) (camp : Campaign.t) (to_user p : string)
  : Campaign.t :=
  match users self with
  | [] => camp
  | _ =>
      if negb (dict_has to_user (users self)) then camp
      else match PermissionLevel_member p with
           | None => camp
           | Some level => Campaign.share_with camp to_user level
           end
  end.

Definition _share_event (self : t) (e : QuestEvent.t) (to_user p : string)
  : QuestEvent.t :=
  if negb (dict_has to_user (users self)) then e
  else match PermissionLevel_member p with
       | None => e
       | Some level => QuestEvent.share_with e to_user level
       end.

(** The [found] list of [list_events_shared_with_me] for a username. *)
Definition events_shared_with (self : t) (username : string)
  : list (QuestEvent.t * PermissionLevel) :=
  flat_map
    (fun p =>
       map (fun s => (snd p, Share.permission s))
           (filter (fun s => (Share.shared_with_user s =? username)%string)
                   (QuestEvent.shares (snd p))))
    (events self).

(** *** Events of a campaign *)

(** [add_event_to_campaign] up to the two editors it ends with: [camp] is
    the campaign object, [start] and [end_] the parsed times, [choice] the
    number typed at the realm menu.  [None] is an [IndexError]. *)
Definition add_event_to_campaign (self : t) (camp : Campaign.t) (name : string)
    (start : WorldClockTime.t) (end_ : option WorldClockTime.t) (choice : Z)
  : option (t * Campaign.t) :=
  let (s, eid) := _new_id self "event" "E" in
  let name := str_or name eid in
  let items :=
    map (fun p =>
           (Realm.realm_id (snd p),
            (Realm.realm_id (snd p) ++ " " ++ Realm.name (snd p) ++ " (offset "
             ++ WorldClockTime.dec (RealmTimeRule.offset_minutes
                                      (Realm.time_rule (snd p))) ++ "m)")%string))
        (realms s) in
  match _pick_from_list items choice with
  | None => None
  | Some None => Some (s, camp)
  | Some (Some rid) =>
      if negb (truthy rid) then Some (s, camp)
      else
        let e := QuestEvent.mk eid name start end_ rid [] [] [] in
        Some (set_events s (dict_set eid e (events s)),
              Campaign.set_quest_event_ids camp
                (Campaign.quest_event_ids camp ++ [eid]))
  end.

(** The ids offered by the event menus of a campaign. *)
Definition event_menu (self : t) (camp : Campaign.t) : list (string * string) :=
  flat_map
    (fun eid =>
       match dict_get eid (events self) with
       | Some e => [(eid, (eid ++ " " ++ QuestEvent.name e)%string)]
       | None => []
       end)
    (Campaign.quest_event_ids camp).

(** [None] is an exception: [IndexError] from the menu or [ValueError]
    from [list.remove]. *)
Definition remove_event_from_campaign (self : t) (camp : Campaign.t) (choice : Z)
  : option (t * Campaign.t) :=
  match _pick_from_list (event_menu self camp) choice with
  | None => None
  | Some None => Some (self, camp)
  | Some (Some eid) =>
      if negb (truthy eid) then Some (self, camp)
      else
        match str_remove eid (Campaign.quest_event_ids camp) with
        | None => None
        | Some ids =>
            let camp := Campaign.set_quest_event_ids camp ids in
            if dict_has eid (events self)
            then Some (set_events self (dict_del eid (events self)), camp)
            else Some (self, camp)
        end
  end.

(** Option 1 of [_edit_event_participants]: the menu lists the user's
    characters that the store holds. *)
Definition add_participant (self : t) (user : User.t) (e : QuestEvent.t)
    (choice : Z) : option QuestEvent.t :=
  let items :=
    flat_map
      (fun cid =>
         match dict_get cid (characters self) with
         | Some ch => [(cid, (cid ++ " " ++ Character.name ch)%string)]
         | None => []
         end)
      (User.character_ids user) in
  match _pick_from_list items choice with
  | None => None
  | Some None => Some e
  | Some (Some cid) =>
      if truthy cid && negb (str_in cid (QuestEvent.participant_char_ids e))
      then Some (QuestEvent.set_participants e
                   (QuestEvent.participant_char_ids e ++ [cid]))
      else Some e
  end.

(** Option 2 of [_edit_event_participants]. *)
Definition remove_participant (e : QuestEvent.t) (choice : Z)
  : option QuestEvent.t :=
  let items := map (fun cid => (cid, cid)) (QuestEvent.participant_char_ids e) in
  match _pick_from_list items choice with
  | None => None
  | Some None => Some e
  | Some (Some cid) =>
      if truthy cid && str_in cid (QuestEvent.participant_char_ids e)
      then option_map (QuestEvent.set_participants e)
             (str_remove cid (QuestEvent.participant_char_ids e))
      else Some e
  end.

End GuildQuestApp.

(** * Reference definitions

    The vocabulary of the statements below: what the specification calls
    the renormalized time, the level bound to a user, a sequence of share
    calls, and so on.  None of it is used by the embedding above. *)

Module Spec.

(** The time with a given total minute count: floor division by 1440 for
    the day, by 60 on the remainder for the hour. *)
Definition renormalized (total : Z) : WorldClockTime.t :=
  WorldClockTime.mk (total / 1440) (total mod 1440 / 60) (total mod 1440 mod 60).

(** The usernames in a share list, in order. *)
Definition users_of (l : list Share.t) : list string :=
  map Share.shared_with_user l.

(** The shares of one user. *)
Definition shares_of (u : string) (l : list Share.t) : list Share.t :=
  filter (fun s => (Share.shared_with_user s =? u)%string) l.

(** The level bound to [u] in a share list, if any. *)
Definition bound_level (u : string) (l : list Share.t) : option PermissionLevel :=
  option_map Share.permission
    (find (fun s => (Share.shared_with_user s =? u)%string) l).

(** The four-step precedence of the resolver, first match winning. *)
Definition resolve (c : Campaign.t) (u : string) : option PermissionLevel :=
  if (u =? Campaign.owner_username c)%string then Some COLLABORATIVE
  else match Campaign.visibility c with
       | PUBLIC => Some VIEW_ONLY
       | PRIVATE => bound_level u (Campaign.shares c)
       end.

(** A call of one of the two sharing methods of a campaign. *)
Inductive share_op : Type :=
| ShareWith (u : string) (p : PermissionLevel)
| UnshareWith (u : string).

Definition run_op (c : Campaign.t) (op : share_op) : Campaign.t :=
  match op with
  | ShareWith u p => Campaign.share_with c u p
  | UnshareWith u => Campaign.unshare_with c u
  end.

Definition run_ops (c : Campaign.t) (ops : list share_op) : Campaign.t :=
  fold_left run_op ops c.

(** The share-list invariant of a campaign: at most one share per
    username, and none for the owner. *)
Definition shares_wf (c : Campaign.t) : Prop :=
  NoDup (users_of (Campaign.shares c))
  /\ ~ In (Campaign.owner_username c) (users_of (Campaign.shares c)).

(** The length in minutes of a range kind. *)
Definition range_length (k : TimeRangeType) : Z :=
  match k with
  | DAY => 1440
  | WEEK => 7 * 1440
  | MONTH => 30 * 1440
  | YEAR => 365 * 1440
  end.

(** The events of a campaign: its [quest_event_ids], in order, that the
    event store resolves. *)
Fixpoint campaign_events (evs : dict QuestEvent.t) (ids : list string)
  : list QuestEvent.t :=
  match ids with
  | [] => []
  | i :: rest =>
      match dict_get i evs with
      | Some e => e :: campaign_events evs rest
      | None => campaign_events evs rest
      end
  end.

(** Half-open window membership on the start time. *)
Definition in_window (lo hi : Z) (e : QuestEvent.t) : bool :=
  (lo <=? GuildQuestApp.start_key e) && (GuildQuestApp.start_key e <? hi).

Definition by_start (a b : QuestEvent.t) : Prop :=
  GuildQuestApp.start_key a <= GuildQuestApp.start_key b.

(** An event with another end time, and a store whose events got other
    end times. *)
Definition with_end_time (g : QuestEvent.t -> option WorldClockTime.t)
    (e : QuestEvent.t) : QuestEvent.t :=
  QuestEvent.mk (QuestEvent.event_id e) (QuestEvent.name e)
    (QuestEvent.start_time e) (g e) (QuestEvent.realm_id e)
    (QuestEvent.participant_char_ids e) (QuestEvent.shares e)
    (QuestEvent.inventory_changes e).

Definition with_end_times (g : QuestEvent.t -> option WorldClockTime.t)
    (self : GuildQuestApp.t) : GuildQuestApp.t :=
  GuildQuestApp.set_events self
    (map (fun p => (fst p, with_end_time g (snd p))) (GuildQuestApp.events self)).

(** The line the timeline prints for an event under a display
    preference when local time is the world-time string and the realm is
    named by its id. *)
Definition degraded_line (pref : TimeDisplayPreference) (e : QuestEvent.t) : string :=
  let w := GuildQuestApp.world_str e in
  let t :=
    match pref with
    | WORLD => w
    | LOCAL => (w ++ " (" ++ QuestEvent.realm_id e ++ ")")%string
    | BOTH => (w ++ " | " ++ w ++ " (" ++ QuestEvent.realm_id e ++ ")")%string
    end in
  ("- " ++ QuestEvent.event_id e ++ ": " ++ QuestEvent.name e ++ " @ " ++ t)%string.

(** [inv] without its first [n] items named [nm] (all of them when there
    are fewer). *)
Fixpoint remove_first_named (nm : string) (n : nat) (inv : list InventoryItem.t)
  : list InventoryItem.t :=
  match inv with
  | [] => []
  | it :: rest =>
      if (InventoryItem.name it =? nm)%string then
        match n with
        | O => it :: rest
        | S n' => remove_first_named nm n' rest
        end
      else it :: remove_first_named nm n rest
  end.

Definition count_named (nm : string) (inv : list InventoryItem.t) : nat :=
  List.length (filter (fun it => (InventoryItem.name it =? nm)%string) inv).

(** What one change does to one inventory. *)
Definition change_inventory (chg : InventoryChange.t) (inv : list InventoryItem.t)
  : list InventoryItem.t :=
  let d := InventoryChange.delta_qty chg in
  if 0 <? d then inv ++ repeat (InventoryChange.item chg) (Z.to_nat d)
  else if d <? 0 then
    remove_first_named (InventoryItem.name (InventoryChange.item chg))
                       (Z.to_nat (- d)) inv
  else inv.

(** What one change does to the character stored under [cid]; an unknown
    id is skipped. *)
Definition change_target (chg : InventoryChange.t) (cs : dict Character.t)
    (cid : string) : dict Character.t :=
  match dict_get cid cs with
  | Some ch =>
      dict_set cid
        (Character.set_inventory ch (change_inventory chg (Character.inventory ch)))
        cs
  | None => cs
  end.

(** Targets as the specification words them: the singleton whenever the
    field is present. *)
Definition present_targets (e : QuestEvent.t) (chg : InventoryChange.t)
  : list string :=
  match InventoryChange.target_char_id chg with
  | Some cid => [cid]
  | None => QuestEvent.participant_char_ids e
  end.

(** Targets with a blank id counted as absent. *)
Definition named_targets (e : QuestEvent.t) (chg : InventoryChange.t)
  : list string :=
  match InventoryChange.target_char_id chg with
  | Some cid =>
      if (cid =? "")%string then QuestEvent.participant_char_ids e else [cid]
  | None => QuestEvent.participant_char_ids e
  end.

(** All changes of an event, in order, each over its targets in order. *)
Definition changes_applied
    (targets : QuestEvent.t -> InventoryChange.t -> list string)
    (e : QuestEvent.t) (cs : dict Character.t) : dict Character.t :=
  fold_left (fun cs chg => fold_left (change_target chg) (targets e chg) cs)
            (QuestEvent.inventory_changes e) cs.

(** The keys of a dict, in order. *)
Definition keys {V : Type} (d : dict V) : list string := map fst d.

(** A store as the application builds it, before anything is shared:
    dicts have unique keys, a user is stored under its username, times
    are within bounds, share lists are empty, and the current user is
    none, blank or a stored user. *)
Definition unshared_wf (self : GuildQuestApp.t) : Prop :=
  NoDup (keys (GuildQuestApp.users self))
  /\ NoDup (keys (GuildQuestApp.realms self))
  /\ NoDup (keys (GuildQuestApp.campaigns self))
  /\ NoDup (keys (GuildQuestApp.events self))
  /\ NoDup (keys (GuildQuestApp.characters self))
  /\ (forall k u, In (k, u) (GuildQuestApp.users self) -> User.username u = k)
  /\ (forall k c, In (k, c) (GuildQuestApp.campaigns self) -> Campaign.shares c = [])
  /\ (forall k e, In (k, e) (GuildQuestApp.events self) ->
        QuestEvent.shares e = []
        /\ WorldClockTime.valid (QuestEvent.start_time e)
        /\ forall w, QuestEvent.end_time e = Some w -> WorldClockTime.valid w)
  /\ (forall u, GuildQuestApp.current_user self = Some u ->
        u = "" \/ dict_has u (GuildQuestApp.users self) = true).

(** The current user a store gets from the value a document records,
    once its users are loaded. *)
Definition current_user_from (cu : option string) (users : dict User.t)
  : option string :=
  match cu with
  | Some u => if truthy u && negb (dict_has u users) then None else Some u
  | None => None
  end.

(** The store [self'] holds what the document [JDict kv] holds: the users
    the users loop builds from its [users] entry, the four sections
    decoded from their entries, the id counters it records (those of
    [self] when it records none), and the current user it records, reset
    when it names no loaded user. *)
Definition loaded_from (self : GuildQuestApp.t) (kv : list (string * json))
    (self' : GuildQuestApp.t) : Prop :=
  (exists items,
      (do sec <- Json.get (JDict kv) "users" (JDict []); Json.items sec) = Ok items
      /\ GuildQuestApp.load_users items [] = (GuildQuestApp.users self', None))
  /\ GuildQuestApp.load_section (JDict kv) "realms" GuildQuestApp._dict_to_realm
     = Ok (GuildQuestApp.realms self')
  /\ GuildQuestApp.load_section (JDict kv) "campaigns" GuildQuestApp._dict_to_campaign
     = Ok (GuildQuestApp.campaigns self')
  /\ GuildQuestApp.load_section (JDict kv) "events" GuildQuestApp._dict_to_event
     = Ok (GuildQuestApp.events self')
  /\ GuildQuestApp.load_section (JDict kv) "characters" GuildQuestApp._dict_to_character
     = Ok (GuildQuestApp.characters self')
  /\ (forall j, dict_get "id_counters" kv = Some j ->
        Json.as_int_dict j = Ok (GuildQuestApp._id_counters self'))
  /\ (dict_get "id_counters" kv = None ->
      GuildQuestApp._id_counters self' = GuildQuestApp._id_counters self)
  /\ (exists cu,
        (do j <- Json.get (JDict kv) "current_user" JNull; Json.as_opt_str j) = Ok cu
        /\ GuildQuestApp.current_user self'
           = current_user_from cu (GuildQuestApp.users self')).

(** A time object whose three fields are the integers [d], [h], [m]. *)
Definition int_time (j : json) (d h m : Z) : Prop :=
  exists kv,
    j = JDict kv
    /\ dict_get "day" kv = Some (JInt d)
    /\ dict_get "hour" kv = Some (JInt h)
    /\ dict_get "minute" kv = Some (JInt m).

Definition out_of_range (d h m : Z) : Prop :=
  d < 0 \/ h < 0 \/ 23 < h \/ m < 0 \/ 59 < m.

(** An event record with an integer time out of range: its start, or its
    end after a start within range. *)
Definition bad_times (rec : list (string * json)) : Prop :=
  exists st d h m,
    dict_get "start_time" rec = Some st /\ int_time st d h m
    /\ (out_of_range d h m
        \/ exists et d' h' m',
             dict_get "end_time" rec = Some et /\ int_time et d' h' m'
             /\ out_of_range d' h' m').


(** The same, or the empty string, which the code treats as no user. *)
Definition current_user_known_or_blank (self : GuildQuestApp.t) : Prop :=
  GuildQuestApp.current_user self = None
  \/ GuildQuestApp.current_user self = Some ""
  \/ exists u, GuildQuestApp.current_user self = Some u
               /\ dict_has u (GuildQuestApp.users self) = true.

(** The users a share list names all exist. *)
Definition shares_known (self : GuildQuestApp.t) (l : list Share.t) : Prop :=
  forall u, In u (users_of l) -> dict_has u (GuildQuestApp.users self) = true.

(** Allocating identifiers for a list of kinds, in order; [pf] gives the
    prefix the code uses for a kind.  Returns the store and the pairs of
    kind and identifier. *)
Fixpoint allocate (pf : string -> string) (self : GuildQuestApp.t)
    (kinds : list string) : GuildQuestApp.t * list (string * string) :=
  match kinds with
  | [] => (self, [])
  | k :: rest =>
      let (s, id) := GuildQuestApp._new_id self k (pf k) in
      let (s', ids) := allocate pf s rest in
      (s', (k, id) :: ids)
  end.

(** The next number of a kind. *)
Definition counter (self : GuildQuestApp.t) (kind : string) : Z :=
  match dict_get kind (GuildQuestApp._id_counters self) with
  | Some n => n
  | None => 1
  end.

(** The identifiers of one kind in an allocation. *)
Definition ids_of_kind (k : string) (l : list (string * string)) : list string :=
  map snd (filter (fun p => (fst p =? k)%string) l).

(** A characters dict with every inventory emptied: what is left is the
    keys, their order, and every other field of every character. *)
Definition blank_inventories (cs : dict Character.t) : dict Character.t :=
  map (fun p => (fst p, Character.set_inventory (snd p) [])) cs.

(** The items of an inventory that are not named [nm], in order. *)
Definition others (nm : string) (inv : list InventoryItem.t) : list InventoryItem.t :=
  filter (fun it => negb (InventoryItem.name it =? nm)%string) inv.

End Spec.

(** * Sample data *)

Module Samples.

Definition timeline_sample_store : GuildQuestApp.t :=
  GuildQuestApp.mk [] [] []
     [("E1", QuestEvent.mk "E1" "late" (WorldClockTime.mk 5 23 59) None "R9" [] [] []);
      ("E2", QuestEvent.mk "E2" "next" (WorldClockTime.mk 6 0 0) None "R9" [] [] []);
      ("E3", QuestEvent.mk "E3" "dawn" (WorldClockTime.mk 5 6 30)
                           (Some (WorldClockTime.mk 7 0 0)) "R9" [] [] [])]
     [] [] None.

Definition timeline_sample_campaign : Campaign.t :=
  Campaign.mk "P1" "alice" "Crypt" PRIVATE false ["E1"; "E2"; "E3"; "E4"] [].

Definition potion : InventoryItem.t := InventoryItem.mk "potion" "heals" "misc" 1.
Definition potion' : InventoryItem.t := InventoryItem.mk "potion" "old" "misc" 0.
Definition sword : InventoryItem.t := InventoryItem.mk "sword" "" "weapon" 3.

Definition inventory_sample_store : GuildQuestApp.t :=
  GuildQuestApp.mk [] [] [] []
    [("C1", Character.mk "C1" "Ayla" "Mage" 2 [potion; sword; potion']);
     ("C2", Character.mk "C2" "Bram" "Rogue" 1 [])]
    [] None.

(** Takes three potions from C1, then grants two swords to every
    participant; C7 is not in the store. *)
Definition inventory_sample_event : QuestEvent.t :=
  QuestEvent.mk "E1" "raid" (WorldClockTime.mk 0 0 0) None "R1"
    ["C1"; "C7"; "C2"] []
    [InventoryChange.mk potion (-3) (Some "C1");
     InventoryChange.mk sword 2 None].

(** One participant, and a change whose target id is the empty string. *)
Definition blank_target_store : GuildQuestApp.t :=
  GuildQuestApp.mk [] [] [] []
    [("C1", Character.mk "C1" "Ayla" "Mage" 2 [])] [] None.

Definition blank_target_event : QuestEvent.t :=
  QuestEvent.mk "E1" "raid" (WorldClockTime.mk 0 0 0) None "R1"
    ["C1"] [] [InventoryChange.mk sword 1 (Some "")].

(** A campaign shared with one user. *)
Definition shared_campaign : Campaign.t :=
  Campaign.mk "P1" "alice" "Crypt" PUBLIC false ["E1"]
    [Share.mk "bob" VIEW_ONLY].

Definition default_counters : dict Z :=
  [("realm", 1); ("campaign", 1); ("event", 1); ("char", 1)].

(** The store of a new [GuildQuestApp]. *)
Definition new_store : GuildQuestApp.t :=
  GuildQuestApp.mk [] [] [] [] [] default_counters None.

Definition alice : User.t :=
  User.mk "alice" (Settings.mk "R1" "classic" WORLD) ["P1"] ["C1"].

Definition bob : User.t :=
  User.mk "bob" (Settings.mk "R1" "dark" BOTH) [] [].

Definition earth : Realm.t :=
  Realm.mk "R1" "Earth" "Default realm" 1 0 0 (RealmTimeRule.mk 0 RealmTimeRule.one).

(** One entity of each kind, an event without end time, no shares. *)
Definition unshared_store : GuildQuestApp.t :=
  GuildQuestApp.mk
    [("alice", alice); ("bob", bob)]
    [("R1", earth)]
    [("P1", Campaign.mk "P1" "alice" "Crypt" PUBLIC false ["E1"] [])]
    [("E1", QuestEvent.mk "E1" "raid" (WorldClockTime.mk 5 23 59) None "R1"
              ["C1"] [] [InventoryChange.mk sword 2 None;
                         InventoryChange.mk potion (-1) (Some "C1")])]
    [("C1", Character.mk "C1" "Ayla" "Mage" 2 [potion; sword])]
    [("realm", 2); ("campaign", 2); ("event", 2); ("char", 2)]
    (Some "alice").

(** The same store after its campaign was shared with bob. *)
Definition shared_store : GuildQuestApp.t :=
  GuildQuestApp.set_campaigns unshared_store [("P1", shared_campaign)].

(** A document whose only user entry has no [settings]. *)
Definition broken_users_payload : json :=
  JDict [("users", JDict [("carol", JDict [])])].



(** A realm one hour behind the world clock, and an event half an hour
    after the start of the world clock in it. *)
Definition early_realm_store : GuildQuestApp.t :=
  GuildQuestApp.mk [] 
    [("R2", Realm.mk "R2" "Underdark" "" 0 0 0 (RealmTimeRule.mk (-60) RealmTimeRule.one))]
    []
    [("E1", QuestEvent.mk "E1" "dawn" (WorldClockTime.mk 0 0 30) None "R2" [] [] []);
     ("E2", QuestEvent.mk "E2" "noon" (WorldClockTime.mk 0 12 0) None "R2" [] [] [])]
    [] [] None.

End Samples.

(** * Properties *)

(** ** Fallible results *)

Lemma mapM_map {A B : Type} (f : A -> res B) (g : A -> B) (l : list A) :
  (forall a, In a l -> f a = Ok (g a)) -> mapM f l = Ok (map g l).
Proof.
  induction l as [|a l IH]; simpl; intros H; [reflexivity|].
  rewrite (H a (or_introl eq_refl)); simpl.
  rewrite IH by (intros; apply H; now right). reflexivity.
Qed.

(** ** Time model *)

Section TimeFacts.

Import WorldClockTime.
Import Spec.

Lemma construct_ok (d h m : Z) :
  0 <= d -> 0 <= h <= 23 -> 0 <= m <= 59 -> construct d h m = Ok (mk d h m).
Proof.
  intros Hd Hh Hm. unfold construct, __post_init__; simpl.
  destruct (Z.ltb_spec d 0); [lia|].
  destruct (Z.leb_spec 0 h); [|lia].
  destruct (Z.leb_spec h 23); [|lia].
  destruct (Z.leb_spec 0 m); [|lia].
  destruct (Z.leb_spec m 59); [|lia].
  reflexivity.
Qed.

Lemma construct_cases (d h m : Z) :
  (construct d h m = Raise ValueError
   /\ (d < 0 \/ h < 0 \/ 23 < h \/ m < 0 \/ 59 < m))
  \/ (construct d h m = Ok (mk d h m)
      /\ 0 <= d /\ 0 <= h <= 23 /\ 0 <= m <= 59).
Proof.
  unfold construct, __post_init__; simpl.
  destruct (Z.ltb_spec d 0); [left; split; [reflexivity|lia]|].
  destruct (Z.leb_spec 0 h); simpl; [|left; split; [reflexivity|lia]].
  destruct (Z.leb_spec h 23); simpl; [|left; split; [reflexivity|lia]].
  destruct (Z.leb_spec 0 m); simpl; [|left; split; [reflexivity|lia]].
  destruct (Z.leb_spec m 59); simpl; [|left; split; [reflexivity|lia]].
  right. split; [reflexivity|lia].
Qed.

Lemma renormalized_valid (total : Z) : 0 <= total -> valid (renormalized total).
Proof.
  intros H. unfold valid, renormalized; simpl.
  Z.div_mod_to_equations. lia.
Qed.

Lemma to_minutes_renormalized (total : Z) : to_minutes (renormalized total) = total.
Proof.
  unfold to_minutes, renormalized; simpl.
  Z.div_mod_to_equations. lia.
Qed.

Lemma plus_minutes_ok (w : t) (delta : Z) :
  0 <= to_minutes w + delta ->
  plus_minutes w delta = Ok (renormalized (to_minutes w + delta)).
Proof.
  intros H. unfold plus_minutes.
  destruct (Z.ltb_spec (to_minutes w + delta) 0); [lia|].
  destruct (renormalized_valid _ H) as (Hd & Hh & Hm).
  apply construct_ok; assumption.
Qed.

Lemma plus_minutes_neg (w : t) (delta : Z) :
  to_minutes w + delta < 0 -> plus_minutes w delta = Raise ValueError.
Proof.
  intros H. unfold plus_minutes.
  destruct (Z.ltb_spec (to_minutes w + delta) 0); [reflexivity|lia].
Qed.

(** C7. Construction raises the validation error exactly when a field is
    out of range (day < 0, hour outside 0..23, minute outside 0..59) and
    otherwise returns the time with those fields; [plus_minutes t delta]
    raises it exactly when [to_minutes t + delta < 0], and otherwise
    returns the valid time whose day is the total divided by 1440 (floor),
    whose hour and minute come from the remainder, and whose [to_minutes]
    is [to_minutes t + delta]. *)
Theorem time_validation_exact :
  (forall d h m,
      construct d h m = Raise ValueError
      <-> (d < 0 \/ h < 0 \/ 23 < h \/ m < 0 \/ 59 < m))
  /\ (forall d h m,
      construct d h m = Ok (mk d h m)
      <-> (0 <= d /\ 0 <= h <= 23 /\ 0 <= m <= 59))
  /\ (forall w delta,
      plus_minutes w delta = Raise ValueError <-> to_minutes w + delta < 0)
  /\ (forall w delta,
      0 <= to_minutes w + delta ->
      exists w',
        plus_minutes w delta = Ok w'
        /\ valid w'
        /\ day w' = (to_minutes w + delta) / 1440
        /\ hour w' = (to_minutes w + delta) mod 1440 / 60
        /\ minute w' = (to_minutes w + delta) mod 1440 mod 60
        /\ to_minutes w' = to_minutes w + delta).
Proof.
  split; [|split; [|split]].
  - intros d h m. split; intros H.
    + destruct (construct_cases d h m) as [[_ Hr]|[He _]];
        [exact Hr | rewrite He in H; discriminate].
    + destruct (construct_cases d h m) as [[He _]|[_ Hr]];
        [exact He | lia].
  - intros d h m. split; intros H.
    + destruct (construct_cases d h m) as [[He _]|[_ Hr]];
        [rewrite He in H; discriminate | exact Hr].
    + destruct H as (Hd & Hh & Hm). apply construct_ok; assumption.
  - intros w delta. split; intros H.
    + destruct (Z.lt_ge_cases (to_minutes w + delta) 0) as [Hn|Hp];
        [exact Hn|]. rewrite (plus_minutes_ok _ _ Hp) in H. discriminate.
    + apply plus_minutes_neg; exact H.
  - intros w delta H. exists (renormalized (to_minutes w + delta)).
    split; [apply plus_minutes_ok; exact H|].
    split; [apply renormalized_valid; exact H|].
    repeat split; try reflexivity. apply to_minutes_renormalized.
Qed.

Lemma time_validation_exact_witness :
  0 <= to_minutes (mk 0 23 30) + 45
  /\ exists w',
      plus_minutes (mk 0 23 30) 45 = Ok w'
      /\ valid w'
      /\ day w' = (to_minutes (mk 0 23 30) + 45) / 1440
      /\ hour w' = (to_minutes (mk 0 23 30) + 45) mod 1440 / 60
      /\ minute w' = (to_minutes (mk 0 23 30) + 45) mod 1440 mod 60
      /\ to_minutes w' = to_minutes (mk 0 23 30) + 45.
Proof.
  split; [vm_compute; discriminate|].
  apply (proj2 (proj2 (proj2 time_validation_exact))).
  vm_compute; discriminate.
Defined.

(** C8. Adding [d1] and then [d2] minutes is adding [d1 + d2] minutes,
    whenever the time after [d1] and the time after [d1 + d2] are not
    negative: all three calls return, and the two routes give the same
    time. *)
Theorem plus_minutes_additive (w : t) (d1 d2 : Z) :
  valid w ->
  0 <= to_minutes w + d1 ->
  0 <= to_minutes w + d1 + d2 ->
  exists w1 w2,
    plus_minutes w d1 = Ok w1
    /\ plus_minutes w1 d2 = Ok w2
    /\ plus_minutes w (d1 + d2) = Ok w2.
Proof.
  intros _ H1 H2.
  exists (renormalized (to_minutes w + d1)),
         (renormalized (to_minutes w + d1 + d2)).
  split; [apply plus_minutes_ok; exact H1|].
  split.
  - rewrite plus_minutes_ok; rewrite to_minutes_renormalized;
      [reflexivity | exact H2].
  - rewrite plus_minutes_ok; rewrite Z.add_assoc; [reflexivity | exact H2].
Qed.

Lemma plus_minutes_additive_witness :
  exists w1 w2,
    plus_minutes (mk 2 10 15) (-200) = Ok w1
    /\ plus_minutes w1 1500 = Ok w2
    /\ plus_minutes (mk 2 10 15) (-200 + 1500) = Ok w2.
Proof.
  apply (plus_minutes_additive (mk 2 10 15) (-200) 1500).
  - unfold valid; simpl; lia.
  - vm_compute; discriminate.
  - vm_compute; discriminate.
Defined.

End TimeFacts.

(** ** Access control *)

Section AccessFacts.

Import Spec.

Lemma lookup_bound_level (u : string) (l : list Share.t) :
  Share.lookup u l = bound_level u l.
Proof.
  unfold bound_level. induction l as [|s l IH]; simpl; [reflexivity|].
  destruct (Share.shared_with_user s =? u)%string; [reflexivity | exact IH].
Qed.

Lemma get_permission_resolve (c : Campaign.t) (u : string) :
  Campaign.get_permission c u = resolve c u.
Proof.
  unfold Campaign.get_permission, resolve.
  destruct (u =? Campaign.owner_username c)%string; [reflexivity|].
  destruct (Campaign.visibility c); [reflexivity | apply lookup_bound_level].
Qed.

(** C2. The permission a campaign resolves for a username is the
    four-step precedence, first match winning: COLLABORATIVE for the
    owner; else VIEW_ONLY on a PUBLIC campaign, whatever the share list
    holds; else the level bound to the user in the share list; else None.
    [can_view] holds iff the result is not None and [can_edit] iff it is
    COLLABORATIVE. *)
Theorem campaign_permission_precedence (c : Campaign.t) (u : string) :
  Campaign.get_permission c u = resolve c u
  /\ (u = Campaign.owner_username c ->
      Campaign.get_permission c u = Some COLLABORATIVE)
  /\ (u <> Campaign.owner_username c -> Campaign.visibility c = PUBLIC ->
      Campaign.get_permission c u = Some VIEW_ONLY
      /\ forall l, Campaign.get_permission (Campaign.set_shares c l) u = Some VIEW_ONLY)
  /\ (u <> Campaign.owner_username c -> Campaign.visibility c = PRIVATE ->
      Campaign.get_permission c u = bound_level u (Campaign.shares c))
  /\ (Campaign.can_view c u = true <-> Campaign.get_permission c u <> None)
  /\ (Campaign.can_edit c u = true <-> Campaign.get_permission c u = Some COLLABORATIVE).
Proof.
  split; [apply get_permission_resolve|].
  split; [|split; [|split; [|split]]].
  - intros ->. unfold Campaign.get_permission. now rewrite String.eqb_refl.
  - intros Hne Hpub. apply String.eqb_neq in Hne.
    split; [|intros l]; unfold Campaign.get_permission; simpl;
      rewrite Hne, Hpub; reflexivity.
  - intros Hne Hpriv. apply String.eqb_neq in Hne.
    unfold Campaign.get_permission. rewrite Hne, Hpriv.
    apply lookup_bound_level.
  - unfold Campaign.can_view.
    destruct (Campaign.get_permission c u); split; congruence.
  - unfold Campaign.can_edit.
    destruct (Campaign.get_permission c u) as [[|]|]; simpl; split; congruence.
Qed.

Lemma campaign_permission_precedence_witness :
  Campaign.get_permission
    (Campaign.mk "P1" "alice" "Crypt" PUBLIC false []
                 [Share.mk "bob" COLLABORATIVE]) "bob"
  = Some VIEW_ONLY.
Proof.
  apply (proj1 (proj2 (proj2 (campaign_permission_precedence
    (Campaign.mk "P1" "alice" "Crypt" PUBLIC false []
                 [Share.mk "bob" COLLABORATIVE]) "bob"))));
    [discriminate | reflexivity].
Defined.

Lemma upsert_users_in (x u : string) (p : PermissionLevel) (l : list Share.t) :
  In x (users_of (Share.upsert u p l)) <-> In x (users_of l) \/ x = u.
Proof.
  induction l as [|s l IH]; simpl.
  - intuition.
  - destruct (String.eqb_spec (Share.shared_with_user s) u) as [E|E]; simpl.
    + intuition congruence.
    + rewrite IH. intuition.
Qed.

Lemma upsert_nodup (u : string) (p : PermissionLevel) (l : list Share.t) :
  NoDup (users_of l) -> NoDup (users_of (Share.upsert u p l)).
Proof.
  induction l as [|s l IH]; simpl; intros H.
  - constructor; [intros []|constructor].
  - inversion H as [|? ? Hnin Hnd]; subst.
    destruct (String.eqb_spec (Share.shared_with_user s) u) as [E|E]; simpl.
    + constructor; assumption.
    + constructor; [|apply IH; exact Hnd].
      rewrite upsert_users_in. intros [Hin|Heq]; [exact (Hnin Hin)|exact (E Heq)].
Qed.

Lemma shares_of_absent (u : string) (l : list Share.t) :
  ~ In u (users_of l) -> shares_of u l = [].
Proof.
  induction l as [|s l IH]; simpl; intros H; [reflexivity|].
  destruct (String.eqb_spec (Share.shared_with_user s) u) as [E|E].
  - exfalso. apply H. now left.
  - apply IH. intros Hin. apply H. now right.
Qed.

Lemma upsert_single (u : string) (p : PermissionLevel) (l : list Share.t) :
  NoDup (users_of l) -> shares_of u (Share.upsert u p l) = [Share.mk u p].
Proof.
  induction l as [|s l IH]; simpl; intros H.
  - now rewrite String.eqb_refl.
  - inversion H as [|? ? Hnin Hnd]; subst.
    destruct (String.eqb_spec (Share.shared_with_user s) u) as [E|E]; simpl.
    + rewrite E, String.eqb_refl. f_equal.
      apply shares_of_absent. now rewrite <- E.
    + destruct (String.eqb_spec (Share.shared_with_user s) u) as [E'|_];
        [contradiction|]. apply IH; exact Hnd.
Qed.

Lemma without_users (u : string) (l : list Share.t) :
  users_of (Share.without u l) = filter (fun x => negb (x =? u)%string) (users_of l).
Proof.
  induction l as [|s l IH]; simpl; [reflexivity|].
  destruct (Share.shared_with_user s =? u)%string; simpl; now rewrite IH.
Qed.

Lemma without_absent (u : string) (l : list Share.t) :
  Share.lookup u l = None -> Share.without u l = l.
Proof.
  induction l as [|s l IH]; simpl; [reflexivity|].
  destruct (Share.shared_with_user s =? u)%string; simpl;
    [discriminate | intros H; now rewrite (IH H)].
Qed.

Lemma set_shares_same (c : Campaign.t) : Campaign.set_shares c (Campaign.shares c) = c.
Proof. destruct c; reflexivity. Qed.

Lemma run_op_owner (c : Campaign.t) (op : share_op) :
  Campaign.owner_username (run_op c op) = Campaign.owner_username c.
Proof.
  destruct op as [u p|u]; simpl; [|reflexivity].
  unfold Campaign.share_with.
  destruct (u =? Campaign.owner_username c)%string; reflexivity.
Qed.

Lemma run_op_wf (c : Campaign.t) (op : share_op) :
  shares_wf c -> shares_wf (run_op c op).
Proof.
  intros [Hnd Hown]. destruct op as [u p|u]; simpl.
  - unfold Campaign.share_with.
    destruct (String.eqb_spec u (Campaign.owner_username c)) as [E|E];
      [split; assumption|].
    split; simpl.
    + apply upsert_nodup; exact Hnd.
    + rewrite upsert_users_in. intros [Hin|Heq];
        [exact (Hown Hin) | exact (E (eq_sym Heq))].
  - split; simpl; rewrite without_users.
    + apply NoDup_filter; exact Hnd.
    + intros Hin. apply filter_In in Hin. exact (Hown (proj1 Hin)).
Qed.

Lemma run_ops_wf (ops : list share_op) (c : Campaign.t) :
  shares_wf c -> shares_wf (run_ops c ops).
Proof.
  revert c. induction ops as [|op ops IH]; intros c H; simpl; [exact H|].
  apply IH. apply run_op_wf; exact H.
Qed.

Lemma run_ops_owner (ops : list share_op) (c : Campaign.t) :
  Campaign.owner_username (run_ops c ops) = Campaign.owner_username c.
Proof.
  revert c. induction ops as [|op ops IH]; intros c; simpl; [reflexivity|].
  change (Campaign.owner_username (run_ops (run_op c op) ops)
          = Campaign.owner_username c).
  rewrite IH. apply run_op_owner.
Qed.

(** C6. From a campaign whose share list has at most one share per
    username and none for the owner (a new campaign, whose list is empty,
    is one), any sequence of [share_with] and [unshare_with] calls leaves
    a share list with at most one share per username and none for the
    owner; the owner does not change; sharing twice with a user leaves
    exactly one share for that user, at the second level; sharing with
    the owner changes nothing; and unsharing a user who has no share
    returns the campaign unchanged. *)
Theorem share_list_invariant (c : Campaign.t) (ops : list share_op) :
  shares_wf c ->
  shares_wf (run_ops c ops)
  /\ Campaign.owner_username (run_ops c ops) = Campaign.owner_username c
  /\ (forall u L1 L2,
        u <> Campaign.owner_username c ->
        shares_of u
          (Campaign.shares
             (Campaign.share_with (Campaign.share_with (run_ops c ops) u L1) u L2))
        = [Share.mk u L2])
  /\ (forall L,
        Campaign.share_with (run_ops c ops) (Campaign.owner_username c) L
        = run_ops c ops)
  /\ (forall u,
        Share.lookup u (Campaign.shares (run_ops c ops)) = None ->
        Campaign.unshare_with (run_ops c ops) u = run_ops c ops).
Proof.
  intros Hwf.
  pose proof (run_ops_wf ops c Hwf) as Hwf'.
  pose proof (run_ops_owner ops c) as Hown.
  split; [exact Hwf'|]. split; [exact Hown|].
  split; [|split].
  - intros u L1 L2 Hne.
    pose proof (run_op_wf _ (ShareWith u L1) Hwf') as [Hnd1 _]. simpl in Hnd1.
    unfold Campaign.share_with in *.
    rewrite <- Hown in Hne. apply String.eqb_neq in Hne.
    rewrite Hne in *. simpl. rewrite Hne. simpl.
    apply upsert_single. exact Hnd1.
  - intros L. unfold Campaign.share_with.
    now rewrite Hown, String.eqb_refl.
  - intros u Hnone. unfold Campaign.unshare_with.
    rewrite (without_absent _ _ Hnone). apply set_shares_same.
Qed.

Lemma share_list_invariant_witness :
  shares_wf
    (run_ops (Campaign.mk "P1" "alice" "Crypt" PRIVATE false [] [])
             [ShareWith "bob" VIEW_ONLY; ShareWith "alice" COLLABORATIVE;
              ShareWith "bob" COLLABORATIVE; UnshareWith "carol"])
  /\ Campaign.shares
       (run_ops (Campaign.mk "P1" "alice" "Crypt" PRIVATE false [] [])
                [ShareWith "bob" VIEW_ONLY; ShareWith "alice" COLLABORATIVE;
                 ShareWith "bob" COLLABORATIVE; UnshareWith "carol"])
     = [Share.mk "bob" COLLABORATIVE].
Proof.
  split; [|reflexivity].
  apply (share_list_invariant
           (Campaign.mk "P1" "alice" "Crypt" PRIVATE false [] [])).
  split; simpl; [constructor | intros []].
Defined.

End AccessFacts.

(** ** Timeline query *)

Section TimelineFacts.

Import Spec.
Import Samples.
Import GuildQuestApp.

Lemma insert_by_key_perm (e : QuestEvent.t) (l : list QuestEvent.t) :
  Permutation (e :: l) (insert_by_key e l).
Proof.
  induction l as [|x l IH]; simpl; [apply Permutation_refl|].
  destruct (start_key e <=? start_key x); [apply Permutation_refl|].
  eapply perm_trans; [apply perm_swap|]. apply perm_skip. exact IH.
Qed.

Lemma sort_by_key_perm (l : list QuestEvent.t) : Permutation l (sort_by_key l).
Proof.
  induction l as [|e l IH]; simpl; [constructor|].
  eapply perm_trans; [apply perm_skip; exact IH | apply insert_by_key_perm].
Qed.

Lemma insert_by_key_sorted (e : QuestEvent.t) (l : list QuestEvent.t) :
  StronglySorted by_start l -> StronglySorted by_start (insert_by_key e l).
Proof.
  induction l as [|x l IH]; simpl; intros H.
  - constructor; constructor.
  - inversion H as [|? ? Hs Hall]; subst.
    destruct (Z.leb_spec (start_key e) (start_key x)) as [Hle|Hgt].
    + constructor; [exact H|]. constructor; [exact Hle|].
      eapply Forall_impl; [|exact Hall]. unfold by_start; intros; lia.
    + constructor; [apply IH; exact Hs|].
      eapply Permutation_Forall; [apply insert_by_key_perm|].
      constructor; [unfold by_start; lia | exact Hall].
Qed.

Lemma sort_by_key_sorted (l : list QuestEvent.t) :
  StronglySorted by_start (sort_by_key l).
Proof.
  induction l as [|e l IH]; simpl; [constructor|].
  apply insert_by_key_sorted; exact IH.
Qed.

Lemma collect_filter (self : t) (lo hi : Z) (ids : list string) :
  collect self lo hi ids
  = filter (in_window lo hi) (campaign_events (events self) ids).
Proof.
  induction ids as [|i ids IH]; simpl; [reflexivity|].
  destruct (dict_get i (events self)) as [e|]; [|exact IH].
  simpl. unfold in_window at 1. rewrite IH.
  destruct ((lo <=? start_key e) && (start_key e <? hi)); reflexivity.
Qed.

Lemma range_window_spec (k : TimeRangeType) (anchor : WorldClockTime.t) :
  range_window k anchor
  = (WorldClockTime.day anchor * 1440,
     WorldClockTime.day anchor * 1440 + range_length k).
Proof. destruct k; unfold range_window, range_length; f_equal; lia. Qed.

Lemma dict_get_map {V W : Type} (f : V -> W) (k : string) (d : dict V) :
  dict_get k (map (fun p => (fst p, f (snd p))) d) = option_map f (dict_get k d).
Proof.
  induction d as [|[k' v] d IH]; simpl; [reflexivity|].
  destruct (k' =? k)%string; [reflexivity | exact IH].
Qed.

Lemma insert_by_key_map (f : QuestEvent.t -> QuestEvent.t) :
  (forall e, start_key (f e) = start_key e) ->
  forall e l, insert_by_key (f e) (map f l) = map f (insert_by_key e l).
Proof.
  intros Hf e l. induction l as [|x l IH]; simpl; [reflexivity|].
  rewrite !Hf. destruct (start_key e <=? start_key x); simpl;
    [reflexivity | now rewrite IH].
Qed.

Lemma sort_by_key_map (f : QuestEvent.t -> QuestEvent.t) :
  (forall e, start_key (f e) = start_key e) ->
  forall l, sort_by_key (map f l) = map f (sort_by_key l).
Proof.
  intros Hf l. induction l as [|e l IH]; simpl; [reflexivity|].
  rewrite IH. apply insert_by_key_map; exact Hf.
Qed.

Lemma collect_with_end_times (g : QuestEvent.t -> option WorldClockTime.t)
    (self : t) (lo hi : Z) (ids : list string) :
  collect (with_end_times g self) lo hi ids
  = map (with_end_time g) (collect self lo hi ids).
Proof.
  induction ids as [|i ids IH]; simpl; [reflexivity|].
  rewrite dict_get_map.
  destruct (dict_get i (events self)) as [e|]; simpl; [|exact IH].
  change (start_key (with_end_time g e)) with (start_key e).
  destruct ((lo <=? start_key e) && (start_key e <? hi)); simpl;
    [now rewrite IH | exact IH].
Qed.

(** C4. For every store, campaign, range kind and anchor, the timeline
    query returns exactly the campaign's events whose start lies in the
    half-open window from [anchor.day * 1440] to that plus 1440, 7*1440,
    30*1440 or 365*1440 minutes: the result is a permutation of those
    events, sorted ascending by [to_minutes(start_time)]; anchors of the
    same day give the same result; and giving the events other end times
    changes nothing but those end times. *)
Theorem timeline_query_window (self : t) (camp : Campaign.t)
    (k : TimeRangeType) (anchor : WorldClockTime.t) :
  let lo := WorldClockTime.day anchor * 1440 in
  let hi := lo + range_length k in
  let evs := campaign_events (events self) (Campaign.quest_event_ids camp) in
  let result := _get_campaign_events_by_range self camp k anchor in
  Permutation (filter (in_window lo hi) evs) result
  /\ (forall e, In e result <->
                In e evs
                /\ lo <= WorldClockTime.to_minutes (QuestEvent.start_time e) < hi)
  /\ StronglySorted by_start result
  /\ (forall anchor',
        WorldClockTime.day anchor' = WorldClockTime.day anchor ->
        _get_campaign_events_by_range self camp k anchor' = result)
  /\ (forall g,
        _get_campaign_events_by_range (with_end_times g self) camp k anchor
        = map (with_end_time g) result).
Proof.
  intros lo hi evs result.
  assert (Hres : result = sort_by_key (filter (in_window lo hi) evs)).
  { unfold result, _get_campaign_events_by_range.
    rewrite range_window_spec. simpl. now rewrite collect_filter. }
  split; [rewrite Hres; apply sort_by_key_perm|].
  split; [|split; [|split]].
  - intros e. rewrite Hres. split.
    + intros Hin.
      apply (Permutation_in _ (Permutation_sym (sort_by_key_perm _))) in Hin.
      apply filter_In in Hin. destruct Hin as [Hin Hw].
      split; [exact Hin|]. unfold in_window, start_key in Hw.
      apply andb_true_iff in Hw. destruct Hw as [H1 H2].
      apply Z.leb_le in H1. apply Z.ltb_lt in H2. lia.
    + intros [Hin Hw].
      apply (Permutation_in _ (sort_by_key_perm _)).
      apply filter_In. split; [exact Hin|].
      unfold in_window, start_key. apply andb_true_iff.
      split; [apply Z.leb_le | apply Z.ltb_lt]; lia.
  - rewrite Hres. apply sort_by_key_sorted.
  - intros anchor' Hday. unfold result, _get_campaign_events_by_range.
    rewrite !range_window_spec, Hday. reflexivity.
  - intros g. unfold result, _get_campaign_events_by_range.
    rewrite collect_with_end_times. apply sort_by_key_map. reflexivity.
Qed.

Lemma timeline_query_window_witness :
  _get_campaign_events_by_range timeline_sample_store timeline_sample_campaign
    DAY (WorldClockTime.mk 5 0 0)
  = _get_campaign_events_by_range timeline_sample_store timeline_sample_campaign
      DAY (WorldClockTime.mk 5 9 0)
  /\ map QuestEvent.event_id
       (_get_campaign_events_by_range timeline_sample_store
          timeline_sample_campaign DAY (WorldClockTime.mk 5 9 0))
     = ["E3"; "E1"].
Proof.
  split; [|reflexivity].
  apply (proj1 (proj2 (proj2 (proj2
    (timeline_query_window timeline_sample_store timeline_sample_campaign
       DAY (WorldClockTime.mk 5 9 0)))))).
  reflexivity.
Defined.

Lemma local_str_dangling (self : t) (e : QuestEvent.t) :
  dict_get (QuestEvent.realm_id e) (realms self) = None ->
  local_str self e = Ok (world_str e).
Proof. intros H. unfold local_str. now rewrite H. Qed.

Lemma timeline_line_dangling (self : t) (user : User.t) (e : QuestEvent.t) :
  dict_get (QuestEvent.realm_id e) (realms self) = None ->
  timeline_line self user e
  = Ok (degraded_line (Settings.time_display (User.settings user)) e).
Proof.
  intros H. unfold timeline_line, degraded_line, realm_name_of.
  rewrite (local_str_dangling _ _ H), H. simpl.
  destruct (Settings.time_display (User.settings user)); reflexivity.
Qed.

(** C9. For an event whose [realm_id] names no realm of the store, the
    local-time string is the world-time string and the timeline line is
    produced without an exception, under each of WORLD, LOCAL and BOTH;
    a timeline all of whose events have such a realm prints one line per
    event. *)
Theorem timeline_dangling_realm (self : t) (user : User.t) :
  (forall e,
      dict_get (QuestEvent.realm_id e) (realms self) = None ->
      local_str self e = Ok (world_str e)
      /\ timeline_line self user e
         = Ok (degraded_line (Settings.time_display (User.settings user)) e))
  /\ (forall evs,
        (forall e, In e evs ->
                   dict_get (QuestEvent.realm_id e) (realms self) = None) ->
        timeline_lines self user evs
        = Ok (map (degraded_line (Settings.time_display (User.settings user))) evs)).
Proof.
  split.
  - intros e H. split;
      [apply local_str_dangling | apply timeline_line_dangling]; exact H.
  - intros evs H. unfold timeline_lines. apply mapM_map.
    intros e Hin. apply timeline_line_dangling. apply H; exact Hin.
Qed.

Lemma timeline_dangling_realm_witness :
  timeline_lines timeline_sample_store
    (User.mk "alice" (Settings.mk "R1" "classic" BOTH) [] [])
    (_get_campaign_events_by_range timeline_sample_store
       timeline_sample_campaign WEEK (WorldClockTime.mk 5 9 0))
  = Ok ["- E3: dawn @ Day 5 06:30 | Day 5 06:30 (R9)";
        "- E1: late @ Day 5 23:59 | Day 5 23:59 (R9)";
        "- E2: next @ Day 6 00:00 | Day 6 00:00 (R9)"].
Proof.
  rewrite (proj2 (timeline_dangling_realm timeline_sample_store
    (User.mk "alice" (Settings.mk "R1" "classic" BOTH) [] [])));
    [reflexivity|].
  intros e _. reflexivity.
Defined.

End TimelineFacts.

(** ** Inventory changes *)

Section InventoryFacts.

Import Spec.
Import Samples.
Import GuildQuestApp.

Lemma item_eqb_name (a b : InventoryItem.t) :
  InventoryItem.eqb a b = true -> InventoryItem.name a = InventoryItem.name b.
Proof.
  unfold InventoryItem.eqb. intros H.
  repeat (apply andb_true_iff in H; destruct H as [H ?]).
  now apply String.eqb_eq.
Qed.

Lemma item_eqb_refl (a : InventoryItem.t) : InventoryItem.eqb a a = true.
Proof.
  unfold InventoryItem.eqb. now rewrite !String.eqb_refl, Z.eqb_refl.
Qed.

(** [remove] finds the item itself when nothing before it has its name. *)
Lemma list_remove_here (pre rest : list InventoryItem.t) (it : InventoryItem.t) :
  (forall y, In y pre -> InventoryItem.name y <> InventoryItem.name it) ->
  list_remove it (pre ++ it :: rest) = Ok (pre ++ rest).
Proof.
  induction pre as [|y pre IH]; simpl; intros H.
  - now rewrite item_eqb_refl.
  - destruct (InventoryItem.eqb y it) eqn:E.
    + exfalso. apply (H y (or_introl eq_refl)). now apply item_eqb_name.
    + rewrite IH by (intros; apply H; now right). reflexivity.
Qed.

Lemma remove_first_named_zero (nm : string) (inv : list InventoryItem.t) :
  remove_first_named nm 0 inv = inv.
Proof.
  induction inv as [|it inv IH]; simpl; [reflexivity|].
  destruct (InventoryItem.name it =? nm)%string; [reflexivity | now rewrite IH].
Qed.

Lemma remove_loop_spec (nm : string) (qty : Z) (rest : list InventoryItem.t) :
  forall (pre : list InventoryItem.t) (removed : Z),
    (forall y, In y pre -> InventoryItem.name y <> nm) ->
    exists r,
      Character.remove_loop rest nm qty (pre ++ rest) removed
      = Ok (pre ++ remove_first_named nm (Z.to_nat (qty - removed)) rest, r).
Proof.
  induction rest as [|it rest IH]; intros pre removed Hpre; simpl.
  - eexists; reflexivity.
  - destruct (Z.leb_spec qty removed) as [Hle|Hgt].
    + replace (Z.to_nat (qty - removed)) with O by lia.
      destruct (InventoryItem.name it =? nm)%string;
        [|rewrite remove_first_named_zero]; eexists; reflexivity.
    + destruct (String.eqb_spec (InventoryItem.name it) nm) as [E|E].
      * rewrite list_remove_here by (intros y Hy; rewrite E; now apply Hpre).
        simpl. replace (Z.to_nat (qty - removed))
          with (S (Z.to_nat (qty - (removed + 1)))) by lia.
        apply IH; exact Hpre.
      * replace (pre ++ it :: rest) with ((pre ++ [it]) ++ rest)
          by (now rewrite <- app_assoc).
        destruct (IH (pre ++ [it]) removed) as [r Hr].
        { intros y Hy. apply in_app_or in Hy. destruct Hy as [Hy|[<-|[]]];
            [now apply Hpre | exact E]. }
        exists r. rewrite Hr. now rewrite <- app_assoc.
Qed.

Lemma remove_item_by_name_spec (ch : Character.t) (nm : string) (qty : Z) :
  exists r,
    Character.remove_item_by_name ch nm qty
    = Ok (Character.set_inventory ch
            (remove_first_named nm (Z.to_nat qty) (Character.inventory ch)), r).
Proof.
  unfold Character.remove_item_by_name.
  destruct (remove_loop_spec nm qty (Character.inventory ch) [] 0) as [r Hr];
    [intros y []|].
  simpl in Hr. rewrite Hr. simpl. rewrite Z.sub_0_r. now exists r.
Qed.

Lemma add_items_spec (item : InventoryItem.t) (n : nat) :
  forall ch,
    add_items ch item n
    = Character.set_inventory ch (Character.inventory ch ++ repeat item n).
Proof.
  induction n as [|n IH]; intros ch; simpl.
  - rewrite app_nil_r. destruct ch; reflexivity.
  - rewrite IH. unfold Character.add_item, Character.set_inventory; simpl.
    now rewrite <- app_assoc.
Qed.

Lemma dict_set_same {V : Type} (k : string) (v : V) (d : dict V) :
  dict_get k d = Some v -> dict_set k v d = d.
Proof.
  induction d as [|[k' v'] d IH]; simpl; [discriminate|].
  destruct (k' =? k)%string; intros H; [congruence | now rewrite IH].
Qed.

Lemma apply_to_target_spec (chg : InventoryChange.t) (cs : dict Character.t)
    (cid : string) :
  apply_to_target chg cs cid = Ok (change_target chg cs cid).
Proof.
  unfold apply_to_target, change_target, change_inventory.
  destruct (dict_get cid cs) as [ch|] eqn:Hget; [|reflexivity].
  destruct (0 <? InventoryChange.delta_qty chg).
  - now rewrite add_items_spec.
  - destruct (InventoryChange.delta_qty chg <? 0).
    + destruct (remove_item_by_name_spec ch
        (InventoryItem.name (InventoryChange.item chg))
        (- InventoryChange.delta_qty chg)) as [r Hr].
      rewrite Hr. reflexivity.
    + f_equal. symmetry. apply dict_set_same.
      rewrite Hget. destruct ch; reflexivity.
Qed.

Lemma apply_to_targets_spec (chg : InventoryChange.t) (targets : list string) :
  forall cs,
    apply_to_targets chg cs targets = Ok (fold_left (change_target chg) targets cs).
Proof.
  induction targets as [|cid targets IH]; intros cs; simpl; [reflexivity|].
  rewrite apply_to_target_spec. simpl. apply IH.
Qed.

Lemma targets_of_named (e : QuestEvent.t) (chg : InventoryChange.t) :
  targets_of e chg = named_targets e chg.
Proof.
  unfold targets_of, named_targets, truthy.
  destruct (InventoryChange.target_char_id chg) as [cid|]; [|reflexivity].
  destruct (cid =? "")%string; reflexivity.
Qed.

Lemma apply_changes_spec (e : QuestEvent.t) (chgs : list InventoryChange.t) :
  forall cs,
    apply_changes e cs chgs
    = Ok (fold_left
            (fun cs chg => fold_left (change_target chg) (named_targets e chg) cs)
            chgs cs).
Proof.
  induction chgs as [|chg chgs IH]; intros cs; simpl; [reflexivity|].
  rewrite apply_to_targets_spec, targets_of_named. simpl. apply IH.
Qed.

Lemma remove_first_named_all (nm : string) (inv : list InventoryItem.t) :
  forall n,
    (count_named nm inv <= n)%nat ->
    remove_first_named nm n inv
    = filter (fun it => negb (InventoryItem.name it =? nm)%string) inv.
Proof.
  unfold count_named.
  induction inv as [|it inv IH]; intros n H; simpl in *; [reflexivity|].
  destruct (InventoryItem.name it =? nm)%string; simpl in *.
  - destruct n as [|n]; [lia|]. apply IH. lia.
  - f_equal. apply IH. exact H.
Qed.

(** C5, as the code has it.  Applying an event's inventory changes never
    raises and treats each change in order: its targets are the single
    [target_char_id] when that field is present and not the empty string,
    else all participants of the event; an id with no character is
    skipped; a positive [delta_qty] appends the item that many times; a
    negative one removes the first [|delta_qty|] items of that name, or
    all of them when there are fewer; zero changes nothing. *)
Theorem inventory_changes_applied (self : t) (e : QuestEvent.t) :
  _apply_event_inventory_changes self e
  = Ok (set_characters self (changes_applied named_targets e (characters self)))
  /\ (forall nm n inv,
        (count_named nm inv <= n)%nat ->
        remove_first_named nm n inv
        = filter (fun it => negb (InventoryItem.name it =? nm)%string) inv).
Proof.
  split.
  - unfold _apply_event_inventory_changes, changes_applied.
    now rewrite apply_changes_spec.
  - intros nm n inv. apply remove_first_named_all.
Qed.

Lemma inventory_changes_applied_witness :
  (count_named "potion" [potion; sword; potion'] <= 3)%nat
  /\ remove_first_named "potion" 3 [potion; sword; potion'] = [sword]
  /\ option_map Character.inventory
       (dict_get "C1"
          (changes_applied named_targets inventory_sample_event
             (characters inventory_sample_store)))
     = Some [sword; sword; sword].
Proof.
  split; [vm_compute; lia|]. split; [|reflexivity].
  rewrite (proj2 (inventory_changes_applied inventory_sample_store
                    inventory_sample_event) "potion" 3%nat);
    [reflexivity | vm_compute; lia].
Defined.

Example inventory_sample_run :
  option_map characters
    (match _apply_event_inventory_changes inventory_sample_store
             inventory_sample_event with
     | Ok s => Some s
     | Raise _ => None
     end)
  = Some [("C1", Character.mk "C1" "Ayla" "Mage" 2 [sword; sword; sword]);
          ("C2", Character.mk "C2" "Bram" "Rogue" 1 [sword; sword])].
Proof. reflexivity. Qed.

(** C5 as stated fails when [target_char_id] is the empty string: the
    code then serves every participant, where the singleton of that id
    names no character and would change nothing. *)
Lemma inventory_blank_target_counterexample :
  _apply_event_inventory_changes blank_target_store blank_target_event
  <> Ok (set_characters blank_target_store
           (changes_applied present_targets blank_target_event
              (characters blank_target_store))).
Proof. vm_compute. intros H. discriminate H. Qed.

End InventoryFacts.

(** ** Persistence codec *)

Section CodecFacts.

Import Spec.
Import Samples.
Import GuildQuestApp.

Lemma mapM_as_str (l : list string) : mapM Json.as_str (map JStr l) = Ok l.
Proof.
  induction l as [|x l IH]; simpl; [reflexivity | now rewrite IH].
Qed.

(** The tag [_campaign_to_dict] and [_event_to_dict] write for a share is
    no value of [PermissionLevel]. *)
Lemma dict_to_share_raises (s : Share.t) :
  dict_to_share (share_to_dict s) = Raise ValueError.
Proof. destruct s as [u []]; reflexivity. Qed.

(** A campaign without shares comes back as it was. *)
Lemma campaign_roundtrip_unshared (c : Campaign.t) :
  Campaign.shares c = [] -> _dict_to_campaign (_campaign_to_dict c) = Ok c.
Proof.
  destruct c as [cid own nm vis ar qs sh]; simpl; intros ->.
  unfold _dict_to_campaign, _campaign_to_dict; simpl.
  rewrite mapM_as_str. now destruct vis.
Qed.

(** A campaign with a share does not decode. *)
Lemma campaign_roundtrip_shared (c : Campaign.t) :
  Campaign.shares c <> [] ->
  _dict_to_campaign (_campaign_to_dict c) = Raise ValueError.
Proof.
  destruct c as [cid own nm vis ar qs sh]; simpl; intros H.
  destruct sh as [|s sh]; [contradiction|].
  unfold _dict_to_campaign, _campaign_to_dict; simpl.
  now rewrite dict_to_share_raises.
Qed.

Lemma dict_to_time_asdict (w : WorldClockTime.t) :
  WorldClockTime.valid w -> dict_to_time (time_asdict w) = Ok w.
Proof.
  destruct w as [d h m]. intros (Hd & Hh & Hm). simpl in *.
  unfold dict_to_time, time_asdict; simpl.
  now apply construct_ok.
Qed.

Lemma dict_to_item_asdict (it : InventoryItem.t) :
  dict_to_item (item_asdict it) = Ok it.
Proof. destruct it; reflexivity. Qed.

Lemma dict_to_change_to_dict (chg : InventoryChange.t) :
  dict_to_change (change_to_dict chg) = Ok chg.
Proof.
  destruct chg as [it d tg].
  unfold dict_to_change, change_to_dict.
  cbn [Json.subscript dict_get String.eqb Ascii.eqb Bool.eqb bind
       InventoryChange.item InventoryChange.delta_qty
       InventoryChange.target_char_id].
  rewrite dict_to_item_asdict. now destruct tg.
Qed.

Lemma mapM_dict_to_change (l : list InventoryChange.t) :
  mapM dict_to_change (map change_to_dict l) = Ok l.
Proof.
  induction l as [|x l IH]; [reflexivity|].
  cbn [map mapM]. rewrite dict_to_change_to_dict, IH. reflexivity.
Qed.

(** An event without shares, with valid times, comes back as it was. *)
Lemma event_roundtrip_unshared (e : QuestEvent.t) :
  QuestEvent.shares e = [] ->
  WorldClockTime.valid (QuestEvent.start_time e) ->
  (forall w, QuestEvent.end_time e = Some w -> WorldClockTime.valid w) ->
  _dict_to_event (_event_to_dict e) = Ok e.
Proof.
  destruct e as [eid nm st et rid ps sh ic]; simpl; intros -> Hst Het.
  unfold _dict_to_event, _event_to_dict.
  cbn [Json.subscript Json.get Json.iter dict_get String.eqb Ascii.eqb
       Bool.eqb bind QuestEvent.event_id QuestEvent.name
       QuestEvent.start_time QuestEvent.end_time QuestEvent.realm_id
       QuestEvent.participant_char_ids QuestEvent.shares
       QuestEvent.inventory_changes map mapM Json.as_str Json.as_str_list
       Json.of_str_list].
  rewrite (dict_to_time_asdict st Hst). cbn [bind].
  rewrite mapM_dict_to_change, mapM_as_str. cbn [bind].
  destruct et as [w|]; [|reflexivity].
  change (Json.truthy_json (time_asdict w)) with true. cbn iota.
  rewrite (dict_to_time_asdict w (Het w eq_refl)). reflexivity.
Qed.

(** An event with a share does not decode. *)
Lemma event_roundtrip_shared (e : QuestEvent.t) :
  QuestEvent.shares e <> [] ->
  WorldClockTime.valid (QuestEvent.start_time e) ->
  (forall w, QuestEvent.end_time e = Some w -> WorldClockTime.valid w) ->
  _dict_to_event (_event_to_dict e) = Raise ValueError.
Proof.
  destruct e as [eid nm st et rid ps sh ic]; simpl; intros Hsh Hst Het.
  destruct sh as [|s sh]; [contradiction|].
  unfold _dict_to_event, _event_to_dict.
  cbn [Json.subscript Json.get Json.iter dict_get String.eqb Ascii.eqb
       Bool.eqb bind QuestEvent.event_id QuestEvent.name
       QuestEvent.start_time QuestEvent.end_time QuestEvent.realm_id
       QuestEvent.participant_char_ids QuestEvent.shares
       QuestEvent.inventory_changes map mapM].
  rewrite (dict_to_time_asdict st Hst). cbn [bind].
  rewrite dict_to_share_raises.
  destruct et as [w|]; [|reflexivity].
  change (Json.truthy_json (time_asdict w)) with true. cbn iota.
  rewrite (dict_to_time_asdict w (Het w eq_refl)). reflexivity.
Qed.

Lemma PermissionLevel_of_value (p : PermissionLevel) :
  PermissionLevel_of (JStr (PermissionLevel_value p)) = Ok p.
Proof. destruct p; reflexivity. Qed.

Lemma dict_set_fresh {V : Type} (k : string) (v : V) (d : dict V) :
  ~ In k (keys d) -> dict_set k v d = d ++ [(k, v)].
Proof.
  induction d as [|[k' v'] d IH]; simpl; intros H; [reflexivity|].
  destruct (String.eqb_spec k' k) as [E|E]; [exfalso; apply H; now left|].
  rewrite IH; [reflexivity | intros Hin; apply H; now right].
Qed.

Lemma keys_app {V : Type} (a b : dict V) : keys (a ++ b) = keys a ++ keys b.
Proof. apply map_app. Qed.

Lemma NoDup_keys_step {V : Type} (acc d : dict V) (k : string) (v : V) :
  NoDup (keys acc ++ keys ((k, v) :: d)) ->
  ~ In k (keys acc) /\ NoDup (keys (acc ++ [(k, v)]) ++ keys d).
Proof.
  simpl. intros H. split.
  - apply NoDup_remove_2 in H. intros Hin. apply H. apply in_or_app. now left.
  - rewrite keys_app. simpl. rewrite <- app_assoc. exact H.
Qed.

(** A dict comprehension over the encoded values of a dict rebuilds the
    dict when each value decodes. *)
Lemma dict_comp_roundtrip {V : Type} (f : json -> res V) (enc : V -> json)
    (d : dict V) :
  forall acc,
    NoDup (keys acc ++ keys d) ->
    (forall k v, In (k, v) d -> f (enc v) = Ok v) ->
    dict_comp f (map (fun p => (fst p, enc (snd p))) d) acc = Ok (acc ++ d).
Proof.
  induction d as [|[k v] d IH]; intros acc Hnd Hdec; simpl.
  - now rewrite app_nil_r.
  - rewrite (Hdec k v (or_introl eq_refl)). simpl.
    destruct (NoDup_keys_step acc d k v Hnd) as [Hfresh Hnd'].
    rewrite (dict_set_fresh _ _ _ Hfresh).
    rewrite IH; [now rewrite <- app_assoc | exact Hnd' |].
    intros k' v' Hin. apply (Hdec k' v'). now right.
Qed.

Lemma dict_to_user_asdict (u : User.t) :
  dict_to_user (User.username u) (user_asdict u) = Ok u.
Proof.
  destruct u as [nm [cr th td] cs chs].
  unfold dict_to_user, user_asdict.
  cbn [Json.subscript Json.get dict_get String.eqb Ascii.eqb Bool.eqb bind
       Json.as_str Json.as_str_list Json.of_str_list
       User.username User.settings User.campaign_ids User.character_ids
       Settings.current_realm_id Settings.theme Settings.time_display].
  rewrite !mapM_as_str. now destruct td.
Qed.

Lemma load_users_roundtrip (d : dict User.t) :
  forall acc,
    NoDup (keys acc ++ keys d) ->
    (forall k u, In (k, u) d -> User.username u = k) ->
    load_users (map (fun p => (fst p, user_asdict (snd p))) d) acc
    = (acc ++ d, None).
Proof.
  induction d as [|[k u] d IH]; intros acc Hnd Hkey; simpl.
  - now rewrite app_nil_r.
  - rewrite <- (Hkey k u (or_introl eq_refl)) at 1.
    rewrite dict_to_user_asdict.
    destruct (NoDup_keys_step acc d k u Hnd) as [Hfresh Hnd'].
    rewrite (dict_set_fresh _ _ _ Hfresh).
    rewrite IH; [now rewrite <- app_assoc | exact Hnd' |].
    intros k' u' Hin. apply (Hkey k' u'). now right.
Qed.

Lemma dict_to_realm_to_dict (r : Realm.t) : _dict_to_realm (_realm_to_dict r) = Ok r.
Proof. destruct r as [rid nm ds mp x y [om dm]]. reflexivity. Qed.

Lemma mapM_dict_to_item (l : list InventoryItem.t) :
  mapM dict_to_item (map item_asdict l) = Ok l.
Proof.
  induction l as [|x l IH]; [reflexivity|].
  cbn [map mapM]. rewrite dict_to_item_asdict, IH. reflexivity.
Qed.

Lemma dict_to_character_to_dict (c : Character.t) :
  _dict_to_character (_character_to_dict c) = Ok c.
Proof.
  destruct c as [cid nm cl lv inv].
  unfold _dict_to_character, _character_to_dict.
  cbn [Json.subscript Json.get Json.iter dict_get String.eqb Ascii.eqb
       Bool.eqb bind Json.as_str Json.to_int
       Character.char_id Character.name Character.class_name
       Character.level Character.inventory].
  now rewrite mapM_dict_to_item.
Qed.

Lemma as_int_dict_of (d : dict Z) : Json.as_int_dict (dict_to_json JInt d) = Ok d.
Proof.
  unfold Json.as_int_dict, dict_to_json.
  induction d as [|[k z] d IH]; [reflexivity|].
  cbn [map mapM fst snd Json.as_int bind]. now rewrite IH.
Qed.

Lemma reset_dangling_user_wf (self : t) :
  (forall u, current_user self = Some u -> u = "" \/ dict_has u (users self) = true) ->
  reset_dangling_user self = self.
Proof.
  intros H. unfold reset_dangling_user.
  destruct (current_user self) as [u|]; [|reflexivity].
  destruct (H u eq_refl) as [->|Hin]; [reflexivity|].
  rewrite Hin. now rewrite andb_false_r.
Qed.

(** The codec is sound where no share is involved: loading what [save]
    wrote for a store without shares gives that store back, whatever the
    store it is loaded into. *)
Lemma store_roundtrip_unshared (self into : t) :
  unshared_wf self ->
  load into (Parsed (save_payload self)) = (self, Loaded).
Proof.
  intros (Hu & Hr & Hc & He & Hch & Hname & Hcs & Hes & Hcu).
  unfold load, stage.
  change (counters_of into (save_payload self))
    with (Json.as_int_dict (dict_to_json JInt (_id_counters self))).
  rewrite as_int_dict_of.
  change (do cu <- Json.get (save_payload self) "current_user" JNull;
          Json.as_opt_str cu)
    with (Json.as_opt_str (Json.of_opt_str (current_user self))).
  replace (Json.as_opt_str (Json.of_opt_str (current_user self)))
    with (Ok (current_user self)) by (now destruct (current_user self)).
  change (do sec <- Json.get (save_payload self) "users" (JDict []); Json.items sec)
    with (Ok (map (fun p => (fst p, user_asdict (snd p))) (users self))).
  cbv iota beta.
  rewrite (load_users_roundtrip (users self) [] Hu Hname).
  change (load_section (save_payload self) "realms" _dict_to_realm)
    with (dict_comp _dict_to_realm
            (map (fun p => (fst p, _realm_to_dict (snd p))) (realms self)) []).
  rewrite (dict_comp_roundtrip _ _ (realms self) [] Hr)
    by (intros; apply dict_to_realm_to_dict).
  change (load_section (save_payload self) "campaigns" _dict_to_campaign)
    with (dict_comp _dict_to_campaign
            (map (fun p => (fst p, _campaign_to_dict (snd p))) (campaigns self)) []).
  rewrite (dict_comp_roundtrip _ _ (campaigns self) [] Hc)
    by (intros k c Hin; apply campaign_roundtrip_unshared; exact (Hcs k c Hin)).
  change (load_section (save_payload self) "events" _dict_to_event)
    with (dict_comp _dict_to_event
            (map (fun p => (fst p, _event_to_dict (snd p))) (events self)) []).
  rewrite (dict_comp_roundtrip _ _ (events self) [] He)
    by (intros k e Hin; destruct (Hes k e Hin) as (H1 & H2 & H3);
        now apply event_roundtrip_unshared).
  change (load_section (save_payload self) "characters" _dict_to_character)
    with (dict_comp _dict_to_character
            (map (fun p => (fst p, _character_to_dict (snd p))) (characters self)) []).
  rewrite (dict_comp_roundtrip _ _ (characters self) [] Hch)
    by (intros; apply dict_to_character_to_dict).
  cbn [app]. f_equal.
  rewrite reset_dangling_user_wf; [destruct self; reflexivity|].
  destruct self; exact Hcu.
Qed.

(** C1 at a campaign shared with one user: the encoder writes the tag
    [PermissionLevel.VIEW_ONLY] where the decoder knows [VIEW_ONLY], so
    decoding the encoded campaign raises [ValueError], and so does loading
    the saved store that holds it; the same store without the share loads
    back equal. *)
Theorem shared_campaign_roundtrip_raises :
  Json.get (_campaign_to_dict shared_campaign) "shares" (JList [])
  = Ok (JList [JDict [("shared_with_user", JStr "bob");
                      ("permission", JStr "PermissionLevel.VIEW_ONLY")]])
  /\ _dict_to_campaign (_campaign_to_dict shared_campaign) = Raise ValueError
  /\ snd (load new_store (Parsed (save_payload shared_store))) = Raised ValueError
  /\ load new_store (Parsed (save_payload unshared_store)) = (unshared_store, Loaded).
Proof. repeat split. Qed.

End CodecFacts.

(** ** Load *)

Lemma dict_get_set_same {V : Type} (k : string) (v : V) (d : dict V) :
  dict_get k (dict_set k v d) = Some v.
Proof.
  induction d as [|[k' v'] d IH]; simpl.
  - now rewrite String.eqb_refl.
  - destruct (k' =? k)%string eqn:E; simpl; rewrite E; [reflexivity | exact IH].
Qed.

Lemma dict_get_set_other {V : Type} (k k' : string) (v : V) (d : dict V) :
  k' <> k -> dict_get k' (dict_set k v d) = dict_get k' d.
Proof.
  intros Hne. induction d as [|[k0 v0] d IH]; simpl.
  - destruct (String.eqb_spec k k'); [congruence | reflexivity].
  - destruct (String.eqb_spec k0 k) as [->|E]; simpl.
    + destruct (String.eqb_spec k k'); [congruence | reflexivity].
    + destruct (k0 =? k')%string; [reflexivity | exact IH].
Qed.

Section LoadFacts.

Import Spec.
Import Samples.
Import GuildQuestApp.

(** Splits the first statement of [load] that can raise. *)
Ltac stage_split H :=
  match type of H with
  | context [match ?r with Ok _ => _ | Raise _ => _ end] =>
      destruct r eqn:?; try discriminate H
  | context [match ?r with (_, _) => _ end] =>
      destruct r as [? [?|]] eqn:?; try discriminate H
  end.



Lemma counters_of_same (self1 self2 : t) (payload : json) :
  _id_counters self1 = _id_counters self2 ->
  counters_of self1 payload = counters_of self2 payload.
Proof. intros H. unfold counters_of. now rewrite H. Qed.

Lemma reset_dangling_user_fields (self : t) :
  users (reset_dangling_user self) = users self
  /\ realms (reset_dangling_user self) = realms self
  /\ campaigns (reset_dangling_user self) = campaigns self
  /\ events (reset_dangling_user self) = events self
  /\ characters (reset_dangling_user self) = characters self
  /\ _id_counters (reset_dangling_user self) = _id_counters self
  /\ current_user (reset_dangling_user self)
     = current_user_from (current_user self) (users self).
Proof.
  unfold reset_dangling_user, current_user_from.
  destruct (current_user self) as [u|] eqn:Hu;
    [|repeat split; try reflexivity; exact Hu].
  destruct (truthy u && negb (dict_has u (users self)));
    repeat split; try reflexivity; exact Hu.
Qed.

(** A load that returns [Loaded] has read an object and holds what it
    holds. *)
Lemma load_loaded_from (self self' : t) (f : file_read) :
  load self f = (self', Loaded) ->
  exists kv, f = Parsed (JDict kv) /\ loaded_from self kv self'.
Proof.
  intros H. destruct f as [| |payload]; try discriminate H.
  destruct payload as [| | | | | |kv]; try discriminate H.
  exists kv. split; [reflexivity|].
  unfold load, stage, counters_of in H.
  destruct (match dict_get "id_counters" kv with
            | Some j => Json.as_int_dict j
            | None => Ok (_id_counters self)
            end) as [ctr|] eqn:Ectr; [|discriminate H].
  destruct (do cu <- Json.get (JDict kv) "current_user" JNull; Json.as_opt_str cu)
    as [cu|] eqn:Ecu; [|discriminate H].
  destruct (do sec <- Json.get (JDict kv) "users" (JDict []); Json.items sec)
    as [uitems|] eqn:Eitems; [|discriminate H].
  destruct (load_users uitems []) as [us [e|]] eqn:Eus; [discriminate H|].
  destruct (load_section (JDict kv) "realms" _dict_to_realm)
    as [rs|] eqn:Ers; [|discriminate H].
  destruct (load_section (JDict kv) "campaigns" _dict_to_campaign)
    as [cs|] eqn:Ecs; [|discriminate H].
  destruct (load_section (JDict kv) "events" _dict_to_event)
    as [es|] eqn:Ees; [|discriminate H].
  destruct (load_section (JDict kv) "characters" _dict_to_character)
    as [chs|] eqn:Echs; [|discriminate H].
  injection H as <-.
  destruct (reset_dangling_user_fields
              (set_characters
                 (set_events
                    (set_campaigns
                       (set_realms
                          (set_users
                             (set_users
                                (set_current_user (set_id_counters self ctr) cu) [])
                             us) rs) cs) es) chs))
    as (Hu & Hr & Hc & He & Hch & Hctr & Hcu).
  unfold loaded_from. rewrite Hu, Hr, Hc, He, Hch, Hctr, Hcu.
  cbn [set_characters set_events set_campaigns set_realms set_users
       set_current_user set_id_counters users realms campaigns events
       characters _id_counters current_user].
  split; [exists uitems; split; [exact Eitems | exact Eus]|].
  split; [exact Ers|]. split; [exact Ecs|]. split; [exact Ees|].
  split; [exact Echs|].
  split; [intros j Hj; rewrite Hj in Ectr; exact Ectr|].
  split; [intros Hj; rewrite Hj in Ectr; now injection Ectr|].
  exists cu. split; [exact Ecu | reflexivity].
Qed.

(** C3, as the code has it.  A load that finds no file, or a file that is
    no JSON document, or a document that is no object, leaves the store as
    it was.  A load that returns after loading has read an object and
    holds what that object holds: the users built from its [users] entry,
    the realms, campaigns, events and characters decoded from their
    entries, the id counters it records (those of the store before when it
    records none) and the current user it records, reset when it names no
    loaded user; so the result is the same from any store with the same
    id counters.  This is on documents whose values have the types the
    dataclass annotations declare, which are the ones the typed store can
    hold. *)
Theorem load_untouched_or_replaced (self : t) :
  load self NoSuchFile = (self, NotFound)
  /\ load self NotJson = (self, Raised JSONDecodeError)
  /\ (forall payload,
        (forall kv, payload <> JDict kv) ->
        load self (Parsed payload) = (self, Raised AttributeError))
  /\ (forall f self',
        load self f = (self', Loaded) ->
        (exists kv, f = Parsed (JDict kv) /\ loaded_from self kv self')
        /\ (forall other,
              _id_counters other = _id_counters self ->
              load other f = (self', Loaded))).
Proof.
  split; [reflexivity|]. split; [reflexivity|]. split.
  - intros payload Hnd.
    destruct payload; try reflexivity. exfalso. now apply (Hnd kv).
  - intros f self' H. split; [now apply load_loaded_from|].
    intros other Hctr.
    destruct f as [| |payload]; try discriminate H.
    unfold load, stage in *.
    rewrite (counters_of_same other self payload Hctr).
    repeat stage_split H.
    injection H as <-. reflexivity.
Qed.

Lemma load_untouched_or_replaced_witness :
  (exists kv,
      Parsed (save_payload unshared_store) = Parsed (JDict kv)
      /\ loaded_from new_store kv unshared_store)
  /\ (forall other,
        _id_counters other = _id_counters new_store ->
        load other (Parsed (save_payload unshared_store)) = (unshared_store, Loaded)).
Proof.
  apply (proj2 (proj2 (proj2 (load_untouched_or_replaced new_store)))
           (Parsed (save_payload unshared_store)) unshared_store).
  reflexivity.
Defined.

(** C3 as stated fails on a document whose user entry has no [settings]:
    the load raises [KeyError] after it has dropped the users and the
    current user of the store. *)
Lemma load_partial_counterexample :
  snd (load unshared_store (Parsed broken_users_payload)) = Raised KeyError
  /\ fst (load unshared_store (Parsed broken_users_payload)) <> unshared_store
  /\ users (fst (load unshared_store (Parsed broken_users_payload))) = []
  /\ current_user (fst (load unshared_store (Parsed broken_users_payload))) = None
  /\ users unshared_store <> []
  /\ current_user unshared_store <> None.
Proof.
  split; [reflexivity|]. split; [|split; [|split; [|split]]];
    try reflexivity; vm_compute; intros H; discriminate H.
Qed.









End LoadFacts.

(** * Further properties

    The rest of the module: what the methods around the ones above do on
    empty input, on missing keys and at their bounds, what they keep, and
    how they compose. *)

(** ** Dictionaries *)

Lemma dict_has_set {V : Type} (k k' : string) (v : V) (d : dict V) :
  dict_has k' d = true -> dict_has k' (dict_set k v d) = true.
Proof.
  unfold dict_has. destruct (String.eqb_spec k' k) as [->|Hne].
  - now rewrite dict_get_set_same.
  - now rewrite dict_get_set_other.
Qed.

Lemma dict_get_In {V : Type} (k : string) (v : V) (d : dict V) :
  dict_get k d = Some v -> In (k, v) d.
Proof.
  induction d as [|[k' v'] d IH]; simpl; [discriminate|].
  destruct (String.eqb_spec k' k) as [->|E]; intros H.
  - left. congruence.
  - right. now apply IH.
Qed.

Lemma dict_get_keys {V : Type} (k : string) (d : dict V) :
  dict_get k d = None <-> ~ In k (Spec.keys d).
Proof.
  induction d as [|[k' v'] d IH]; simpl; [intuition|].
  destruct (String.eqb_spec k' k) as [->|E].
  - split; [discriminate | intros H; exfalso; apply H; now left].
  - rewrite IH. intuition.
Qed.

(** ** Time model, continued *)

Section TimeMore.

Import WorldClockTime.
Import Spec.

Lemma renormalized_to_minutes (w : t) : valid w -> renormalized (to_minutes w) = w.
Proof.
  destruct w as [d h m]. unfold valid, renormalized, to_minutes; simpl.
  intros (Hd & Hh & Hm).
  assert (E1 : (d * 24 * 60 + h * 60 + m) / 1440 = d)
    by (Z.div_mod_to_equations; lia).
  assert (E2 : (d * 24 * 60 + h * 60 + m) mod 1440 = h * 60 + m)
    by (Z.div_mod_to_equations; lia).
  rewrite E1, E2.
  assert (E3 : (h * 60 + m) / 60 = h) by (Z.div_mod_to_equations; lia).
  assert (E4 : (h * 60 + m) mod 60 = m) by (Z.div_mod_to_equations; lia).
  now rewrite E3, E4.
Qed.

Lemma to_minutes_nonneg (w : t) : valid w -> 0 <= to_minutes w.
Proof. unfold valid, to_minutes. lia. Qed.

Lemma plus_minutes_zero (w : t) : valid w -> plus_minutes w 0 = Ok w.
Proof.
  intros Hw.
  rewrite plus_minutes_ok by (pose proof (to_minutes_nonneg w Hw); lia).
  rewrite Z.add_0_r. f_equal. now apply renormalized_to_minutes.
Qed.

(** X1. The minute count is a faithful encoding of a valid time: adding
    zero minutes returns the time itself, and two valid times with the
    same minute count are the same time. *)
Theorem minutes_encoding_faithful (a b : t) :
  valid a -> valid b ->
  plus_minutes a 0 = Ok a
  /\ (to_minutes a = to_minutes b -> a = b).
Proof.
  intros Ha Hb. split.
  - now apply plus_minutes_zero.
  - intros E. rewrite <- (renormalized_to_minutes a Ha),
      <- (renormalized_to_minutes b Hb). now rewrite E.
Qed.

Lemma minutes_encoding_faithful_witness :
  plus_minutes (mk 5 23 59) 0 = Ok (mk 5 23 59).
Proof.
  apply (minutes_encoding_faithful (mk 5 23 59) (mk 5 23 59));
    unfold valid; simpl; lia.
Defined.



End TimeMore.

(** ** Timeline, continued *)

Section TimelineMore.

Import Spec.
Import Samples.
Import GuildQuestApp.

Lemma local_str_cases (self : t) (e : QuestEvent.t) :
  (exists s, local_str self e = Ok s) \/ local_str self e = Raise ValueError.
Proof.
  unfold local_str, RealmTimeRule.to_local.
  destruct (dict_get (QuestEvent.realm_id e) (realms self)) as [realm|];
    [|left; eexists; reflexivity].
  destruct (Z.lt_ge_cases
    (WorldClockTime.to_minutes (QuestEvent.start_time e)
     + RealmTimeRule.offset_minutes (Realm.time_rule realm)) 0) as [Hn|Hp].
  - right. now rewrite plus_minutes_neg.
  - left. rewrite plus_minutes_ok by exact Hp. eexists; reflexivity.
Qed.

Lemma timeline_line_cases (self : t) (user : User.t) (e : QuestEvent.t) :
  (exists s, timeline_line self user e = Ok s)
  \/ timeline_line self user e = Raise ValueError.
Proof.
  unfold timeline_line.
  destruct (local_str_cases self e) as [[s E]|E]; rewrite E; simpl;
    [left; eexists; reflexivity | now right].
Qed.

Lemma timeline_lines_raise (self : t) (user : User.t) (evs : list QuestEvent.t)
    (e : QuestEvent.t) :
  In e evs -> timeline_line self user e = Raise ValueError ->
  timeline_lines self user evs = Raise ValueError.
Proof.
  unfold timeline_lines. induction evs as [|x evs IH]; intros Hin He; [destruct Hin|].
  simpl. destruct Hin as [->|Hin].
  - now rewrite He.
  - destruct (timeline_line_cases self user x) as [[s E]|E]; rewrite E; simpl;
      [|reflexivity].
    now rewrite (IH Hin He).
Qed.

(** X3. For an event whose realm the store resolves, the timeline line
    carries the realm's name and the local time when the start shifted by
    the realm's offset is not negative; when it is negative the line
    raises [ValueError] under every display preference, WORLD included,
    and so does the listing of any timeline that holds the event. *)
Theorem timeline_local_failure (self : t) (user : User.t) (e : QuestEvent.t)
    (realm : Realm.t) :
  dict_get (QuestEvent.realm_id e) (realms self) = Some realm ->
  let shifted := WorldClockTime.to_minutes (QuestEvent.start_time e)
                 + RealmTimeRule.offset_minutes (Realm.time_rule realm) in
  (shifted < 0 ->
   timeline_line self user e = Raise ValueError
   /\ forall evs, In e evs -> timeline_lines self user evs = Raise ValueError)
  /\ (0 <= shifted ->
      let l := WorldClockTime.to_str (renormalized shifted) in
      let w := world_str e in
      timeline_line self user e
      = Ok ("- " ++ QuestEvent.event_id e ++ ": " ++ QuestEvent.name e ++ " @ "
            ++ match Settings.time_display (User.settings user) with
               | WORLD => w
               | LOCAL => l ++ " (" ++ Realm.name realm ++ ")"
               | BOTH => w ++ " | " ++ l ++ " (" ++ Realm.name realm ++ ")"
               end)%string).
Proof.
  intros Hr shifted.
  assert (Hline : shifted < 0 -> timeline_line self user e = Raise ValueError).
  { intros Hn. unfold timeline_line, local_str, RealmTimeRule.to_local.
    rewrite Hr. now rewrite plus_minutes_neg. }
  split.
  - intros Hn. split; [now apply Hline|].
    intros evs Hin. eapply timeline_lines_raise; [exact Hin | now apply Hline].
  - intros Hp l w. unfold timeline_line, local_str, realm_name_of,
      RealmTimeRule.to_local.
    rewrite Hr. rewrite plus_minutes_ok by exact Hp. simpl.
    destruct (Settings.time_display (User.settings user)); reflexivity.
Qed.

Lemma timeline_local_failure_witness :
  timeline_lines early_realm_store
    (User.mk "alice" (Settings.mk "R2" "classic" WORLD) [] [])
    (_get_campaign_events_by_range early_realm_store timeline_sample_campaign
       WEEK (WorldClockTime.mk 0 0 0))
  = Raise ValueError.
Proof.
  apply (proj2 (proj1 (timeline_local_failure early_realm_store
           (User.mk "alice" (Settings.mk "R2" "classic" WORLD) [] [])
           (QuestEvent.mk "E1" "dawn" (WorldClockTime.mk 0 0 30) None "R2" [] [] [])
           (Realm.mk "R2" "Underdark" "" 0 0 0 (RealmTimeRule.mk (-60) RealmTimeRule.one))
           eq_refl) ltac:(vm_compute; reflexivity))).
  vm_compute. now left.
Defined.

(** The events of a list that start at a given minute, in order. *)
Lemma insert_by_key_ties (k : Z) (e : QuestEvent.t) (l : list QuestEvent.t) :
  filter (fun x => start_key x =? k) (insert_by_key e l)
  = filter (fun x => start_key x =? k) (e :: l).
Proof.
  induction l as [|x l IH]; [reflexivity|].
  cbn [insert_by_key].
  destruct (Z.leb_spec (start_key e) (start_key x)) as [Hle|Hgt];
    [reflexivity|].
  cbn [filter] in *. rewrite IH.
  destruct (Z.eqb_spec (start_key e) k) as [Ee|Ee];
    destruct (Z.eqb_spec (start_key x) k) as [Ex|Ex]; try reflexivity. lia.
Qed.

Lemma sort_by_key_ties (k : Z) (l : list QuestEvent.t) :
  filter (fun x => start_key x =? k) (sort_by_key l)
  = filter (fun x => start_key x =? k) l.
Proof.
  induction l as [|e l IH]; [reflexivity|].
  cbn [sort_by_key]. rewrite insert_by_key_ties. cbn [filter]. now rewrite IH.
Qed.

Lemma query_sorted_filter (self : t) (camp : Campaign.t) (k : TimeRangeType)
    (anchor : WorldClockTime.t) :
  _get_campaign_events_by_range self camp k anchor
  = sort_by_key
      (filter (in_window (WorldClockTime.day anchor * 1440)
                         (WorldClockTime.day anchor * 1440 + range_length k))
              (campaign_events (events self) (Campaign.quest_event_ids camp))).
Proof.
  unfold _get_campaign_events_by_range.
  rewrite range_window_spec. simpl. now rewrite collect_filter.
Qed.

Lemma query_In (self : t) (camp : Campaign.t) (k : TimeRangeType)
    (anchor : WorldClockTime.t) (e : QuestEvent.t) :
  In e (_get_campaign_events_by_range self camp k anchor)
  <-> In e (campaign_events (events self) (Campaign.quest_event_ids camp))
      /\ WorldClockTime.day anchor * 1440 <= start_key e
         < WorldClockTime.day anchor * 1440 + range_length k.
Proof.
  rewrite query_sorted_filter. split.
  - intros Hin.
    apply (Permutation_in _ (Permutation_sym (sort_by_key_perm _))) in Hin.
    apply filter_In in Hin. destruct Hin as [Hin Hw]. split; [exact Hin|].
    unfold in_window in Hw. apply andb_true_iff in Hw. destruct Hw as [H1 H2].
    apply Z.leb_le in H1. apply Z.ltb_lt in H2. lia.
  - intros [Hin Hw]. apply (Permutation_in _ (sort_by_key_perm _)).
    apply filter_In. split; [exact Hin|].
    unfold in_window. apply andb_true_iff.
    split; [apply Z.leb_le | apply Z.ltb_lt]; lia.
Qed.

(** X4. The timeline sort is stable: the events of the result that start
    at one and the same minute stand in the order the campaign lists
    them. *)
Theorem timeline_ties_stable (self : t) (camp : Campaign.t) (k : TimeRangeType)
    (anchor : WorldClockTime.t) (m : Z) :
  filter (fun x => start_key x =? m)
         (_get_campaign_events_by_range self camp k anchor)
  = filter (fun x => start_key x =? m)
      (filter (in_window (WorldClockTime.day anchor * 1440)
                         (WorldClockTime.day anchor * 1440 + range_length k))
              (campaign_events (events self) (Campaign.quest_event_ids camp))).
Proof. rewrite query_sorted_filter. apply sort_by_key_ties. Qed.

(** X5. The four ranges nest and the days tile the week: with one anchor,
    every event of the DAY timeline is in the WEEK timeline, every event
    of that in the MONTH timeline, and every event of that in the YEAR
    timeline; and an event is in the WEEK timeline exactly when it is in
    the DAY timeline of one of the seven days from the anchor's day on. *)
Theorem timeline_windows_nest (self : t) (camp : Campaign.t)
    (anchor : WorldClockTime.t) (e : QuestEvent.t) :
  (In e (_get_campaign_events_by_range self camp DAY anchor) ->
   In e (_get_campaign_events_by_range self camp WEEK anchor))
  /\ (In e (_get_campaign_events_by_range self camp WEEK anchor) ->
      In e (_get_campaign_events_by_range self camp MONTH anchor))
  /\ (In e (_get_campaign_events_by_range self camp MONTH anchor) ->
      In e (_get_campaign_events_by_range self camp YEAR anchor))
  /\ (In e (_get_campaign_events_by_range self camp WEEK anchor)
      <-> exists i,
            0 <= i < 7
            /\ In e (_get_campaign_events_by_range self camp DAY
                       (WorldClockTime.mk (WorldClockTime.day anchor + i) 0 0))).
Proof.
  rewrite !query_In. unfold range_length. simpl WorldClockTime.day.
  split; [|split; [|split]]; try (intros [Hin Hw]; split; [exact Hin | lia]).
  split.
  - intros [Hin Hw].
    exists (start_key e / 1440 - WorldClockTime.day anchor).
    split; [Z.div_mod_to_equations; lia|].
    rewrite query_In. split; [exact Hin|]. simpl WorldClockTime.day.
    unfold range_length. Z.div_mod_to_equations. lia.
  - intros (i & Hi & Hin). rewrite query_In in Hin.
    destruct Hin as [Hin Hw]. simpl WorldClockTime.day in Hw.
    unfold range_length in Hw. split; [exact Hin | lia].
Qed.

Lemma timeline_windows_nest_witness :
  In (QuestEvent.mk "E2" "next" (WorldClockTime.mk 6 0 0) None "R9" [] [] [])
     (_get_campaign_events_by_range timeline_sample_store timeline_sample_campaign
        MONTH (WorldClockTime.mk 5 9 0)).
Proof.
  apply (proj1 (proj2 (timeline_windows_nest timeline_sample_store
           timeline_sample_campaign (WorldClockTime.mk 5 9 0) _))).
  vm_compute. right; right; now left.
Defined.

End TimelineMore.

(** ** Access control, continued *)

Section AccessMore.

Import Spec.
Import Samples.
Import GuildQuestApp.

Lemma lookup_upsert_same (u : string) (p : PermissionLevel) (l : list Share.t) :
  Share.lookup u (Share.upsert u p l) = Some p.
Proof.
  induction l as [|s l IH]; simpl.
  - now rewrite String.eqb_refl.
  - destruct (Share.shared_with_user s =? u)%string eqn:E; simpl; rewrite E;
      [reflexivity | exact IH].
Qed.

Lemma lookup_upsert_other (u v : string) (p : PermissionLevel) (l : list Share.t) :
  v <> u -> Share.lookup v (Share.upsert u p l) = Share.lookup v l.
Proof.
  intros Hne. induction l as [|s l IH]; simpl.
  - destruct (String.eqb_spec u v); [congruence | reflexivity].
  - destruct (String.eqb_spec (Share.shared_with_user s) u) as [E|E]; simpl.
    + destruct (String.eqb_spec (Share.shared_with_user s) v); [congruence|].
      reflexivity.
    + destruct (Share.shared_with_user s =? v)%string; [reflexivity | exact IH].
Qed.

Lemma lookup_without_same (u : string) (l : list Share.t) :
  Share.lookup u (Share.without u l) = None.
Proof.
  induction l as [|s l IH]; simpl; [reflexivity|].
  destruct (Share.shared_with_user s =? u)%string eqn:E; simpl;
    [exact IH | now rewrite E].
Qed.

Lemma lookup_without_other (u v : string) (l : list Share.t) :
  v <> u -> Share.lookup v (Share.without u l) = Share.lookup v l.
Proof.
  intros Hne. induction l as [|s l IH]; simpl; [reflexivity|].
  destruct (String.eqb_spec (Share.shared_with_user s) u) as [E|E]; simpl.
  - destruct (String.eqb_spec (Share.shared_with_user s) v); [congruence|].
    exact IH.
  - destruct (Share.shared_with_user s =? v)%string; [reflexivity | exact IH].
Qed.

(** X6. Event-level sharing, read back through the event's resolver with
    a caller-supplied owner: a share grants the user exactly the level
    given and an unshare takes every grant away, other users keep what
    they had, and the owner resolves to COLLABORATIVE whatever the list
    holds.  Unlike a campaign, an event does not refuse a share for the
    owner: the name is stored in the list. *)
Theorem event_share_lookup (e : QuestEvent.t) (u owner : string)
    (p : PermissionLevel) :
  (u <> owner ->
   QuestEvent.get_permission (QuestEvent.share_with e u p) u owner = Some p
   /\ QuestEvent.get_permission (QuestEvent.unshare_with e u) u owner = None)
  /\ (forall v, v <> u ->
        QuestEvent.get_permission (QuestEvent.share_with e u p) v owner
        = QuestEvent.get_permission e v owner
        /\ QuestEvent.get_permission (QuestEvent.unshare_with e u) v owner
           = QuestEvent.get_permission e v owner)
  /\ QuestEvent.get_permission e owner owner = Some COLLABORATIVE
  /\ In owner (users_of (QuestEvent.shares (QuestEvent.share_with e owner p))).
Proof.
  unfold QuestEvent.get_permission, QuestEvent.share_with,
    QuestEvent.unshare_with; simpl.
  split; [|split; [|split]].
  - intros Hne. apply String.eqb_neq in Hne. rewrite Hne.
    split; [apply lookup_upsert_same | apply lookup_without_same].
  - intros v Hv. destruct (v =? owner)%string; [split; reflexivity|].
    split; [now apply lookup_upsert_other | now apply lookup_without_other].
  - now rewrite String.eqb_refl.
  - apply upsert_users_in. now right.
Qed.

Lemma event_share_lookup_witness :
  QuestEvent.get_permission
    (QuestEvent.share_with
       (QuestEvent.mk "E1" "raid" (WorldClockTime.mk 0 0 0) None "R1" [] [] [])
       "bob" VIEW_ONLY) "bob" "alice"
  = Some VIEW_ONLY.
Proof.
  apply (proj1 (event_share_lookup
    (QuestEvent.mk "E1" "raid" (WorldClockTime.mk 0 0 0) None "R1" [] [] [])
    "bob" "alice" VIEW_ONLY)).
  discriminate.
Defined.

(** X7. Granting and revoking on a PRIVATE campaign: after [share_with]
    a user other than the owner resolves to exactly the level given, can
    view, and can edit iff the level is COLLABORATIVE; after
    [unshare_with] the user resolves to None and cannot view, even when
    the list held several shares for the name; and neither call changes
    what any other user resolves to. *)
Theorem campaign_grant_revoke (c : Campaign.t) (u : string) (p : PermissionLevel) :
  Campaign.visibility c = PRIVATE ->
  u <> Campaign.owner_username c ->
  Campaign.get_permission (Campaign.share_with c u p) u = Some p
  /\ Campaign.can_view (Campaign.share_with c u p) u = true
  /\ Campaign.can_edit (Campaign.share_with c u p) u = PermissionLevel_eqb p COLLABORATIVE
  /\ Campaign.get_permission (Campaign.unshare_with c u) u = None
  /\ Campaign.can_view (Campaign.unshare_with c u) u = false
  /\ (forall v, v <> u ->
        Campaign.get_permission (Campaign.share_with c u p) v
        = Campaign.get_permission c v
        /\ Campaign.get_permission (Campaign.unshare_with c u) v
           = Campaign.get_permission c v).
Proof.
  intros Hpriv Hne. apply String.eqb_neq in Hne.
  assert (Hs : Campaign.get_permission (Campaign.share_with c u p) u = Some p).
  { unfold Campaign.get_permission, Campaign.share_with. rewrite Hne. simpl.
    rewrite Hne, Hpriv. apply lookup_upsert_same. }
  assert (Hu : Campaign.get_permission (Campaign.unshare_with c u) u = None).
  { unfold Campaign.get_permission, Campaign.unshare_with. simpl.
    rewrite Hne, Hpriv. apply lookup_without_same. }
  split; [exact Hs|].
  split; [unfold Campaign.can_view; now rewrite Hs|].
  split; [unfold Campaign.can_edit; now rewrite Hs|].
  split; [exact Hu|].
  split; [unfold Campaign.can_view; now rewrite Hu|].
  intros v Hv. unfold Campaign.get_permission, Campaign.share_with,
    Campaign.unshare_with. rewrite Hne. simpl.
  destruct (v =? Campaign.owner_username c)%string; [split; reflexivity|].
  rewrite Hpriv.
  split; [now apply lookup_upsert_other | now apply lookup_without_other].
Qed.

Lemma campaign_grant_revoke_witness :
  Campaign.get_permission
    (Campaign.unshare_with
       (Campaign.mk "P1" "alice" "Crypt" PRIVATE false []
                    [Share.mk "bob" VIEW_ONLY; Share.mk "bob" COLLABORATIVE]) "bob")
    "bob"
  = None.
Proof.
  apply (campaign_grant_revoke
    (Campaign.mk "P1" "alice" "Crypt" PRIVATE false []
                 [Share.mk "bob" VIEW_ONLY; Share.mk "bob" COLLABORATIVE])
    "bob" VIEW_ONLY); [reflexivity | discriminate].
Defined.

Lemma can_edit_can_view (c : Campaign.t) (u : string) :
  Campaign.can_edit c u = true -> Campaign.can_view c u = true.
Proof.
  unfold Campaign.can_edit, Campaign.can_view.
  destruct (Campaign.get_permission c u); [reflexivity | discriminate].
Qed.

(** X8. The campaign menus: every campaign offered for editing is offered
    for viewing; a campaign is offered for viewing to its owner and, when
    PUBLIC, to everyone; a PUBLIC campaign is offered for editing to its
    owner only, whatever its share list holds. *)
Theorem campaign_menus (self : t) (u k : string) (c : Campaign.t) :
  (In (k, c) (editable_campaigns self u) -> In (k, c) (visible_campaigns self u))
  /\ (In (k, c) (campaigns self) ->
      (u = Campaign.owner_username c ->
       In (k, c) (editable_campaigns self u))
      /\ (Campaign.visibility c = PUBLIC ->
          In (k, c) (visible_campaigns self u)
          /\ (In (k, c) (editable_campaigns self u)
              <-> u = Campaign.owner_username c))).
Proof.
  unfold editable_campaigns, visible_campaigns.
  split.
  - intros H. apply filter_In in H. destruct H as [Hin He].
    apply filter_In. split; [exact Hin | now apply can_edit_can_view].
  - intros Hin. split.
    + intros ->. apply filter_In. split; [exact Hin|]. simpl.
      unfold Campaign.can_edit, Campaign.get_permission.
      now rewrite String.eqb_refl.
    + intros Hpub. split.
      * apply filter_In. split; [exact Hin|]. simpl.
        unfold Campaign.can_view, Campaign.get_permission. rewrite Hpub.
        now destruct (u =? Campaign.owner_username c)%string.
      * rewrite filter_In. simpl.
        unfold Campaign.can_edit, Campaign.get_permission. rewrite Hpub.
        destruct (String.eqb_spec u (Campaign.owner_username c)) as [E|E]; simpl.
        -- split; [intros _; exact E | intros _; split; [exact Hin | reflexivity]].
        -- split; [intros [_ H]; discriminate | intros H; contradiction].
Qed.

Lemma campaign_menus_witness :
  In ("P1", shared_campaign) (visible_campaigns shared_store "carol")
  /\ ~ In ("P1", shared_campaign) (editable_campaigns shared_store "bob").
Proof.
  destruct (proj2 (campaign_menus shared_store "carol" "P1" shared_campaign))
    as [_ H]; [now left|].
  split; [apply H; reflexivity|].
  destruct (proj2 (campaign_menus shared_store "bob" "P1" shared_campaign))
    as [_ H']; [now left|].
  intros Hin. apply (proj2 (H' eq_refl)) in Hin. discriminate Hin.
Defined.

(** X9. The sharing prompts grant nothing to a name that is no user of
    the store, nor for a level that is neither VIEW_ONLY nor
    COLLABORATIVE: the campaign or event is returned as it was.
    Otherwise they are [share_with] at that level.  Either way, a share
    list that named only users of the store still does. *)
Theorem share_prompts_guarded (self : t) (camp : Campaign.t) (e : QuestEvent.t)
    (to_user p : string) :
  (dict_has to_user (users self) = false \/ PermissionLevel_member p = None ->
   _share_campaign self camp to_user p = camp
   /\ _share_event self e to_user p = e)
  /\ (forall level,
        dict_has to_user (users self) = true ->
        PermissionLevel_member p = Some level ->
        _share_campaign self camp to_user p = Campaign.share_with camp to_user level
        /\ _share_event self e to_user p = QuestEvent.share_with e to_user level)
  /\ (shares_known self (Campaign.shares camp) ->
      shares_known self (Campaign.shares (_share_campaign self camp to_user p)))
  /\ (shares_known self (QuestEvent.shares e) ->
      shares_known self (QuestEvent.shares (_share_event self e to_user p))).
Proof.
  unfold _share_campaign, _share_event.
  split; [|split; [|split]].
  - intros [H|H].
    + rewrite H. simpl. now destruct (users self).
    + rewrite H. destruct (users self); destruct (dict_has to_user _); now simpl.
  - intros level Hu Hp. rewrite Hu, Hp. simpl.
    destruct (users self) eqn:E; [|split; reflexivity].
    cbv in Hu. discriminate Hu.
  - intros Hk.
    destruct (users self) eqn:E; [exact Hk|]. rewrite <- E in *.
    destruct (dict_has to_user (users self)) eqn:Hu; simpl; [|exact Hk].
    destruct (PermissionLevel_member p) as [level|]; [|exact Hk].
    unfold Campaign.share_with.
    destruct (to_user =? Campaign.owner_username camp)%string; [exact Hk|].
    simpl. intros u Hin. apply upsert_users_in in Hin.
    destruct Hin as [Hin| ->]; [now apply Hk | exact Hu].
  - intros Hk.
    destruct (dict_has to_user (users self)) eqn:Hu; simpl; [|exact Hk].
    destruct (PermissionLevel_member p) as [level|]; [|exact Hk].
    simpl. intros u Hin. apply upsert_users_in in Hin.
    destruct Hin as [Hin| ->]; [now apply Hk | exact Hu].
Qed.

Lemma share_prompts_guarded_witness :
  _share_campaign unshared_store shared_campaign "mallory" "COLLABORATIVE"
  = shared_campaign
  /\ Campaign.shares
       (_share_campaign unshared_store shared_campaign "bob" "COLLABORATIVE")
     = [Share.mk "bob" COLLABORATIVE].
Proof.
  split; [|reflexivity].
  apply (proj1 (share_prompts_guarded unshared_store shared_campaign
    (QuestEvent.mk "E1" "raid" (WorldClockTime.mk 0 0 0) None "R1" [] [] [])
    "mallory" "COLLABORATIVE")).
  left; reflexivity.
Defined.

End AccessMore.

(** ** Inventories, continued *)

Section InventoryMore.

Import Spec.
Import Samples.
Import GuildQuestApp.

Lemma remove_loop_count (nm : string) (qty : Z) (rest : list InventoryItem.t) :
  forall (pre : list InventoryItem.t) (removed : Z),
    (forall y, In y pre -> InventoryItem.name y <> nm) ->
    Character.remove_loop rest nm qty (pre ++ rest) removed
    = Ok (pre ++ remove_first_named nm (Z.to_nat (qty - removed)) rest,
          removed + Z.of_nat (Nat.min (Z.to_nat (qty - removed))
                                      (count_named nm rest))).
Proof.
  unfold count_named.
  induction rest as [|it rest IH]; intros pre removed Hpre; simpl.
  - rewrite Nat.min_0_r. simpl. now rewrite Z.add_0_r.
  - destruct (Z.leb_spec qty removed) as [Hle|Hgt].
    + replace (Z.to_nat (qty - removed)) with O by lia. simpl.
      rewrite Z.add_0_r.
      destruct (InventoryItem.name it =? nm)%string;
        [|rewrite remove_first_named_zero]; reflexivity.
    + destruct (String.eqb_spec (InventoryItem.name it) nm) as [E|E].
      * rewrite list_remove_here by (intros y Hy; rewrite E; now apply Hpre).
        simpl. replace (Z.to_nat (qty - removed))
          with (S (Z.to_nat (qty - (removed + 1)))) by lia.
        rewrite (IH pre (removed + 1) Hpre). simpl List.length.
        rewrite <- Nat.succ_min_distr. f_equal. f_equal. lia.
      * replace (pre ++ it :: rest) with ((pre ++ [it]) ++ rest)
          by (now rewrite <- app_assoc).
        rewrite IH.
        -- now rewrite <- app_assoc.
        -- intros y Hy. apply in_app_or in Hy. destruct Hy as [Hy|[<-|[]]];
             [now apply Hpre | exact E].
Qed.

Lemma remove_first_named_length (nm : string) (inv : list InventoryItem.t) :
  forall n,
    (List.length (remove_first_named nm n inv) + Nat.min n (count_named nm inv)
     = List.length inv)%nat.
Proof.
  unfold count_named.
  induction inv as [|it inv IH]; intros n; simpl; [now rewrite Nat.min_0_r|].
  destruct (InventoryItem.name it =? nm)%string; simpl.
  - destruct n as [|n]; simpl; [lia|]. specialize (IH n). lia.
  - specialize (IH n). lia.
Qed.

Lemma remove_first_named_others (nm : string) (inv : list InventoryItem.t) :
  forall n, others nm (remove_first_named nm n inv) = others nm inv.
Proof.
  unfold others.
  induction inv as [|it inv IH]; intros n; simpl; [reflexivity|].
  destruct (InventoryItem.name it =? nm)%string eqn:E; simpl.
  - destruct n as [|n]; simpl; [now rewrite E | apply IH].
  - rewrite E. simpl. now rewrite IH.
Qed.

(** X10. [remove_item_by_name] never raises.  It returns the number of
    items it removed, which is [qty] or the number of items of that name
    when there are fewer (and zero for a [qty] of zero or less); the
    inventory shrinks by that number; and the items of other names stay,
    in their order. *)
Theorem remove_item_count (ch : Character.t) (nm : string) (qty : Z) :
  exists inv',
    Character.remove_item_by_name ch nm qty
    = Ok (Character.set_inventory ch inv',
          Z.of_nat (Nat.min (Z.to_nat qty) (count_named nm (Character.inventory ch))))
    /\ (List.length inv'
        + Nat.min (Z.to_nat qty) (count_named nm (Character.inventory ch))
        = List.length (Character.inventory ch))%nat
    /\ others nm inv' = others nm (Character.inventory ch)
    /\ (qty <= 0 -> inv' = Character.inventory ch).
Proof.
  exists (remove_first_named nm (Z.to_nat qty) (Character.inventory ch)).
  split; [|split; [|split]].
  - unfold Character.remove_item_by_name.
    pose proof (remove_loop_count nm qty (Character.inventory ch) [] 0) as H.
    cbn [app] in H. rewrite H by (intros y []).
    cbn [bind fst snd]. now rewrite Z.sub_0_r.
  - apply remove_first_named_length.
  - apply remove_first_named_others.
  - intros H. replace (Z.to_nat qty) with O by lia.
    apply remove_first_named_zero.
Qed.

Lemma remove_item_count_witness :
  Character.remove_item_by_name
    (Character.mk "C1" "Ayla" "Mage" 2 [potion; sword; potion']) "potion" 0
  = Ok (Character.mk "C1" "Ayla" "Mage" 2 [potion; sword; potion'], 0).
Proof.
  destruct (remove_item_count
    (Character.mk "C1" "Ayla" "Mage" 2 [potion; sword; potion']) "potion" 0)
    as (inv' & Hrun & _ & _ & Hsame).
  rewrite Hrun, (Hsame ltac:(lia)). reflexivity.
Defined.

Lemma blank_dict_set (k : string) (v v' : Character.t) (cs : dict Character.t) :
  dict_get k cs = Some v ->
  Character.set_inventory v' [] = Character.set_inventory v [] ->
  blank_inventories (dict_set k v' cs) = blank_inventories cs.
Proof.
  unfold blank_inventories.
  induction cs as [|[k0 v0] cs IH]; simpl; [discriminate|].
  destruct (k0 =? k)%string; intros Hget Hb; simpl.
  - injection Hget as ->. now rewrite Hb.
  - now rewrite IH.
Qed.

Lemma change_target_blank (chg : InventoryChange.t) (cs : dict Character.t)
    (cid : string) :
  blank_inventories (change_target chg cs cid) = blank_inventories cs.
Proof.
  unfold change_target. destruct (dict_get cid cs) as [ch|] eqn:E; [|reflexivity].
  apply (blank_dict_set cid ch); [exact E | now destruct ch].
Qed.

Lemma change_target_other (chg : InventoryChange.t) (cs : dict Character.t)
    (cid k : string) :
  k <> cid -> dict_get k (change_target chg cs cid) = dict_get k cs.
Proof.
  intros Hne. unfold change_target.
  destruct (dict_get cid cs); [now apply dict_get_set_other | reflexivity].
Qed.

Lemma fold_targets_frame (chg : InventoryChange.t) (targets : list string) :
  forall cs,
    blank_inventories (fold_left (change_target chg) targets cs)
    = blank_inventories cs
    /\ forall k, ~ In k targets ->
         dict_get k (fold_left (change_target chg) targets cs) = dict_get k cs.
Proof.
  induction targets as [|t targets IH]; intros cs; simpl; [now split|].
  destruct (IH (change_target chg cs t)) as [Hb Hg]. split.
  - now rewrite Hb, change_target_blank.
  - intros k Hk. rewrite Hg by (intros Hin; apply Hk; now right).
    apply change_target_other. intros ->. apply Hk. now left.
Qed.

Lemma changes_applied_frame (e : QuestEvent.t) (chgs : list InventoryChange.t) :
  forall cs,
    let cs' := fold_left
                 (fun cs chg => fold_left (change_target chg) (named_targets e chg) cs)
                 chgs cs in
    blank_inventories cs' = blank_inventories cs
    /\ forall k, (forall chg, In chg chgs -> ~ In k (named_targets e chg)) ->
         dict_get k cs' = dict_get k cs.
Proof.
  induction chgs as [|chg chgs IH]; intros cs; simpl; [now split|].
  destruct (IH (fold_left (change_target chg) (named_targets e chg) cs))
    as [Hb Hg].
  destruct (fold_targets_frame chg (named_targets e chg) cs) as [Hb' Hg'].
  split.
  - now rewrite Hb, Hb'.
  - intros k Hk. rewrite Hg by (intros c Hc; apply Hk; now right).
    apply Hg'. apply Hk. now left.
Qed.

(** X11. Applying an event's inventory changes touches inventories only:
    it returns a store whose users, realms, campaigns, events, counters
    and current user are those it started from, whose characters dict has
    the same keys in the same order with every field but [inventory] as
    before, and in which a character that is no target of any change is
    exactly as before; an event without changes leaves the store as it
    was. *)
Theorem inventory_changes_frame (self : t) (e : QuestEvent.t) :
  exists cs',
    _apply_event_inventory_changes self e = Ok (set_characters self cs')
    /\ blank_inventories cs' = blank_inventories (characters self)
    /\ (forall k,
          (forall chg, In chg (QuestEvent.inventory_changes e) ->
                       ~ In k (named_targets e chg)) ->
          dict_get k cs' = dict_get k (characters self))
    /\ (QuestEvent.inventory_changes e = [] -> set_characters self cs' = self).
Proof.
  exists (fold_left
            (fun cs chg => fold_left (change_target chg) (named_targets e chg) cs)
            (QuestEvent.inventory_changes e) (characters self)).
  destruct (changes_applied_frame e (QuestEvent.inventory_changes e)
              (characters self)) as [Hb Hg].
  split; [|split; [exact Hb | split; [exact Hg|]]].
  - unfold _apply_event_inventory_changes. now rewrite apply_changes_spec.
  - intros ->. simpl. now destruct self.
Qed.

Lemma inventory_changes_frame_witness :
  exists cs',
    _apply_event_inventory_changes inventory_sample_store
      (QuestEvent.mk "E1" "raid" (WorldClockTime.mk 0 0 0) None "R1"
         ["C1"; "C7"] [] [InventoryChange.mk sword 2 None])
    = Ok (set_characters inventory_sample_store cs')
    /\ dict_get "C2" cs' = Some (Character.mk "C2" "Bram" "Rogue" 1 []).
Proof.
  destruct (inventory_changes_frame inventory_sample_store
    (QuestEvent.mk "E1" "raid" (WorldClockTime.mk 0 0 0) None "R1"
       ["C1"; "C7"] [] [InventoryChange.mk sword 2 None]))
    as (cs' & Hrun & _ & Hother & _).
  exists cs'. split; [exact Hrun|].
  rewrite Hother; [reflexivity|].
  intros chg [<-|[]]. simpl. intros [H|[H|[]]]; discriminate H.
Defined.

End InventoryMore.

(** ** Identifiers, menus and sessions *)

Section SessionFacts.

Import Spec.
Import Samples.
Import GuildQuestApp.

Lemma dec_inj (a b : Z) : WorldClockTime.dec a = WorldClockTime.dec b -> a = b.
Proof.
  unfold WorldClockTime.dec. intros H.
  assert (Hn : forall z, Z.to_int z <> Decimal.Pos Decimal.Nil
                         /\ Z.to_int z <> Decimal.Neg Decimal.Nil).
  { intros [|q|q]; simpl; split; try discriminate;
      intros E; injection E as E; now apply DecimalPos.Unsigned.to_uint_nonnil in E. }
  apply DecimalZ.to_int_inj.
  assert (E : Some (Z.to_int a) = Some (Z.to_int b)).
  { rewrite <- (NilZero.isi (Z.to_int a)) by apply Hn.
    rewrite <- (NilZero.isi (Z.to_int b)) by apply Hn. now rewrite H. }
  now injection E.
Qed.

Lemma append_inj (p a b : string) : (p ++ a = p ++ b)%string -> a = b.
Proof.
  induction p as [|c p IH]; simpl; intros H; [exact H|].
  injection H as H. now apply IH.
Qed.

Lemma new_id_counter (self : t) (k p k' : string) :
  counter (fst (_new_id self k p)) k'
  = if (k =? k')%string then counter self k + 1 else counter self k'.
Proof.
  unfold counter, _new_id; simpl.
  destruct (String.eqb_spec k k') as [->|Hne].
  - now rewrite dict_get_set_same.
  - rewrite dict_get_set_other by congruence. reflexivity.
Qed.

Lemma allocate_cons (pf : string -> string) (self : t) (k : string)
    (ks : list string) :
  allocate pf self (k :: ks)
  = (fst (allocate pf (fst (_new_id self k (pf k))) ks),
     (k, snd (_new_id self k (pf k)))
       :: snd (allocate pf (fst (_new_id self k (pf k))) ks)).
Proof.
  cbn [allocate]. unfold _new_id at 1. cbn [fst snd].
  now destruct (allocate pf _ ks).
Qed.

Lemma allocate_bounds (pf : string -> string) (k : string) (ks : list string) :
  forall self,
    counter self k <= counter (fst (allocate pf self ks)) k
    /\ forall id,
         In id (ids_of_kind k (snd (allocate pf self ks))) ->
         exists n, id = (pf k ++ WorldClockTime.dec n)%string
                   /\ counter self k <= n < counter (fst (allocate pf self ks)) k.
Proof.
  induction ks as [|k0 ks IH]; intros self.
  - simpl. split; [lia | intros id []].
  - rewrite allocate_cons. cbn [fst snd].
    destruct (IH (fst (_new_id self k0 (pf k0)))) as [Hle Hids].
    rewrite new_id_counter in Hle, Hids.
    unfold ids_of_kind in *. cbn [filter fst].
    destruct (String.eqb_spec k0 k) as [->|Hne].
    + split; [lia|]. cbn [map snd]. intros id [<-|Hin].
      * exists (counter self k). split; [reflexivity | lia].
      * destruct (Hids id Hin) as (n & -> & Hn). exists n. split; [reflexivity | lia].
    + split; [exact Hle | exact Hids].
Qed.

Lemma allocate_nodup (pf : string -> string) (k : string) (ks : list string) :
  forall self, NoDup (ids_of_kind k (snd (allocate pf self ks))).
Proof.
  induction ks as [|k0 ks IH]; intros self.
  - constructor.
  - rewrite allocate_cons. cbn [snd]. unfold ids_of_kind in *. cbn [filter fst].
    destruct (String.eqb_spec k0 k) as [->|Hne]; [|apply IH].
    cbn [map snd]. constructor; [|apply IH].
    intros Hin.
    destruct (proj2 (allocate_bounds pf k ks (fst (_new_id self k (pf k)))) _ Hin)
      as (n & E & Hn).
    rewrite new_id_counter, String.eqb_refl in Hn.
    unfold _new_id in E. cbn [snd] in E.
    apply append_inj, dec_inj in E. unfold counter in *. lia.
Qed.

(** X12. Identifiers are never reused: in any run of allocations, of any
    kinds in any order, the identifiers handed out for one kind are
    pairwise different; each is the kind's prefix followed by a number
    that is at least the counter the run started with and below the
    counter it ends with; and a counter never goes down. *)
Theorem new_id_never_reused (pf : string -> string) (self : t)
    (ks : list string) (k : string) :
  NoDup (ids_of_kind k (snd (allocate pf self ks)))
  /\ counter self k <= counter (fst (allocate pf self ks)) k
  /\ forall id,
       In id (ids_of_kind k (snd (allocate pf self ks))) ->
       exists n, id = (pf k ++ WorldClockTime.dec n)%string
                 /\ counter self k <= n < counter (fst (allocate pf self ks)) k.
Proof.
  split; [apply allocate_nodup | apply allocate_bounds].
Qed.

Lemma new_id_never_reused_witness :
  ids_of_kind "event"
    (snd (allocate (fun k => if (k =? "event")%string then "E" else "C")
            new_store ["event"; "char"; "event"; "event"]))
  = ["E1"; "E2"; "E3"]
  /\ exists n, "E3" = ("E" ++ WorldClockTime.dec n)%string /\ 1 <= n < 4.
Proof.
  split; [reflexivity|].
  apply (proj2 (proj2 (new_id_never_reused
    (fun k => if (k =? "event")%string then "E" else "C")
    new_store ["event"; "char"; "event"; "event"] "event")) "E3").
  vm_compute. right; right; now left.
Defined.

Lemma py_index_in_range {A : Type} (l : list A) (i : Z) :
  0 <= i < Z.of_nat (List.length l) ->
  exists x, py_index l i = Some x /\ nth_error l (Z.to_nat i) = Some x.
Proof.
  intros H. unfold py_index.
  destruct (Z.leb_spec 0 i); [|lia].
  destruct (Z.ltb_spec i (Z.of_nat (List.length l))); [|lia]. simpl.
  destruct (nth_error l (Z.to_nat i)) as [x|] eqn:E; [now exists x|].
  apply nth_error_None in E. lia.
Qed.

(** X13. A menu choice within the range the prompt enforces, from 0 to
    the number of items, never raises: on no items and on 0 the menu
    returns None, and on a choice from 1 on it returns the id of the item
    at that position, which is one of the ids offered. *)
Theorem pick_from_list_in_range (items : list (string * string)) (choice : Z) :
  0 <= choice <= Z.of_nat (List.length items) ->
  (choice = 0 -> _pick_from_list items choice = Some None)
  /\ (1 <= choice ->
      exists it,
        nth_error items (Z.to_nat (choice - 1)) = Some it
        /\ _pick_from_list items choice = Some (Some (fst it))
        /\ In (fst it) (map fst items)).
Proof.
  intros Hr. unfold _pick_from_list. split.
  - intros ->. now destruct items.
  - intros H1. destruct items as [|it0 items]; [simpl in Hr; lia|].
    destruct (Z.eqb_spec choice 0); [lia|].
    destruct (py_index_in_range (it0 :: items) (choice - 1)) as (x & Hx & Hn);
      [lia|].
    exists x. rewrite Hx. split; [exact Hn | split; [reflexivity|]].
    apply in_map. eapply nth_error_In; exact Hn.
Qed.

Lemma pick_from_list_in_range_witness :
  exists it,
    nth_error [("R1", "R1 Earth"); ("R2", "R2 Underdark")] (Z.to_nat (2 - 1)) = Some it
    /\ _pick_from_list [("R1", "R1 Earth"); ("R2", "R2 Underdark")] 2
       = Some (Some (fst it))
    /\ In (fst it) (map fst [("R1", "R1 Earth"); ("R2", "R2 Underdark")]).
Proof.
  apply (pick_from_list_in_range [("R1", "R1 Earth"); ("R2", "R2 Underdark")] 2);
    simpl; lia.
Defined.

Lemma keys_dict_has {V : Type} (k : string) (d : dict V) :
  In k (keys d) -> dict_has k d = true.
Proof.
  intros Hin. unfold dict_has.
  destruct (dict_get k d) eqn:E; [reflexivity|].
  apply dict_get_keys in E. contradiction.
Qed.

Lemma ensure_default_realm_spec (self : t) :
  realms (ensure_default_realm self) <> []
  /\ users (ensure_default_realm self) = users self
  /\ current_user (ensure_default_realm self) = current_user self
  /\ (realms self <> [] -> ensure_default_realm self = self).
Proof.
  unfold ensure_default_realm.
  destruct (realms self) as [|r rs] eqn:E.
  - unfold _new_id. cbn [set_realms set_id_counters realms users current_user].
    rewrite E. cbn [dict_set].
    repeat split; try discriminate. intros H; now elim H.
  - rewrite E. repeat split; discriminate.
Qed.

(** X14. [create_user] never raises.  An empty name and a name already in
    use leave the store as it was.  Any other name is stored as a new
    user with theme classic, WORLD display and no campaigns or
    characters, whose current realm is a realm of the store (the default
    realm is made first when there was none); that user becomes the
    current user; and the entries of the other users are untouched. *)
Theorem create_user_session (self : t) (username : string) :
  (username = "" \/ dict_has username (users self) = true ->
   create_user self username = Some self)
  /\ (username <> "" -> dict_has username (users self) = false ->
      exists s' rid,
        create_user self username = Some s'
        /\ current_user s' = Some username
        /\ dict_get username (users s')
           = Some (User.mk username (Settings.mk rid "classic" WORLD) [] [])
        /\ dict_has rid (realms s') = true
        /\ require_login s'
           = Some (User.mk username (Settings.mk rid "classic" WORLD) [] [])
        /\ (forall v, v <> username ->
              dict_get v (users s') = dict_get v (users self))
        /\ (realms self <> [] -> realms s' = realms self)).
Proof.
  unfold create_user, truthy. split.
  - intros [->|H]; [reflexivity|]. rewrite H.
    now destruct (username =? "")%string.
  - intros Hne Hnew. apply String.eqb_neq in Hne. rewrite Hne, Hnew. simpl.
    destruct (ensure_default_realm_spec self) as (Hr & Hu & _ & Hsame).
    destruct (realms (ensure_default_realm self)) as [|[rid r] rs] eqn:E;
      [now elim Hr|].
    eexists. exists rid. split; [reflexivity|].
    cbn [set_current_user set_users current_user users realms].
    split; [reflexivity|]. split; [apply dict_get_set_same|].
    split; [rewrite E; unfold dict_has; simpl; now rewrite String.eqb_refl|].
    split.
    + unfold require_login, truthy.
      cbn [set_current_user set_users current_user users].
      rewrite Hne. simpl. apply dict_get_set_same.
    + split.
      * intros v Hv. rewrite dict_get_set_other by exact Hv. now rewrite Hu.
      * intros Hrs. rewrite E. rewrite (Hsame Hrs) in E. now rewrite E.
Qed.

Lemma create_user_session_witness :
  exists s' rid,
    create_user new_store "alice" = Some s'
    /\ current_user s' = Some "alice"
    /\ dict_get "alice" (users s')
       = Some (User.mk "alice" (Settings.mk rid "classic" WORLD) [] [])
    /\ dict_has rid (realms s') = true
    /\ require_login s'
       = Some (User.mk "alice" (Settings.mk rid "classic" WORLD) [] [])
    /\ (forall v, v <> "alice" ->
          dict_get v (users s') = dict_get v (users new_store))
    /\ (realms new_store <> [] -> realms s' = realms new_store).
Proof.
  apply (proj2 (create_user_session new_store "alice"));
    [discriminate | reflexivity].
Defined.

Lemma require_login_Some (self : t) (user : User.t) :
  require_login self = Some user ->
  exists k, current_user self = Some k /\ k <> ""
            /\ dict_get k (users self) = Some user.
Proof.
  unfold require_login, truthy.
  destruct (current_user self) as [k|]; [|discriminate].
  destruct (String.eqb_spec k "") as [->|Hne]; simpl; [discriminate|].
  intros H. now exists k.
Qed.

(** X15. [create_campaign] does nothing without a logged-in user.  With
    one, it stores under the next campaign identifier a PRIVATE,
    unarchived campaign without events or shares, owned by that user: the
    owner resolves to COLLABORATIVE on it and every other name to None.
    The identifier is appended to the user's [campaign_ids], the campaign
    counter goes up by one, and the campaigns stored under other
    identifiers are untouched. *)
Theorem create_campaign_owned (self : t) (name : string) :
  (require_login self = None -> create_campaign self name = self)
  /\ (forall user,
        require_login self = Some user ->
        let cid := ("P" ++ WorldClockTime.dec (counter self "campaign"))%string in
        let s' := create_campaign self name in
        let camp := Campaign.mk cid (User.username user) (str_or name cid)
                                PRIVATE false [] [] in
        dict_get cid (campaigns s') = Some camp
        /\ Campaign.get_permission camp (User.username user) = Some COLLABORATIVE
        /\ (forall v, v <> User.username user ->
              Campaign.get_permission camp v = None)
        /\ require_login s'
           = Some (User.set_campaign_ids user (User.campaign_ids user ++ [cid]))
        /\ counter s' "campaign" = counter self "campaign" + 1
        /\ (forall k, k <> cid ->
              dict_get k (campaigns s') = dict_get k (campaigns self))).
Proof.
  unfold create_campaign. split; [now intros ->|].
  intros user Hlogin. rewrite Hlogin.
  destruct (require_login_Some self user Hlogin) as (k & Hk & Hne & Hget).
  unfold _new_id, update_current_user, counter.
  cbn [set_campaigns set_id_counters set_users current_user campaigns users
       _id_counters].
  rewrite Hk.
  cbn [set_campaigns set_id_counters set_users current_user campaigns users
       _id_counters].
  split; [apply dict_get_set_same|].
  split; [unfold Campaign.get_permission; simpl; now rewrite String.eqb_refl|].
  split.
  - intros v Hv. unfold Campaign.get_permission; simpl.
    apply String.eqb_neq in Hv. now rewrite Hv.
  - split.
    + unfold require_login, truthy.
      cbn [set_campaigns set_id_counters set_users current_user campaigns
           users _id_counters].
      rewrite Hk. apply String.eqb_neq in Hne. rewrite Hne. simpl.
      apply dict_get_set_same.
    + split; [now rewrite dict_get_set_same|].
      intros k' Hk'. now apply dict_get_set_other.
Qed.

Lemma create_campaign_owned_witness :
  dict_get "P2" (campaigns (create_campaign unshared_store ""))
  = Some (Campaign.mk "P2" "alice" "P2" PRIVATE false [] []).
Proof.
  apply (proj1 (proj2 (create_campaign_owned unshared_store "") alice eq_refl)).
Defined.

Lemma py_index_In {A : Type} (l : list A) (i : Z) (x : A) :
  py_index l i = Some x -> In x l.
Proof.
  unfold py_index.
  destruct ((0 <=? i) && (i <? Z.of_nat (List.length l)));
    [apply nth_error_In|].
  destruct ((- Z.of_nat (List.length l) <=? i) && (i <? 0));
    [apply nth_error_In | discriminate].
Qed.

Lemma pick_from_list_In (items : list (string * string)) (choice : Z) (id : string) :
  _pick_from_list items choice = Some (Some id) -> In id (map fst items).
Proof.
  unfold _pick_from_list. destruct items as [|it0 items]; [discriminate|].
  destruct (choice =? 0); [discriminate|].
  destruct (py_index (it0 :: items) (choice - 1)) as [x|] eqn:E; [|discriminate].
  cbn [option_map]. intros H. injection H as <-.
  apply (in_map fst). now apply py_index_In in E.
Qed.

(** X16. The session operations never leave a dangling current user: if
    the current user is None, blank or a user of the store, it still is
    after [create_user], [login], [create_character], [create_campaign]
    and [create_realm]; and after a [login] that picked a name, that name
    is a user of the store. *)
Theorem session_current_user_kept (self : t) :
  current_user_known_or_blank self ->
  (forall username s',
      create_user self username = Some s' -> current_user_known_or_blank s')
  /\ (forall choice s',
        login self choice = Some s' ->
        current_user_known_or_blank s'
        /\ (current_user s' = current_user self
            \/ exists k, current_user s' = Some k
                         /\ dict_has k (users self) = true))
  /\ (forall name cls level,
        current_user_known_or_blank (create_character self name cls level))
  /\ (forall name, current_user_known_or_blank (create_campaign self name))
  /\ (forall name desc map_id x y offset,
        current_user_known_or_blank (create_realm self name desc map_id x y offset)).
Proof.
  intros HK. split; [|split; [|split; [|split]]].
  - intros username s'. unfold create_user.
    destruct (negb (truthy username)); [intros H; injection H as <-; exact HK|].
    destruct (dict_has username (users self));
      [intros H; injection H as <-; exact HK|].
    destruct (realms (ensure_default_realm self)) as [|[rid r] rs];
      [discriminate|].
    intros H. injection H as <-. right; right. exists username.
    split; [reflexivity|]. simpl. unfold dict_has. now rewrite dict_get_set_same.
  - intros choice s'. unfold login.
    destruct (users self) as [|u0 us] eqn:E;
      [intros H; injection H as <-; split; [exact HK | now left]|].
    rewrite <- E.
    destruct (_pick_from_list (map (fun p => (fst p, fst p)) (users self)) choice)
      as [[chosen|]|] eqn:Hp; [| |discriminate].
    + apply pick_from_list_In in Hp. rewrite map_map in Hp. simpl in Hp.
      apply keys_dict_has in Hp.
      destruct (truthy chosen); intros H; injection H as <-;
        [|split; [exact HK | now left]].
      split; [right; right|right]; exists chosen; split;
        try reflexivity; exact Hp.
    + intros H; injection H as <-. split; [exact HK | now left].
  - intros name cls level. unfold create_character.
    destruct (require_login self) as [user|] eqn:Hl; [|exact HK].
    destruct (require_login_Some self user Hl) as (k & Hk & _ & _).
    unfold _new_id, update_current_user.
    cbn [set_characters set_id_counters current_user]. rewrite Hk.
    right; right. exists k. split; [exact Hk|].
    simpl. unfold dict_has. now rewrite dict_get_set_same.
  - intros name. unfold create_campaign.
    destruct (require_login self) as [user|] eqn:Hl; [|exact HK].
    destruct (require_login_Some self user Hl) as (k & Hk & _ & _).
    unfold _new_id, update_current_user.
    cbn [set_campaigns set_id_counters current_user]. rewrite Hk.
    right; right. exists k. split; [exact Hk|].
    simpl. unfold dict_has. now rewrite dict_get_set_same.
  - intros name desc map_id x y offset. exact HK.
Qed.

Lemma session_current_user_kept_witness :
  current_user_known_or_blank
    (create_character unshared_store "Cora" "" 3).
Proof.
  apply (session_current_user_kept unshared_store).
  right; right. exists "alice". split; reflexivity.
Defined.

End SessionFacts.

(** ** Events of a campaign *)

Section EventFacts.

Import Spec.
Import Samples.
Import GuildQuestApp.

Lemma str_in_In (x : string) (l : list string) : str_in x l = true <-> In x l.
Proof.
  induction l as [|y l IH]; simpl; [split; [discriminate | intros []]|].
  rewrite orb_true_iff, IH, String.eqb_eq. reflexivity.
Qed.

Lemma str_remove_In (x : string) (l : list string) :
  In x l ->
  exists l', str_remove x l = Some l' /\ List.length l = S (List.length l').
Proof.
  induction l as [|y l IH]; simpl; [intros []|].
  destruct (String.eqb_spec y x) as [->|Hne].
  - intros _. now exists l.
  - intros [E|Hin]; [contradiction|].
    destruct (IH Hin) as (l' & -> & Hlen). exists (y :: l'). simpl.
    split; [reflexivity | now rewrite Hlen].
Qed.

Lemma str_remove_NoDup (x : string) (l l' : list string) :
  NoDup l -> str_remove x l = Some l' ->
  NoDup l' /\ ~ In x l' /\ (forall y, In y l' -> In y l).
Proof.
  revert l'. induction l as [|y l IH]; simpl; intros l' Hnd; [discriminate|].
  inversion Hnd as [|? ? Hnin Hnd']; subst.
  destruct (String.eqb_spec y x) as [->|Hne].
  - intros H. injection H as <-. repeat split; try assumption.
    intros z Hz. now right.
  - destruct (str_remove x l) as [r|]; [|discriminate].
    simpl. intros H. injection H as <-.
    destruct (IH r Hnd' eq_refl) as (H1 & H2 & H3).
    split; [constructor; [intros Hin; apply Hnin; now apply H3 | exact H1]|].
    split; [intros [E|Hin]; [congruence | contradiction]|].
    intros z [->|Hz]; [now left | right; now apply H3].
Qed.

Lemma dict_del_same {V : Type} (k : string) (d : dict V) :
  NoDup (keys d) -> dict_get k (dict_del k d) = None.
Proof.
  unfold keys.
  induction d as [|[k' v] d IH]; simpl; intros Hnd; [reflexivity|].
  inversion Hnd as [|? ? Hnin Hnd']; subst.
  destruct (String.eqb_spec k' k) as [->|Hne].
  - now apply dict_get_keys.
  - simpl. destruct (String.eqb_spec k' k); [contradiction | now apply IH].
Qed.

Lemma dict_del_other {V : Type} (k k' : string) (d : dict V) :
  k' <> k -> dict_get k' (dict_del k d) = dict_get k' d.
Proof.
  intros Hne. induction d as [|[k0 v] d IH]; simpl; [reflexivity|].
  destruct (String.eqb_spec k0 k) as [->|E]; simpl.
  - destruct (String.eqb_spec k k'); [congruence | reflexivity].
  - destruct (k0 =? k')%string; [reflexivity | exact IH].
Qed.

Lemma event_menu_In (self : t) (camp : Campaign.t) (eid : string) :
  In eid (map fst (event_menu self camp)) ->
  In eid (Campaign.quest_event_ids camp) /\ dict_has eid (events self) = true.
Proof.
  unfold event_menu, dict_has.
  induction (Campaign.quest_event_ids camp) as [|i ids IH]; simpl; [intros []|].
  destruct (dict_get i (events self)) as [e|] eqn:E; simpl.
  - intros [<-|Hin]; [split; [now left | now rewrite E]|].
    destruct (IH Hin). split; [now right | assumption].
  - intros Hin. destruct (IH Hin). split; [now right | assumption].
Qed.

(** X17. Removing an event from a campaign, with a menu choice in range
    and unique keys in the event store: the choice 0 changes nothing; a
    choice from 1 on never raises, and for the id at that position of the
    menu (unless it is the empty string, which is taken for no choice) it
    drops the first occurrence of the id from the campaign's list, which
    gets one shorter, and deletes the event from the store, leaving the
    events under other ids untouched. *)
Theorem remove_event_deletes (self : t) (camp : Campaign.t) (choice : Z) :
  NoDup (keys (events self)) ->
  0 <= choice <= Z.of_nat (List.length (event_menu self camp)) ->
  (choice = 0 -> remove_event_from_campaign self camp choice = Some (self, camp))
  /\ (1 <= choice ->
      exists eid,
        nth_error (map fst (event_menu self camp)) (Z.to_nat (choice - 1)) = Some eid
        /\ (eid = "" ->
            remove_event_from_campaign self camp choice = Some (self, camp))
        /\ (eid <> "" ->
            exists s' camp',
              remove_event_from_campaign self camp choice = Some (s', camp')
              /\ str_remove eid (Campaign.quest_event_ids camp)
                 = Some (Campaign.quest_event_ids camp')
              /\ List.length (Campaign.quest_event_ids camp)
                 = S (List.length (Campaign.quest_event_ids camp'))
              /\ dict_get eid (events s') = None
              /\ (forall k, k <> eid ->
                    dict_get k (events s') = dict_get k (events self)))).
Proof.
  intros Hnd Hr. unfold remove_event_from_campaign. split.
  - intros ->. unfold _pick_from_list. now destruct (event_menu self camp).
  - intros H1. unfold _pick_from_list.
    destruct (event_menu self camp) as [|it0 items] eqn:Em; [simpl in Hr; lia|].
    destruct (Z.eqb_spec choice 0); [lia|].
    destruct (py_index_in_range (it0 :: items) (choice - 1)) as (x & Hx & Hn);
      [lia|].
    rewrite Hx. cbn [option_map]. exists (fst x).
    split; [now apply map_nth_error|].
    assert (Hin : In (fst x) (map fst (event_menu self camp))).
    { rewrite Em. apply (in_map fst). eapply nth_error_In; exact Hn. }
    apply event_menu_In in Hin. destruct Hin as [Hids Hhas].
    unfold truthy. split.
    + intros ->. reflexivity.
    + intros Hne. apply String.eqb_neq in Hne. rewrite Hne. cbn [negb].
      destruct (str_remove_In _ _ Hids) as (ids' & Hrem & Hlen).
      rewrite Hrem, Hhas.
      eexists. eexists. split; [reflexivity|]. simpl.
      split; [reflexivity|]. split; [exact Hlen|].
      split; [now apply dict_del_same|].
      intros k Hk. now apply dict_del_other.
Qed.

Lemma remove_event_deletes_witness :
  remove_event_from_campaign timeline_sample_store timeline_sample_campaign 2
  = Some (set_events timeline_sample_store
            (dict_del "E2" (events timeline_sample_store)),
          Campaign.set_quest_event_ids timeline_sample_campaign ["E1"; "E3"; "E4"])
  /\ remove_event_from_campaign timeline_sample_store timeline_sample_campaign 0
     = Some (timeline_sample_store, timeline_sample_campaign).
Proof.
  split; [reflexivity|].
  apply (proj1 (remove_event_deletes timeline_sample_store
                  timeline_sample_campaign 0
                  ltac:(repeat constructor; simpl; intuition discriminate)
                  ltac:(simpl; lia))).
  reflexivity.
Defined.

(** X18. Adding an event to a campaign, with a realm-menu choice in
    range: the event identifier is taken from the counter first, so the
    choice 0 (cancel) gives the campaign and the events back as they were
    but the counter one higher; a choice from 1 on never raises, and for
    the realm at that position (unless its id is the empty string) it
    stores, under the new identifier, an event with the given times, that
    realm's id, and no participants, shares or inventory changes, appends
    the identifier to the end of the campaign's list, and leaves the
    events under other ids untouched. *)
Theorem add_event_appends (self : t) (camp : Campaign.t) (name : string)
    (start : WorldClockTime.t) (end_ : option WorldClockTime.t) (choice : Z) :
  0 <= choice <= Z.of_nat (List.length (realms self)) ->
  let eid := ("E" ++ WorldClockTime.dec (counter self "event"))%string in
  let s0 := fst (_new_id self "event" "E") in
  counter s0 "event" = counter self "event" + 1
  /\ events s0 = events self
  /\ (choice = 0 ->
      add_event_to_campaign self camp name start end_ choice = Some (s0, camp))
  /\ (1 <= choice ->
      exists k realm,
        nth_error (realms self) (Z.to_nat (choice - 1)) = Some (k, realm)
        /\ (Realm.realm_id realm <> "" ->
            exists s',
              add_event_to_campaign self camp name start end_ choice
              = Some (s', Campaign.set_quest_event_ids camp
                            (Campaign.quest_event_ids camp ++ [eid]))
              /\ dict_get eid (events s')
                 = Some (QuestEvent.mk eid (str_or name eid) start end_
                                       (Realm.realm_id realm) [] [] [])
              /\ (forall k', k' <> eid ->
                    dict_get k' (events s') = dict_get k' (events self)))).
Proof.
  intros Hr eid s0.
  split; [unfold s0; rewrite new_id_counter; now rewrite String.eqb_refl|].
  split; [reflexivity|].
  unfold add_event_to_campaign, _new_id.
  cbn [set_id_counters realms events].
  fold (counter self "event"). fold eid.
  remember (map _ (realms self)) as items eqn:Eitems.
  assert (Hlen : List.length items = List.length (realms self))
    by (rewrite Eitems; apply length_map).
  split.
  - intros ->. unfold _pick_from_list. now destruct items.
  - intros H1. unfold _pick_from_list.
    destruct items as [|it0 its] eqn:Ei; [simpl in Hlen; lia|]. rewrite <- Ei.
    destruct (Z.eqb_spec choice 0); [lia|].
    destruct (py_index_in_range items (choice - 1)) as (x & Hx & Hn);
      [rewrite Ei; lia|].
    rewrite Hx. cbn [option_map].
    rewrite Ei, Eitems in Hn. rewrite nth_error_map in Hn.
    destruct (nth_error (realms self) (Z.to_nat (choice - 1))) as [[k realm]|];
      [|discriminate].
    simpl in Hn. injection Hn as <-. exists k, realm. split; [reflexivity|].
    cbn [fst]. intros Hne. unfold truthy.
    apply String.eqb_neq in Hne. rewrite Hne. cbn [negb].
    eexists. split; [reflexivity|]. cbn [set_events events].
    split; [apply dict_get_set_same|].
    intros k' Hk'. now apply dict_get_set_other.
Qed.

Lemma add_event_appends_witness :
  exists k realm,
    nth_error (realms early_realm_store) (Z.to_nat (1 - 1)) = Some (k, realm)
    /\ (Realm.realm_id realm <> "" ->
        exists s',
          add_event_to_campaign early_realm_store timeline_sample_campaign ""
            (WorldClockTime.mk 1 0 0) None 1
          = Some (s', Campaign.set_quest_event_ids timeline_sample_campaign
                        (Campaign.quest_event_ids timeline_sample_campaign
                         ++ [("E" ++ WorldClockTime.dec
                                (counter early_realm_store "event"))%string]))
          /\ dict_get ("E" ++ WorldClockTime.dec (counter early_realm_store "event"))
               (events s')
             = Some (QuestEvent.mk
                       ("E" ++ WorldClockTime.dec (counter early_realm_store "event"))
                       (str_or "" ("E" ++ WorldClockTime.dec
                                     (counter early_realm_store "event")))
                       (WorldClockTime.mk 1 0 0) None (Realm.realm_id realm) [] [] [])
          /\ (forall k', k' <> ("E" ++ WorldClockTime.dec
                                  (counter early_realm_store "event"))%string ->
                dict_get k' (events s') = dict_get k' (events early_realm_store))).
Proof.
  apply (proj2 (proj2 (proj2 (add_event_appends early_realm_store
    timeline_sample_campaign "" (WorldClockTime.mk 1 0 0) None 1
    ltac:(simpl; lia)))));
    lia.
Defined.

(** X19. The participant editor keeps the list free of repeats: adding
    never stores an id a second time and keeps every id that was there,
    and only ids of characters the store holds are offered; removing,
    with a choice from 1 on in range, never raises and takes the id at
    that position out of a list without repeats (unless the id is the
    empty string, which is taken for no choice). *)
Theorem participants_no_repeats (self : t) (user : User.t) (e : QuestEvent.t)
    (choice : Z) :
  NoDup (QuestEvent.participant_char_ids e) ->
  (forall e',
      add_participant self user e choice = Some e' ->
      NoDup (QuestEvent.participant_char_ids e')
      /\ (forall cid, In cid (QuestEvent.participant_char_ids e) ->
                      In cid (QuestEvent.participant_char_ids e'))
      /\ (forall cid, In cid (QuestEvent.participant_char_ids e') ->
                      In cid (QuestEvent.participant_char_ids e)
                      \/ dict_has cid (characters self) = true))
  /\ (1 <= choice <= Z.of_nat (List.length (QuestEvent.participant_char_ids e)) ->
      exists cid e',
        nth_error (QuestEvent.participant_char_ids e) (Z.to_nat (choice - 1))
        = Some cid
        /\ remove_participant e choice = Some e'
        /\ NoDup (QuestEvent.participant_char_ids e')
        /\ (cid <> "" -> ~ In cid (QuestEvent.participant_char_ids e'))
        /\ (forall c, In c (QuestEvent.participant_char_ids e') ->
                      In c (QuestEvent.participant_char_ids e))).
Proof.
  intros Hnd. split.
  - intros e'. unfold add_participant.
    set (items := flat_map _ (User.character_ids user)).
    destruct (_pick_from_list items choice) as [[cid|]|] eqn:Hp;
      [| |discriminate].
    + destruct (truthy cid && negb (str_in cid (QuestEvent.participant_char_ids e)))
        eqn:Hc; intros H; injection H as <-;
        [|repeat split; [exact Hnd | auto | auto]].
      apply andb_true_iff in Hc. destruct Hc as [_ Hc].
      apply negb_true_iff in Hc.
      assert (Hnin : ~ In cid (QuestEvent.participant_char_ids e)).
      { intros Hin. apply str_in_In in Hin. congruence. }
      simpl. split; [|split].
      * apply NoDup_app; [exact Hnd | repeat constructor; intros [] |].
        intros x Hx [<-|[]]. contradiction.
      * intros c Hin. apply in_or_app. now left.
      * intros c Hin. apply in_app_or in Hin. destruct Hin as [Hin|[<-|[]]];
          [now left | right].
        apply pick_from_list_In in Hp. unfold items in Hp.
        clear -Hp. unfold dict_has.
        induction (User.character_ids user) as [|i ids IH]; [destruct Hp|].
        simpl in Hp. destruct (dict_get i (characters self)) eqn:E; simpl in Hp.
        -- destruct Hp as [<-|Hp]; [now rewrite E | now apply IH].
        -- now apply IH.
    + intros H; injection H as <-. repeat split; [exact Hnd | auto | auto].
  - intros Hr. unfold remove_participant.
    set (ps := QuestEvent.participant_char_ids e) in *.
    unfold _pick_from_list.
    destruct (map (fun cid => (cid, cid)) ps) as [|it0 its] eqn:Ei.
    { apply (f_equal (@List.length _)) in Ei. rewrite length_map in Ei.
      simpl in Ei. lia. }
    rewrite <- Ei. destruct (Z.eqb_spec choice 0); [lia|].
    destruct (py_index_in_range (map (fun cid => (cid, cid)) ps) (choice - 1))
      as (x & Hx & Hn); [rewrite length_map; lia|].
    rewrite Hx. cbn [option_map]. rewrite nth_error_map in Hn.
    destruct (nth_error ps (Z.to_nat (choice - 1))) as [cid|] eqn:En;
      [|discriminate].
    simpl in Hn. injection Hn as <-. cbn [fst]. exists cid.
    assert (Hin : In cid ps) by (eapply nth_error_In; exact En).
    unfold truthy. destruct (String.eqb_spec cid "") as [->|Hne]; cbn [negb andb].
    + exists e. repeat split; [exact Hnd | congruence | auto].
    + rewrite (proj2 (str_in_In cid ps) Hin).
      destruct (str_remove_In cid ps Hin) as (ps' & Hrem & _).
      rewrite Hrem. cbn [option_map]. eexists. split; [reflexivity|].
      split; [reflexivity|]. simpl.
      destruct (str_remove_NoDup cid ps ps' Hnd Hrem) as (H1 & H2 & H3).
      repeat split; auto.
Qed.

Lemma participants_no_repeats_witness :
  exists cid e',
    nth_error ["C1"; "C7"; "C2"] (Z.to_nat (2 - 1)) = Some cid
    /\ remove_participant inventory_sample_event 2 = Some e'
    /\ NoDup (QuestEvent.participant_char_ids e')
    /\ (cid <> "" -> ~ In cid (QuestEvent.participant_char_ids e'))
    /\ (forall c, In c (QuestEvent.participant_char_ids e') ->
                  In c ["C1"; "C7"; "C2"]).
Proof.
  apply (proj2 (participants_no_repeats inventory_sample_store alice
                  inventory_sample_event 2
                  ltac:(repeat constructor; simpl; intuition discriminate))).
  simpl; lia.
Defined.

End EventFacts.

(** ** Persistence, continued *)

Section CodecMore.

Import Spec.
Import Samples.
Import GuildQuestApp.

(** X20. Save and load are inverse on a store without shares: for a store
    with unique keys, users stored under their usernames, times within
    bounds, empty share lists and a current user that is none, blank or
    stored, loading the payload [save] builds returns, into whatever
    store, exactly that store. *)
Theorem save_load_unshared (self into : t) :
  unshared_wf self ->
  load into (Parsed (save_payload self)) = (self, Loaded).
Proof. apply store_roundtrip_unshared. Qed.

Lemma unshared_store_wf : unshared_wf unshared_store.
Proof.
  unfold unshared_wf, keys.
  assert (Hnd1 : forall a : string, NoDup [a])
    by (intros a; constructor; [intros [] | constructor]).
  split; [simpl; constructor; [intros [H|[]]; discriminate H | apply Hnd1]|].
  split; [apply Hnd1|]. split; [apply Hnd1|]. split; [apply Hnd1|].
  split; [apply Hnd1|].
  split; [intros k u [H|[H|[]]]; injection H as <- <-; reflexivity|].
  split; [intros k c [H|[]]; injection H as <- <-; reflexivity|].
  split.
  - intros k e [H|[]]. injection H as <- <-.
    split; [reflexivity|]. split; [unfold WorldClockTime.valid; simpl; lia|].
    intros w Hw. discriminate Hw.
  - intros u H. injection H as <-. now right.
Qed.

Lemma save_load_unshared_witness :
  load shared_store (Parsed (save_payload unshared_store)) = (unshared_store, Loaded).
Proof.
  apply (save_load_unshared unshared_store shared_store unshared_store_wf).
Defined.

(** X21. An event with times within bounds decodes from its encoding
    exactly when it has no shares: with an empty share list the decoder
    returns the event, participants and inventory changes in order and an
    absent end time as absent; with any share it raises [ValueError]. *)
Theorem event_codec_shares (e : QuestEvent.t) :
  WorldClockTime.valid (QuestEvent.start_time e) ->
  (forall w, QuestEvent.end_time e = Some w -> WorldClockTime.valid w) ->
  (QuestEvent.shares e = [] -> _dict_to_event (_event_to_dict e) = Ok e)
  /\ (QuestEvent.shares e <> [] ->
      _dict_to_event (_event_to_dict e) = Raise ValueError).
Proof.
  intros Hs He. split; intros H;
    [now apply event_roundtrip_unshared | now apply event_roundtrip_shared].
Qed.

Lemma event_codec_shares_witness :
  _dict_to_event
    (_event_to_dict
       (QuestEvent.mk "E1" "raid" (WorldClockTime.mk 5 23 59) None "R1"
          ["C2"; "C1"] [Share.mk "bob" COLLABORATIVE] []))
  = Raise ValueError.
Proof.
  apply (proj2 (event_codec_shares
    (QuestEvent.mk "E1" "raid" (WorldClockTime.mk 5 23 59) None "R1"
       ["C2"; "C1"] [Share.mk "bob" COLLABORATIVE] [])
    ltac:(unfold WorldClockTime.valid; simpl; lia)
    ltac:(intros w H; discriminate H))).
  discriminate.
Defined.

(** X22. Realms and characters always decode from their encoding: the
    realm with its coordinates, offset and multiplier, the character with
    its level and its inventory in order. *)
Theorem realm_character_roundtrip :
  (forall r, _dict_to_realm (_realm_to_dict r) = Ok r)
  /\ (forall c, _dict_to_character (_character_to_dict c) = Ok c).
Proof.
  split; [apply dict_to_realm_to_dict | apply dict_to_character_to_dict].
Qed.

Lemma dict_to_time_int (j : json) (d h m : Z) :
  int_time j d h m -> dict_to_time j = WorldClockTime.construct d h m.
Proof.
  intros (kv & -> & Hd & Hh & Hm).
  unfold dict_to_time, Json.subscript. now rewrite Hd, Hh, Hm.
Qed.

Lemma int_time_truthy (j : json) (d h m : Z) :
  int_time j d h m -> Json.truthy_json j = true.
Proof.
  intros (kv & -> & Hd & _). destruct kv; [discriminate Hd | reflexivity].
Qed.

Lemma out_of_range_raises (d h m : Z) :
  out_of_range d h m -> WorldClockTime.construct d h m = Raise ValueError.
Proof.
  unfold out_of_range. intros H.
  destruct (construct_cases d h m) as [[E _]|[_ Hv]]; [exact E | lia].
Qed.

Lemma dict_to_event_bad_times (rec : list (string * json)) :
  bad_times rec -> _dict_to_event (JDict rec) = Raise ValueError.
Proof.
  intros (st & d & h & m & Hst & Hint & Hbad).
  unfold _dict_to_event, Json.subscript, Json.get. rewrite Hst.
  cbn [bind]. rewrite (dict_to_time_int _ _ _ _ Hint).
  destruct (construct_cases d h m) as [[E _]|[E Hv]]; rewrite E; [reflexivity|].
  destruct Hbad as [Hout|(et & d' & h' & m' & Het & Hint' & Hout)];
    [unfold out_of_range in Hout; lia|].
  rewrite Het. cbn [bind].
  rewrite (int_time_truthy _ _ _ _ Hint'), (dict_to_time_int _ _ _ _ Hint').
  now rewrite (out_of_range_raises _ _ _ Hout).
Qed.

Lemma dict_to_event_int_times (rec : list (string * json)) (e : QuestEvent.t) :
  _dict_to_event (JDict rec) = Ok e ->
  (forall st d h m,
      dict_get "start_time" rec = Some st -> int_time st d h m ->
      QuestEvent.start_time e = WorldClockTime.mk d h m
      /\ WorldClockTime.valid (QuestEvent.start_time e))
  /\ (forall et d h m,
        dict_get "end_time" rec = Some et -> int_time et d h m ->
        QuestEvent.end_time e = Some (WorldClockTime.mk d h m)
        /\ WorldClockTime.valid (WorldClockTime.mk d h m)).
Proof.
  unfold _dict_to_event, Json.subscript, Json.get.
  destruct (dict_get "start_time" rec) as [st|]; [|discriminate].
  cbn [bind].
  destruct (dict_to_time st) as [start_time|] eqn:Est; [|discriminate].
  cbn [bind].
  destruct (if Json.truthy_json _ then _ else _) as [end_time|] eqn:Eet;
    [|discriminate].
  unfold bind.
  repeat match goal with
         | |- match ?r with Ok _ => _ | Raise _ => _ end = _ -> _ =>
             destruct r; [|discriminate]
         end.
  intros H. injection H as <-. cbn [QuestEvent.start_time QuestEvent.end_time].
  split.
  - intros st' d h m Hst Hint. injection Hst as <-.
    rewrite (dict_to_time_int _ _ _ _ Hint) in Est.
    destruct (construct_cases d h m) as [[E _]|[E Hv]]; rewrite E in Est;
      [discriminate|]. injection Est as <-. split; [reflexivity | exact Hv].
  - intros et d h m Het Hint. rewrite Het in Eet.
    rewrite (int_time_truthy _ _ _ _ Hint), (dict_to_time_int _ _ _ _ Hint) in Eet.
    destruct (construct_cases d h m) as [[E _]|[E Hv]]; rewrite E in Eet;
      [discriminate|]. injection Eet as <-. split; [reflexivity | exact Hv].
Qed.

Lemma dict_comp_Ok_items {V : Type} (f : json -> res V) :
  forall items acc d,
    dict_comp f items acc = Ok d ->
    forall k j, In (k, j) items -> exists v, f j = Ok v.
Proof.
  induction items as [|[k0 j0] items IH]; intros acc d; simpl.
  - intros _ k j [].
  - destruct (f j0) as [v0|] eqn:E; [|discriminate]. simpl.
    intros H k j [Hin|Hin].
    + injection Hin as _ <-. now exists v0.
    + exact (IH _ _ H k j Hin).
Qed.

(** X23. Loading validates times given as integers.  A time object whose
    [day], [hour] and [minute] are integers decodes to what the
    constructor of [WorldClockTime] returns on them, so with its check of
    the bounds.  An event record whose start time, or whose end time, is
    such an object with a field out of bounds makes the event decoder
    raise [ValueError]; when the decoder returns an event, a start or end
    time given as integers is the event's start or end time and is
    within bounds.  And a document whose [events] section holds a record
    with such a time out of bounds is never loaded: [load] does not
    return after loading. *)
Theorem load_validates_times :
  (forall j d h m,
      int_time j d h m -> dict_to_time j = WorldClockTime.construct d h m)
  /\ (forall rec, bad_times rec -> _dict_to_event (JDict rec) = Raise ValueError)
  /\ (forall rec e,
        _dict_to_event (JDict rec) = Ok e ->
        (forall st d h m,
            dict_get "start_time" rec = Some st -> int_time st d h m ->
            QuestEvent.start_time e = WorldClockTime.mk d h m
            /\ WorldClockTime.valid (QuestEvent.start_time e))
        /\ (forall et d h m,
              dict_get "end_time" rec = Some et -> int_time et d h m ->
              QuestEvent.end_time e = Some (WorldClockTime.mk d h m)
              /\ WorldClockTime.valid (WorldClockTime.mk d h m)))
  /\ (forall (self : t) payload evs k rec,
        Json.get payload "events" (JDict []) = Ok (JDict evs) ->
        In (k, JDict rec) evs ->
        bad_times rec ->
        snd (load self (Parsed payload)) <> Loaded).
Proof.
  split; [exact dict_to_time_int|].
  split; [exact dict_to_event_bad_times|].
  split; [exact dict_to_event_int_times|].
  intros self payload evs k rec Hget Hin Hbad Hl.
  destruct (load self (Parsed payload)) as [self' o] eqn:E.
  simpl in Hl. subst o.
  apply load_loaded_from in E.
  destruct E as (kv & Hp & Hfrom). injection Hp as ->.
  destruct Hfrom as (_ & _ & _ & Hev & _).
  unfold load_section in Hev. rewrite Hget in Hev.
  cbn [bind Json.items] in Hev.
  destruct (dict_comp_Ok_items _ _ _ _ Hev k (JDict rec) Hin) as (v & Hv).
  rewrite (dict_to_event_bad_times rec Hbad) in Hv. discriminate Hv.
Qed.

Lemma load_validates_times_witness :
  dict_to_time (JDict [("day", JInt 1); ("hour", JInt 24); ("minute", JInt 0)])
  = WorldClockTime.construct 1 24 0
  /\ _dict_to_event
       (JDict [("event_id", JStr "E1"); ("name", JStr "raid");
               ("start_time",
                JDict [("day", JInt 1); ("hour", JInt 24); ("minute", JInt 0)]);
               ("realm_id", JStr "R1")])
     = Raise ValueError
  /\ snd (load new_store
            (Parsed (JDict [("events",
               JDict [("E1",
                 JDict [("event_id", JStr "E1"); ("name", JStr "raid");
                        ("start_time",
                         JDict [("day", JInt 0); ("hour", JInt 0);
                                ("minute", JInt 0)]);
                        ("end_time",
                         JDict [("day", JInt 0); ("hour", JInt 0);
                                ("minute", JInt 60)]);
                        ("realm_id", JStr "R1")])])])))
     <> Loaded.
Proof.
  split; [|split].
  - apply (proj1 load_validates_times).
    exists [("day", JInt 1); ("hour", JInt 24); ("minute", JInt 0)].
    repeat split.
  - apply (proj1 (proj2 load_validates_times)).
    exists (JDict [("day", JInt 1); ("hour", JInt 24); ("minute", JInt 0)]),
      1, 24, 0.
    split; [reflexivity|]. split.
    + exists [("day", JInt 1); ("hour", JInt 24); ("minute", JInt 0)].
      repeat split.
    + left. unfold out_of_range. lia.
  - apply (proj2 (proj2 (proj2 load_validates_times)) new_store _
             [("E1",
               JDict [("event_id", JStr "E1"); ("name", JStr "raid");
                      ("start_time",
                       JDict [("day", JInt 0); ("hour", JInt 0);
                              ("minute", JInt 0)]);
                      ("end_time",
                       JDict [("day", JInt 0); ("hour", JInt 0);
                              ("minute", JInt 60)]);
                      ("realm_id", JStr "R1")])]
             "E1"
             [("event_id", JStr "E1"); ("name", JStr "raid");
              ("start_time",
               JDict [("day", JInt 0); ("hour", JInt 0); ("minute", JInt 0)]);
              ("end_time",
               JDict [("day", JInt 0); ("hour", JInt 0); ("minute", JInt 60)]);
              ("realm_id", JStr "R1")]).
    + reflexivity.
    + now left.
    + exists (JDict [("day", JInt 0); ("hour", JInt 0); ("minute", JInt 0)]),
        0, 0, 0.
      split; [reflexivity|]. split.
      * exists [("day", JInt 0); ("hour", JInt 0); ("minute", JInt 0)].
        repeat split.
      * right.
        exists (JDict [("day", JInt 0); ("hour", JInt 0); ("minute", JInt 60)]),
          0, 0, 60.
        split; [reflexivity|]. split.
        -- exists [("day", JInt 0); ("hour", JInt 0); ("minute", JInt 60)].
           repeat split.
        -- unfold out_of_range. lia.
Defined.

(** X24. The campaign decoder on a record without a [shares] entry: when
    [campaign_id], [owner_username] and [name] are strings and
    [visibility], [archived] and [quest_event_ids] are absent, it returns
    a PRIVATE, unarchived campaign without events or shares, whatever
    other keys the record holds; when [campaign_id] is absent it raises
    [KeyError]; and a value that is no object raises [AttributeError]. *)
Theorem campaign_decoder_defaults (kv : list (string * json)) :
  dict_get "shares" kv = None ->
  (forall cid own nm,
      dict_get "campaign_id" kv = Some (JStr cid) ->
      dict_get "owner_username" kv = Some (JStr own) ->
      dict_get "name" kv = Some (JStr nm) ->
      dict_get "visibility" kv = None ->
      dict_get "archived" kv = None ->
      dict_get "quest_event_ids" kv = None ->
      _dict_to_campaign (JDict kv) = Ok (Campaign.mk cid own nm PRIVATE false [] []))
  /\ (dict_get "campaign_id" kv = None ->
      _dict_to_campaign (JDict kv) = Raise KeyError)
  /\ (forall j, (forall kv', j <> JDict kv') ->
        _dict_to_campaign j = Raise AttributeError).
Proof.
  intros Hsh. split; [|split].
  - intros cid own nm H1 H2 H3 H4 H5 H6.
    unfold _dict_to_campaign, Json.get, Json.subscript.
    now rewrite Hsh, H1, H2, H3, H4, H5, H6.
  - intros H1. unfold _dict_to_campaign, Json.get, Json.subscript.
    now rewrite Hsh, H1.
  - intros j Hj. destruct j; try reflexivity. now elim (Hj kv0).
Qed.

Lemma campaign_decoder_defaults_witness :
  _dict_to_campaign
    (JDict [("name", JStr "Crypt"); ("campaign_id", JStr "P1");
            ("colour", JStr "red"); ("owner_username", JStr "alice")])
  = Ok (Campaign.mk "P1" "alice" "Crypt" PRIVATE false [] []).
Proof.
  apply (proj1 (campaign_decoder_defaults
    [("name", JStr "Crypt"); ("campaign_id", JStr "P1");
     ("colour", JStr "red"); ("owner_username", JStr "alice")] eq_refl));
    reflexivity.
Defined.

Lemma lookup_In_NoDup (u : string) (p : PermissionLevel) (l : list Share.t) :
  NoDup (users_of l) -> In (Share.mk u p) l -> Share.lookup u l = Some p.
Proof.
  unfold users_of.
  induction l as [|s l IH]; simpl; intros Hnd; [intros []|].
  inversion Hnd as [|? ? Hnin Hnd']; subst.
  intros [->|Hin]; simpl.
  - now rewrite String.eqb_refl.
  - destruct (String.eqb_spec (Share.shared_with_user s) u) as [E|E].
    + exfalso. apply Hnin. rewrite E.
      change u with (Share.shared_with_user (Share.mk u p)). now apply in_map.
    + now apply IH.
Qed.

(** X25. The list of events shared with a user holds an event with a
    level exactly when the store holds the event and its share list holds
    a share of that level for the user; campaigns are not consulted, so
    the list is the same whatever campaigns the store has; and when the
    event's share list has one share per user, the level listed is the
    one the event's resolver gives the user whenever the owner passed to
    the resolver is someone else.  When the owner passed is the user, the
    resolver gives COLLABORATIVE whatever the share list holds. *)
Theorem events_shared_listing (self : t) (u : string) (e : QuestEvent.t)
    (p : PermissionLevel) :
  (In (e, p) (events_shared_with self u)
   <-> exists k, In (k, e) (events self) /\ In (Share.mk u p) (QuestEvent.shares e))
  /\ (forall cs, events_shared_with (set_campaigns self cs) u
                 = events_shared_with self u)
  /\ (In (e, p) (events_shared_with self u) ->
      NoDup (users_of (QuestEvent.shares e)) ->
      forall owner, owner <> u ->
        QuestEvent.get_permission e u owner = Some p)
  /\ QuestEvent.get_permission e u u = Some COLLABORATIVE.
Proof.
  assert (Hiff : In (e, p) (events_shared_with self u)
    <-> exists k, In (k, e) (events self) /\ In (Share.mk u p) (QuestEvent.shares e)).
  { unfold events_shared_with. rewrite in_flat_map. split.
    - intros ([k e0] & Hin & Hm). apply in_map_iff in Hm.
      destruct Hm as (s & Hs & Hf). apply filter_In in Hf.
      destruct Hf as [Hf Hu]. apply String.eqb_eq in Hu.
      simpl in Hs. injection Hs as -> <-. exists k. split; [exact Hin|].
      destruct s as [su sp]. simpl in Hu. now subst su.
    - intros (k & Hin & Hs). exists (k, e). split; [exact Hin|].
      apply in_map_iff. exists (Share.mk u p). split; [reflexivity|].
      apply filter_In. split; [exact Hs | apply String.eqb_refl]. }
  split; [exact Hiff|]. split; [reflexivity|]. split.
  - intros Hin Hnd owner Hne. apply Hiff in Hin. destruct Hin as (k & _ & Hs).
    unfold QuestEvent.get_permission.
    destruct (String.eqb_spec u owner); [congruence|].
    now apply lookup_In_NoDup.
  - unfold QuestEvent.get_permission. now rewrite String.eqb_refl.
Qed.

Lemma events_shared_listing_witness :
  QuestEvent.get_permission
    (QuestEvent.mk "E1" "raid" (WorldClockTime.mk 0 0 0) None "R1" [] 
       [Share.mk "bob" VIEW_ONLY] [])
    "bob" "alice"
  = Some VIEW_ONLY.
Proof.
  apply (proj1 (proj2 (proj2 (events_shared_listing
    (mk [] [] []
        [("E1", QuestEvent.mk "E1" "raid" (WorldClockTime.mk 0 0 0) None "R1" []
                  [Share.mk "bob" VIEW_ONLY] [])] [] [] None)
    "bob"
    (QuestEvent.mk "E1" "raid" (WorldClockTime.mk 0 0 0) None "R1" []
       [Share.mk "bob" VIEW_ONLY] [])
    VIEW_ONLY)))).
  - now left.
  - repeat constructor. intros [].
  - discriminate.
Defined.

End CodecMore.
